(** * libas: ingest server, audio container writer, watcher and worker pool

  A shallow embedding of the Go packages [audio], [libaserv], [libascli]
  and [scribe] of the libas voice capture and transcription service,
  together with the properties of its ingest and transcription pipeline.

  Conventions of the embedding:
  - Go's [uint32] values are integers of [Z] with the wrap-around written
    as [wrap32]; [[]byte] is [list byte];
  - Go strings that name files are [string] (a sequence of bytes, so
    [len] is [String.length]);
  - the file system, the clock, the network peer and the external
    commands are explicit: every function takes the state it reads and
    returns the state it leaves. *)

From Stdlib Require Import ZArith Lia List String Ascii Bool.
From Stdlib Require Import Strings.Byte.
From Stdlib Require Floats Uint63.
From stdpp Require Import gmap strings list.
Import ListNotations.
Open Scope Z_scope.

(** ** Machine integers and bytes *)

Definition wrap32 (z : Z) : Z := z mod 2 ^ 32.
Definition wrap16 (z : Z) : Z := z mod 2 ^ 16.

(** Go's conversion [byte(v)] of an unsigned integer. *)
Definition byte_of_Z (z : Z) : byte :=
match Byte.of_N (Z.to_N (z mod 256)) with
| Some b => b
| None => Byte.x00
end.

Definition Z_of_byte (b : byte) : Z := Z.of_N (Byte.to_N b).

(** The bytes of a string literal. *)
Definition bytes_of_string (s : string) : list byte :=
map byte_of_ascii (list_ascii_of_string s).

(** ** Package encoding/binary, as far as the program uses it *)

Module binary.

(** [LittleEndian.PutUint32] and [PutUint16]. *)
Definition LittleEndian_PutUint32 (v : Z) : list byte :=
  [byte_of_Z v; byte_of_Z (Z.shiftr v 8);
   byte_of_Z (Z.shiftr v 16); byte_of_Z (Z.shiftr v 24)].

Definition LittleEndian_PutUint16 (v : Z) : list byte :=
  [byte_of_Z v; byte_of_Z (Z.shiftr v 8)].

(** [LittleEndian.Uint32]: [b[0] | b[1]<<8 | b[2]<<16 | b[3]<<24];
    a slice shorter than four bytes is out of range. *)
Definition LittleEndian_Uint32 (b : list byte) : option Z :=
  match b with
  | b0 :: b1 :: b2 :: b3 :: _ =>
      Some (Z.lor (Z.lor (Z.lor (Z_of_byte b0) (Z.shiftl (Z_of_byte b1) 8))
                         (Z.shiftl (Z_of_byte b2) 16))
                  (Z.shiftl (Z_of_byte b3) 24))
  | _ => None
  end.

(** [BigEndian.Uint32]: [b[3] | b[2]<<8 | b[1]<<16 | b[0]<<24]. *)
Definition BigEndian_Uint32 (b : list byte) : option Z :=
  match b with
  | b0 :: b1 :: b2 :: b3 :: _ =>
      Some (Z.lor (Z.lor (Z.lor (Z_of_byte b3) (Z.shiftl (Z_of_byte b2) 8))
                         (Z.shiftl (Z_of_byte b1) 16))
                  (Z.shiftl (Z_of_byte b0) 24))
  | _ => None
  end.

(** [BigEndian.PutUint32], the encoder the capture side uses for a
    frame prefix. *)
Definition BigEndian_PutUint32 (v : Z) : list byte :=
  [byte_of_Z (Z.shiftr v 24); byte_of_Z (Z.shiftr v 16);
   byte_of_Z (Z.shiftr v 8); byte_of_Z v].

End binary.

(** ** Package os: files, descriptors and the directory

  A file is an inode holding bytes; the directory maps names to inodes;
  an [*os.File] is an index into the table of descriptors.  A descriptor
  keeps the name it was opened under ([File.Name]), its inode, its offset
  and whether it was closed.  Every call on a file or a descriptor (a
  [Create] that opens a file, [Write], [Seek], [Close], [Remove],
  [Rename], the run of a command) is also appended to a log, so that
  properties can speak about which of these calls the program made and
  in which order.  Directories are not modelled: [MkdirAll] leaves no
  trace here, and neither does a [Create] that fails. *)

Module os.

Record File := mkFile {
  f_name : string;
  f_inode : nat;
  f_offset : nat;
  f_closed : bool
}.

Inductive call :=
| CCreate (name : string) (fd : nat)
| CWrite (fd : nat) (data : list byte)
| CSeek (fd : nat) (off : nat)
| CClose (fd : nat)
| CRemove (name : string)
| CRename (old new : string)
| CExec (prog : string) (args : list string).

Record FS := mkFS {
  dir : gmap string nat;
  inodes : list (list byte);
  fds : list File;
  log : list call
}.

Definition empty : FS := mkFS ∅ [] [] [].

Definition logged (c : call) (fs : FS) : FS :=
  mkFS (dir fs) (inodes fs) (fds fs) (log fs ++ [c]).

(** The content of a file of [old] bytes after [data] is written at
    offset [off]; a hole before [off] reads as zeros. *)
Definition write_at (old : list byte) (off : nat) (data : list byte)
  : list byte :=
  take off old ++ repeat Byte.x00 (off - length old) ++ data
    ++ drop (off + length data) old.

(** [os.Create]: the file is created or truncated, and opened at offset
    0.  [ok] says whether the system call succeeds. *)
Definition Create (ok : bool) (name : string) (fs : FS) : option nat * FS :=
  if ok then
    let fd := length (fds fs) in
    match dir fs !! name with
    | Some i =>
        (Some fd,
         mkFS (dir fs) (<[i := []]> (inodes fs))
              (fds fs ++ [mkFile name i 0 false])
              (log fs ++ [CCreate name fd]))
    | None =>
        let i := length (inodes fs) in
        (Some fd,
         mkFS (<[name := i]> (dir fs)) (inodes fs ++ [[]])
              (fds fs ++ [mkFile name i 0 false])
              (log fs ++ [CCreate name fd]))
    end
  else (None, fs).

(** [File.Write]; [false] is the error of a closed (or invalid)
    descriptor. *)
Definition Write (fd : nat) (data : list byte) (fs : FS) : bool * FS :=
  match fds fs !! fd with
  | Some f =>
      if f_closed f then (false, logged (CWrite fd data) fs)
      else
        let old := default [] (inodes fs !! f_inode f) in
        (true,
         mkFS (dir fs)
              (<[f_inode f := write_at old (f_offset f) data]> (inodes fs))
              (<[fd := mkFile (f_name f) (f_inode f)
                               (f_offset f + length data) false]> (fds fs))
              (log fs ++ [CWrite fd data]))
  | None => (false, logged (CWrite fd data) fs)
  end.

(** [File.Seek(off, 0)], from the start of the file. *)
Definition Seek (fd : nat) (off : nat) (fs : FS) : bool * FS :=
  match fds fs !! fd with
  | Some f =>
      if f_closed f then (false, logged (CSeek fd off) fs)
      else
        (true,
         mkFS (dir fs) (inodes fs)
              (<[fd := mkFile (f_name f) (f_inode f) off false]> (fds fs))
              (log fs ++ [CSeek fd off]))
  | None => (false, logged (CSeek fd off) fs)
  end.

(** [File.Close]; closing twice is an error, which the program ignores. *)
Definition Close (fd : nat) (fs : FS) : bool * FS :=
  match fds fs !! fd with
  | Some f =>
      if f_closed f then (false, logged (CClose fd) fs)
      else
        (true,
         mkFS (dir fs) (inodes fs)
              (<[fd := mkFile (f_name f) (f_inode f) (f_offset f) true]>
                 (fds fs))
              (log fs ++ [CClose fd]))
  | None => (false, logged (CClose fd) fs)
  end.

(** [File.Name]. *)
Definition Name (fd : nat) (fs : FS) : string :=
  match fds fs !! fd with
  | Some f => f_name f
  | None => EmptyString
  end.

(** [os.Remove] and [os.Rename]; their errors are ignored by every
    caller in the program. *)
Definition Remove (name : string) (fs : FS) : FS :=
  mkFS (delete name (dir fs)) (inodes fs) (fds fs)
       (log fs ++ [CRemove name]).

Definition Rename (old new : string) (fs : FS) : FS :=
  match dir fs !! old with
  | Some i =>
      mkFS (<[new := i]> (delete old (dir fs))) (inodes fs) (fds fs)
           (log fs ++ [CRename old new])
  | None => logged (CRename old new) fs
  end.

(** What a reader finds under a name. *)
Definition content (name : string) (fs : FS) : option (list byte) :=
  match dir fs !! name with
  | Some i => inodes fs !! i
  | None => None
  end.

Definition is_open (fd : nat) (fs : FS) : bool :=
  match fds fs !! fd with
  | Some f => negb (f_closed f)
  | None => false
  end.


(** A file system is well formed when every name and every descriptor
refers to an inode that exists. *)
Definition wf (fs : FS) : Prop :=
  (forall n i, dir fs !! n = Some i -> (i < length (inodes fs))%nat) /\
  (forall fd f, fds fs !! fd = Some f -> (f_inode f < length (inodes fs))%nat).

(** [fd] is an open descriptor of name [n] at offset [off], on a file
that holds [c]. *)
Definition points (fs : FS) (fd : nat) (n : string) (i off : nat)
  (c : list byte) : Prop :=
  fds fs !! fd = Some (mkFile n i off false) /\ inodes fs !! i = Some c.

(** A file written by another process (the transcoder): created or
replaced under [name]; no call of the program is logged. *)
Definition external_write (name : string) (data : list byte) (fs : FS) : FS :=
  mkFS (<[name := length (inodes fs)]> (dir fs)) (inodes fs ++ [data])
       (fds fs) (log fs).

(** The names the descriptors were opened under, by descriptor. *)
Definition names (fs : FS) : list string := map f_name (fds fs).

End os.

(** ** Package audio *)

Module audio.

Definition recordingSampleRate : Z := 44100.
Definition whisperSampleRate : Z := 16000.
Definition channels : Z := 1.
Definition bitsPerSample : Z := 16.

Record WavHeader := mkWavHeader {
  ChunkID : list byte;
  ChunkSize : Z;
  Format : list byte;
  Subchunk1ID : list byte;
  Subchunk1Size : Z;
  AudioFormat : Z;
  NumChannels : Z;
  SampleRate : Z;
  ByteRate : Z;
  BlockAlign : Z;
  BitsPerSample : Z;
  Subchunk2ID : list byte;
  Subchunk2Size : Z
}.

(** What [binary.Write(file, binary.LittleEndian, header)] sends to the
file: the fields in declaration order, integers little-endian. *)
Definition encode (h : WavHeader) : list byte :=
  ChunkID h ++ binary.LittleEndian_PutUint32 (ChunkSize h)
  ++ Format h ++ Subchunk1ID h
  ++ binary.LittleEndian_PutUint32 (Subchunk1Size h)
  ++ binary.LittleEndian_PutUint16 (AudioFormat h)
  ++ binary.LittleEndian_PutUint16 (NumChannels h)
  ++ binary.LittleEndian_PutUint32 (SampleRate h)
  ++ binary.LittleEndian_PutUint32 (ByteRate h)
  ++ binary.LittleEndian_PutUint16 (BlockAlign h)
  ++ binary.LittleEndian_PutUint16 (BitsPerSample h)
  ++ Subchunk2ID h ++ binary.LittleEndian_PutUint32 (Subchunk2Size h).

Definition header (dataSize : Z) : WavHeader :=
  {| ChunkID := bytes_of_string "RIFF";
     ChunkSize := wrap32 (dataSize + 36);
     Format := bytes_of_string "WAVE";
     Subchunk1ID := bytes_of_string "fmt ";
     Subchunk1Size := 16;
     AudioFormat := 1;
     NumChannels := wrap16 channels;
     SampleRate := recordingSampleRate;
     ByteRate :=
       wrap32 (wrap32 (wrap32 (recordingSampleRate * wrap32 channels)
                       * wrap32 bitsPerSample) / 8);
     BlockAlign := wrap16 (channels * bitsPerSample / 8);
     BitsPerSample := wrap16 bitsPerSample;
     Subchunk2ID := bytes_of_string "data";
     Subchunk2Size := dataSize |}.

(** The container layout of the interface description: the [RIFF] magic
at 0, the total size at 4, [WAVE] at 8, the [fmt ] subchunk at 12 (size
16, format 1, 1 channel, 44100 Hz, byte rate 88200, block align 2, 16
bits per sample), the [data] subchunk at 36 with its size at 40, and the
payload from 44. *)
Definition container (total data : Z) (payload : list byte) : list byte :=
  bytes_of_string "RIFF" ++ binary.LittleEndian_PutUint32 total
  ++ bytes_of_string "WAVE" ++ bytes_of_string "fmt "
  ++ binary.LittleEndian_PutUint32 16
  ++ binary.LittleEndian_PutUint16 1
  ++ binary.LittleEndian_PutUint16 1
  ++ binary.LittleEndian_PutUint32 44100
  ++ binary.LittleEndian_PutUint32 88200
  ++ binary.LittleEndian_PutUint16 2
  ++ binary.LittleEndian_PutUint16 16
  ++ bytes_of_string "data" ++ binary.LittleEndian_PutUint32 data
  ++ payload.

(** [WriteWavHeader]; the result is [true] when [err == nil]. *)
Definition WriteWavHeader (file : nat) (dataSize : Z) (fs : os.FS)
  : bool * os.FS :=
  os.Write file (encode (header dataSize)) fs.

(** [UpdateWavHeader]: each failing step returns its error at once. *)
Definition UpdateWavHeader (file : nat) (dataSize : Z) (fs : os.FS)
  : bool * os.FS :=
  let (ok1, fs1) := os.Seek file 4 fs in
  if negb ok1 then (false, fs1) else
  let (ok2, fs2) :=
    os.Write file (binary.LittleEndian_PutUint32 (wrap32 (dataSize + 36))) fs1 in
  if negb ok2 then (false, fs2) else
  let (ok3, fs3) := os.Seek file 40 fs2 in
  if negb ok3 then (false, fs3) else
  let (ok4, fs4) :=
    os.Write file (binary.LittleEndian_PutUint32 dataSize) fs3 in
  if negb ok4 then (false, fs4) else
  (true, fs4).

(** The output path of [ResampleForWhisper]:
[inputPath[:len(inputPath)-4] + "_whisper.wav"].  [None] is the run-time
panic of a slice bound below zero. *)
Definition outputPath (inputPath : string) : option string :=
  if (String.length inputPath <? 4)%nat then None
  else Some (substring 0 (String.length inputPath - 4) inputPath
             +:+ "_whisper.wav").

Inductive result (A : Type) :=
| Panic
| Done (a : A).
Arguments Panic {A}.
Arguments Done {A} a.

(** [ResampleForWhisper].  [ffmpeg] is the external transcoder: from the
bytes of the input file it produces the bytes of the output file, or
fails; a missing input file makes it fail.  The result is [true] when
[err == nil]. *)
Definition ResampleForWhisper (ffmpeg : list byte -> option (list byte))
  (inputPath : string) (fs : os.FS) : result (bool * os.FS) :=
  match outputPath inputPath with
  | None => Panic
  | Some out =>
      let fs1 :=
        os.logged
          (os.CExec "ffmpeg"
             ["-i"; inputPath; "-ar"; "16000"; "-ac"; "1"; "-y"; out]) fs in
      match os.content inputPath fs1 ≫= ffmpeg with
      | None => Done (false, fs1)
      | Some data =>
          Done (true, os.Remove inputPath (os.external_write out data fs1))
      end
  end.

End audio.

(** ** Package time, as far as the program uses it

An instant is a number of nanoseconds; the zero value [time.Time{}] of
a variable that was never assigned is [None]. *)

Module time.

Definition Second : Z := 1000000000.
Definition maxDuration : Z := 2 ^ 63 - 1.
Definition minDuration : Z := - 2 ^ 63.

(** [time.Since(t)] at instant [now]: the difference, saturated to the
range of [Duration]; the zero instant lies further in the past than a
[Duration] can hold. *)
Definition Since (t : option Z) (now : Z) : Z :=
  match t with
  | Some t0 => Z.max minDuration (Z.min maxDuration (now - t0))
  | None => maxDuration
  end.

End time.

(** ** Package libaserv: the ingest server *)

Module libaserv.

Import audio.

(** [filepath.Join] on two clean, non-empty components. *)
Definition filepath_Join (a b : string) : string := a +:+ "/" +:+ b.

(** What the handler cannot decide by itself: the endpoint id, whether
it can be sent to the peer, the local-time formats of an instant, which
directory and file creations succeed, the transcoder, the instant the
peer closes the stream, and from which instant on the context is
cancelled. *)
Record Env := mkEnv {
  clientID : string;
  sendClientID_ok : bool;
  format_20060102 : Z -> string;
  format_150405 : Z -> string;
  MkdirAll_ok : string -> Z -> bool;
  Create_ok : string -> Z -> bool;
  ffmpeg : list byte -> option (list byte);
  peer_closes_at : Z;
  ctx_Done : Z -> bool
}.

(** The state a connection handler runs in.  [conn] holds the bytes the
peer has still to deliver, each with the instant it arrives; [now] is
the clock; [currentDay] is the package variable; the last four fields
are the local variables of [handleConnection]. *)
Record State := mkState {
  conn : list (Z * byte);
  now : Z;
  fs : os.FS;
  currentDay : string;
  transmissionBuffer : list byte;
  isReceivingTransmission : bool;
  file : option nat;
  transmissionStartTime : option Z
}.

Definition with_fs (st : State) (fs' : os.FS) : State :=
  mkState (conn st) (now st) fs' (currentDay st) (transmissionBuffer st)
          (isReceivingTransmission st) (file st) (transmissionStartTime st).

Definition with_file (st : State) (f : option nat) : State :=
  mkState (conn st) (now st) (fs st) (currentDay st) (transmissionBuffer st)
          (isReceivingTransmission st) f (transmissionStartTime st).

Inductive read_error := EOF | ErrUnexpectedEOF.

(** The instant by which all of the bytes [bs] have arrived, not before
the instant [t] at which the read began. *)
Definition arrival (t : Z) (bs : list (Z * byte)) : Z :=
  fold_left Z.max (map fst bs) t.

(** [io.ReadFull(conn, buf)] with [len(buf) = n]: it returns when [n]
bytes have arrived, or with an error when the peer closes before:
[io.EOF] if no byte was read, [io.ErrUnexpectedEOF] otherwise. *)
Definition ReadFull (env : Env) (n : nat) (st : State)
  : (read_error + list byte) * State :=
  let set c t :=
    mkState c t (fs st) (currentDay st) (transmissionBuffer st)
            (isReceivingTransmission st) (file st)
            (transmissionStartTime st) in
  if (n <=? length (conn st))%nat then
    (inr (map snd (take n (conn st))),
     set (drop n (conn st)) (arrival (now st) (take n (conn st))))
  else
    (inl (match conn st with [] => EOF | _ => ErrUnexpectedEOF end),
     set [] (Z.max (arrival (now st) (conn st)) (peer_closes_at env))).

(** [updateCurrentDay]: the package variable follows the clock (the
daily directory itself is not part of the model; a failure to create
it is only logged). *)
Definition updateCurrentDay (env : Env) (st : State) : State :=
  let newDay := format_20060102 env (now st) in
  if decide (newDay = currentDay st) then st
  else mkState (conn st) (now st) (fs st) newDay (transmissionBuffer st)
               (isReceivingTransmission st) (file st)
               (transmissionStartTime st).

(** The name [createWavFile] gives the artifact at the instant [t], and
that name without its extension. *)
Definition wavPath (env : Env) (t : Z) : string :=
  filepath_Join
    (filepath_Join (filepath_Join "recordings" (format_20060102 env t))
                   (clientID env))
    ("audio_" +:+ format_150405 env t +:+ ".wav").

Definition wavStem (env : Env) (t : Z) : string :=
  filepath_Join
    (filepath_Join (filepath_Join "recordings" (format_20060102 env t))
                   (clientID env))
    ("audio_" +:+ format_150405 env t).

(** [createWavFile]: [None] is the error result.  Directories are not
part of the file system of the model: [os.MkdirAll] is the environment's
answer whether the client directory exists afterwards, and what it
creates on the way is not recorded; nor is a call of [os.Create] that
fails, which leaves every file as it is. *)
Definition createWavFile (env : Env) (st : State) : option nat * State :=
  let st1 := updateCurrentDay env st in
  let dailyDir := filepath_Join "recordings" (currentDay st1) in
  let clientDir := filepath_Join dailyDir (clientID env) in
  if negb (MkdirAll_ok env clientDir (now st1)) then (None, st1)
  else
    let filename := "audio_" +:+ format_150405 env (now st1) +:+ ".wav" in
    let path := filepath_Join clientDir filename in
    let (f, fs') := os.Create (Create_ok env path (now st1)) path (fs st1) in
    (f, with_fs st1 fs').

(** The closure [startFile]; the result is [true] when [err == nil].
The variable [file] is assigned whatever [createWavFile] returns. *)
Definition startFile (env : Env) (st : State) : bool * State :=
  let (f, st1) := createWavFile env st in
  let st2 := with_file st1 f in
  match f with
  | None => (false, st2)
  | Some fd =>
      let (ok, fs') := WriteWavHeader fd 0 (fs st2) in
      (ok, with_fs st2 fs')
  end.

(** The closure [finishCurrentFile]; errors of the header patch and of
the resample step are only logged. *)
Definition finishCurrentFile (env : Env) (st : State) : result State :=
  match file st with
  | Some fd =>
      let (_, fs1) :=
        UpdateWavHeader fd
          (wrap32 (Z.of_nat (length (transmissionBuffer st)))) (fs st) in
      let fileName := os.Name fd fs1 in
      let (_, fs2) := os.Close fd fs1 in
      match ResampleForWhisper (ffmpeg env) fileName fs2 with
      | Panic => Panic
      | Done (_, fs3) => Done (with_file (with_fs st fs3) None)
      end
  | None => Done st
  end.

(** [handleIncompleteTransmission]. *)
Definition handleIncompleteTransmission (fd : nat) (startTime : option Z)
  (st : State) : State :=
  let transmissionDuration := time.Since startTime (now st) in
  if transmissionDuration <? time.Second then
    let (_, fs1) := os.Close fd (fs st) in
    with_fs st (os.Remove (os.Name fd fs1) fs1)
  else
    let (_, fs1) := os.Close fd (fs st) in
    let newName := os.Name fd fs1 +:+ ".incomplete" in
    with_fs st (os.Rename (os.Name fd fs1) newName fs1).

(** How one turn of the [for] loop of [handleConnection] ends: with the
next turn, with a [return], or with a panic. *)
Inductive turn :=
| Continue (st : State)
| Return (st : State)
| Panicked.

(** The [select] on [ctx.Done()] that ends each turn. *)
Definition check_ctx (env : Env) (st : State) : turn :=
  if ctx_Done env (now st) then Return st else Continue st.

(** One turn of the loop. *)
Definition iteration (env : Env) (st : State) : turn :=
  match ReadFull env 4 st with
  | (inl _, st1) =>
      match isReceivingTransmission st1, file st1 with
      | true, Some fd =>
          Return (handleIncompleteTransmission fd (transmissionStartTime st1) st1)
      | _, _ => Return st1
      end
  | (inr marker, st1) =>
      let m := default 0 (binary.BigEndian_Uint32 marker) in
      if m =? 4294967295 then
        let st2 :=
          mkState (conn st1) (now st1) (fs st1) (currentDay st1) [] true
                  (file st1) (Some (now st1)) in
        let (ok, st3) := startFile env st2 in
        if ok then check_ctx env st3 else Return st3
      else if m =? 0 then
        let st2 :=
          mkState (conn st1) (now st1) (fs st1) (currentDay st1)
                  (transmissionBuffer st1) false (file st1)
                  (transmissionStartTime st1) in
        let transmissionDuration :=
          time.Since (transmissionStartTime st2) (now st2) in
        if transmissionDuration <? time.Second then
          match file st2 with
          | Some fd =>
              let (_, fs1) := os.Close fd (fs st2) in
              check_ctx env (with_fs st2 (os.Remove (os.Name fd fs1) fs1))
          | None => check_ctx env st2
          end
        else
          match finishCurrentFile env st2 with
          | Panic => Panicked
          | Done st3 => check_ctx env st3
          end
      else if isReceivingTransmission st1 then
        let chunkSize := m in
        match ReadFull env (Z.to_nat chunkSize) st1 with
        | (inl _, st2) => Return st2
        | (inr chunkData, st2) =>
            let st3 :=
              mkState (conn st2) (now st2) (fs st2) (currentDay st2)
                      (transmissionBuffer st2 ++ chunkData)
                      (isReceivingTransmission st2) (file st2)
                      (transmissionStartTime st2) in
            match file st3 with
            | Some fd =>
                let (_, fs1) := os.Write fd chunkData (fs st3) in
                check_ctx env (with_fs st3 fs1)
            | None => check_ctx env st3
            end
        end
      else check_ctx env st1
  end.

(** The deferred calls that run when [handleConnection] returns: the
file still held in [file] is closed (then the connection is closed and
the endpoint record dropped, which the model does not keep). *)
Definition deferred (st : State) : State :=
  match file st with
  | Some fd => let (_, fs1) := os.Close fd (fs st) in with_fs st fs1
  | None => st
  end.

Inductive outcome :=
| Returned (st : State)
| Crashed.

(** The loop, for at most [fuel] turns. *)
Fixpoint loop (env : Env) (fuel : nat) (st : State) : option outcome :=
  match fuel with
  | O => None
  | S k =>
      match iteration env st with
      | Continue st' => loop env k st'
      | Return st' => Some (Returned (deferred st'))
      | Panicked => Some Crashed
      end
  end.

(** [handleConnection]: the endpoint id is sent, the local variables
start at their zero values, and the loop runs.  Every turn that
continues has consumed a frame prefix, so one turn more than there are
bytes to come is enough (see [handleConnection_returns]). *)
Definition handleConnection (env : Env) (stream : list (Z * byte)) (t0 : Z)
  (fs0 : os.FS) (day : string) : option outcome :=
  let st0 := mkState stream t0 fs0 day [] false None None in
  if negb (sendClientID_ok env) then Some (Returned st0)
  else loop env (S (length stream)) st0.

(** [k] turns of the loop, as long as they continue. *)
Fixpoint iterate (env : Env) (k : nat) (st : State) : turn :=
  match k with
  | O => Continue st
  | S k' =>
      match iteration env st with
      | Continue st' => iterate env k' st'
      | r => r
      end
  end.

(** *** The peer's side of the wire

The capture endpoint writes a start marker ([sendStartTransmission]),
payload frames ([sendAudioChunk]: a prefix with the length, then the
bytes) and an end marker ([sendEndTransmission]).  [at_time t bs] is
the bytes [bs] arriving together at the instant [t]. *)
Definition at_time (t : Z) (bs : list byte) : list (Z * byte) :=
  map (pair t) bs.

Definition start_marker : list byte := binary.BigEndian_PutUint32 4294967295.
Definition end_marker : list byte := binary.BigEndian_PutUint32 0.

Definition payload_frame (payload : list byte) : list byte :=
  binary.BigEndian_PutUint32 (Z.of_nat (length payload)) ++ payload.

(** Payload frames, each with the instant it arrives. *)
Definition frames_on_wire (frames : list (Z * list byte)) : list (Z * byte) :=
  concat (map (fun f => at_time f.1 (payload_frame f.2)) frames).

(** The instant the last of the frames has arrived, not before [t]. *)
Definition frames_arrival (t : Z) (frames : list (Z * list byte)) : Z :=
  fold_left (fun t f => Z.max t f.1) frames t.

(** *** The Recording state

An utterance is in progress: the handler is receiving, [file] is an
open descriptor on the artifact [stem.wav], which is linked under that
name and holds the placeholder header followed by the payload received
so far, and the start instant is recorded. *)
Definition Recording (st : State) (fd : nat) (stem : string) (start : Z)
  : Prop :=
  isReceivingTransmission st = true /\
  file st = Some fd /\
  transmissionStartTime st = Some start /\
  exists i,
    os.dir (fs st) !! (stem +:+ ".wav") = Some i /\
    os.points (fs st) fd (stem +:+ ".wav") i
      (44 + length (transmissionBuffer st))
      (audio.container 36 0 (transmissionBuffer st)).

(** The calls of the header patch with data size [d] on descriptor [fd]. *)
Definition patch_calls (fd : nat) (d : Z) : list os.call :=
  [os.CSeek fd 4;
   os.CWrite fd (binary.LittleEndian_PutUint32 (wrap32 (d + 36)));
   os.CSeek fd 40;
   os.CWrite fd (binary.LittleEndian_PutUint32 d)].

(** The calls of the resample step on [stem.wav]: the transcoder is run,
and the input is removed when it succeeded. *)
Definition resample_calls (stem : string) (succeeded : bool) : list os.call :=
  os.CExec "ffmpeg"
    ["-i"; stem +:+ ".wav"; "-ar"; "16000"; "-ac"; "1"; "-y";
     stem +:+ "_whisper.wav"]
  :: (if succeeded then [os.CRemove (stem +:+ ".wav")] else []).

(** *** An environment for the examples

The clock starts at midnight of 23 January 2024 and the day does not
change; every directory and file creation succeeds; the transcoder
copies its input; the context is never cancelled. *)
Definition two_digits (n : Z) : string :=
  String (ascii_of_nat (48 + Z.to_nat (n / 10 mod 10)))
    (String (ascii_of_nat (48 + Z.to_nat (n mod 10))) EmptyString).

Definition clock_150405 (t : Z) : string :=
  let s := t / 1000000000 in
  two_digits (s / 3600 mod 24) +:+ two_digits (s / 60 mod 60)
  +:+ two_digits (s mod 60).

Definition example_env (closes_at : Z) : Env :=
  mkEnv "550e8400-e29b-41d4-a716-446655440000" true
        (fun _ => "20240123") clock_150405
        (fun _ _ => true) (fun _ _ => true)
        (fun data => Some data) closes_at (fun _ => false).

Definition chunk_2GiB : list byte := repeat Byte.x00 (Z.to_nat 2147483648).

(** Whether a log of calls opens every file only after the files opened
before it were settled: their descriptors closed, and their names
removed, renamed, or their headers patched.  [opened] lists the files
created so far. *)
Definition call_eqb (c1 c2 : os.call) : bool :=
  match c1, c2 with
  | os.CClose a, os.CClose b => (a =? b)%nat
  | os.CRemove a, os.CRemove b => bool_decide (a = b)
  | os.CSeek a x, os.CSeek b y => (a =? b)%nat && (x =? y)%nat
  | _, _ => false
  end.

Definition renames (name : string) (c : os.call) : bool :=
  match c with
  | os.CRename old _ => bool_decide (old = name)
  | _ => false
  end.

Definition settled (done : list os.call) (f : string * nat) : bool :=
  existsb (call_eqb (os.CClose f.2)) done
  && (existsb (call_eqb (os.CRemove f.1)) done
      || existsb (renames f.1) done
      || existsb (call_eqb (os.CSeek f.2 40)) done).

Fixpoint one_at_a_time_from (done : list os.call) (opened : list (string * nat))
  (l : list os.call) : bool :=
  match l with
  | [] => true
  | os.CCreate name fd :: l' =>
      forallb (settled done) opened
      && one_at_a_time_from (done ++ [os.CCreate name fd])
           (opened ++ [(name, fd)]) l'
  | c :: l' => one_at_a_time_from (done ++ [c]) opened l'
  end.

Definition one_at_a_time (l : list os.call) : bool :=
  one_at_a_time_from [] [] l.

(** *** The Idle state and the stream as the idle handler reads it

No utterance is in progress and no descriptor is held.  In this state
the handler reads the stream four bytes at a time: [prefixes] is the
sequence of 32-bit values it finds (bytes left over at the end, fewer
than four, are no prefix). *)
Definition Idle (st : State) : Prop :=
  file st = None /\ isReceivingTransmission st = false.

Fixpoint prefixes (stream : list (Z * byte)) : list Z :=
  match stream with
  | a :: b :: c :: d :: rest =>
      default 0 (binary.BigEndian_Uint32 [a.2; b.2; c.2; d.2]) :: prefixes rest
  | _ => []
  end.

(** The descriptor held in [file], if any, was opened under a name with
the extension [.wav]. *)
Definition file_named_wav (st : State) : Prop :=
  forall fd, file st = Some fd ->
    exists f stem,
      os.fds (fs st) !! fd = Some f /\ os.f_name f = stem +:+ ".wav".

(** *** The framing of the loop, on the bytes alone

What one turn of the loop of [handleConnection] that continues does to
the bytes still to come and to [isReceivingTransmission]: it reads a
prefix of four bytes; a start marker sets the flag, an end marker
clears it, any other prefix announces that many payload bytes, which
are read while the flag is set and left in place otherwise.  [None]: the
bytes end inside the prefix or inside the payload (see
[iteration_frame_step]).  [receiving] takes the turns one after the
other until no byte is left. *)
Definition frame_step (receiving : bool) (w : list byte)
  : option (bool * list byte) :=
  if (length w <? 4)%nat then None
  else
    let m := default 0 (binary.BigEndian_Uint32 w) in
    let rest := drop 4 w in
    if m =? 4294967295 then Some (true, rest)
    else if m =? 0 then Some (false, rest)
    else if receiving then
      if (Z.to_nat m <=? length rest)%nat
      then Some (receiving, drop (Z.to_nat m) rest)
      else None
    else Some (receiving, rest).

Fixpoint receiving (fuel : nat) (flag : bool) (w : list byte) : option bool :=
  match fuel with
  | O => None
  | S k =>
      match w with
      | [] => Some flag
      | _ =>
          match frame_step flag w with
          | Some (flag', rest) => receiving k flag' rest
          | None => None
          end
      end
  end.

(** *** The registry of endpoints and the admission of a connection *)

Record Client := mkClient {
  ID : string;
  Addr : string
}.

(** [ClientList]: the map under its lock. *)
Definition ClientList := gmap string Client.

Definition NewClientList : ClientList := ∅.
Definition Add (client : Client) (cl : ClientList) : ClientList :=
  <[ID client := client]> cl.
Definition Remove (id : string) (cl : ClientList) : ClientList :=
  delete id cl.
Definition Get (id : string) (cl : ClientList) : option Client := cl !! id.

#[global] Instance byte_eq_dec : EqDecision byte := Byte.byte_eq_dec.

(** [handleNewConnection]: the peer has to present the token before
anything else.  The id [uuid.New()] draws is [clientID env]; the record
added here is removed by the deferred call of [handleConnection], which
also runs when the handler panics.  The result is how the goroutine
ends, and the registry it leaves. *)
Definition handleNewConnection (env : Env) (token : list byte) (addr : string)
  (stream : list (Z * byte)) (t0 : Z) (fs0 : os.FS) (day : string)
  (clientList : ClientList) : option outcome * ClientList :=
  let st0 := mkState stream t0 fs0 day [] false None None in
  match ReadFull env (length token) st0 with
  | (inl _, st1) => (Some (Returned st1), clientList)
  | (inr tokenBuffer, st1) =>
      if negb (bool_decide (tokenBuffer = token)) then
        (Some (Returned st1), clientList)
      else
        let client := mkClient (clientID env) addr in
        let registered := Add client clientList in
        (handleConnection env (conn st1) (now st1) fs0 day,
         Remove (clientID env) registered)
  end.

End libaserv.

(** ** Package libascli: the capture endpoint

  The voice-activity detector and the three senders.  Amplitudes are
  [float64], the kernel's binary64 floats; a sample is an [int16], an
  integer of [Z] between -32768 and 32767.  The connection is the bytes
  written so far together with the outcomes of the writes to come (none
  listed: the write succeeds). *)

Module libascli.

Definition silenceThreshold : Z := 1 * time.Second.
Definition vadThreshold : PrimFloat.float :=
  Eval cbv in PrimFloat.div (PrimFloat.of_uint63 (Uint63.of_Z 222))
                            (PrimFloat.of_uint63 (Uint63.of_Z 100)).
Definition backgroundBufferSize : nat := 50.

(** [AudioProcessor]; the counters [totalSamples], [totalBytes] and
[logCounter], which only feed the log, are left out. *)
Record AudioProcessor := mkAudioProcessor {
  backgroundNoise : PrimFloat.float;
  backgroundBuffer : list PrimFloat.float;
  isTransmitting : bool;
  lastNoiseTime : option Z
}.

Definition NewAudioProcessor : AudioProcessor :=
  mkAudioProcessor PrimFloat.zero [] false None.

(** [conn.Write]: it succeeds, or fails because the connection is
closed ([io.EOF], broken pipe), or fails otherwise. *)
Inductive write_result := WOk | WClosed | WError.

Record Conn := mkConn {
  wire : list byte;
  faults : list write_result
}.

Definition Write (data : list byte) (c : Conn) : write_result * Conn :=
  match faults c with
  | [] => (WOk, mkConn (wire c ++ data) [])
  | WOk :: rest => (WOk, mkConn (wire c ++ data) rest)
  | r :: rest => (r, mkConn (wire c) rest)
  end.

(** [float64(n)] of a non-negative integer, and [math.Abs(float64(s))]
of a sample. *)
Definition float64 (n : Z) : PrimFloat.float :=
  PrimFloat.of_uint63 (Uint63.of_Z n).

Definition abs_sample (sample : Z) : PrimFloat.float :=
  PrimFloat.abs
    (if sample <? 0 then PrimFloat.opp (float64 (- sample))
     else float64 sample).

(** [calculateChunkAmplitude]. *)
Definition calculateChunkAmplitude (chunk : list Z) : PrimFloat.float :=
  PrimFloat.div
    (fold_left (fun total sample => PrimFloat.add total (abs_sample sample))
               chunk PrimFloat.zero)
    (float64 (Z.of_nat (length chunk))).

(** [updateBackgroundNoise]. *)
Definition updateBackgroundNoise (ap : AudioProcessor)
  (amplitude : PrimFloat.float) : AudioProcessor :=
  let buffer :=
    if (backgroundBufferSize <=? length (backgroundBuffer ap))%nat
    then drop 1 (backgroundBuffer ap)
    else backgroundBuffer ap in
  let buffer := buffer ++ [amplitude] in
  let sum := fold_left PrimFloat.add buffer PrimFloat.zero in
  mkAudioProcessor (PrimFloat.div sum (float64 (Z.of_nat (length buffer))))
                   buffer (isTransmitting ap) (lastNoiseTime ap).

(** [sendStartTransmission] and [sendEndTransmission]: a failed write is
only logged. *)
Definition sendStartTransmission (conn : Conn) : Conn :=
  (Write [Byte.xff; Byte.xff; Byte.xff; Byte.xff] conn).2.

Definition sendEndTransmission (conn : Conn) : Conn :=
  (Write [Byte.x00; Byte.x00; Byte.x00; Byte.x00] conn).2.

(** The bytes of a chunk: each sample as [uint16], little-endian. *)
Definition samples_bytes (chunk : list Z) : list byte :=
  flat_map (fun sample => binary.LittleEndian_PutUint16 (wrap16 sample)) chunk.

(** The prefix [sendAudioChunk] writes: [uint32(len(chunk)*2)],
big-endian. *)
Definition sizeBuf (chunk : list Z) : list byte :=
  binary.BigEndian_PutUint32 (wrap32 (Z.of_nat (length chunk) * 2)).

Inductive send_error := ErrCtx | ErrClosed | ErrOther.

(** [sendAudioChunk]; [None] is [nil]. *)
Definition sendAudioChunk (ctx_done : bool) (chunk : list Z) (conn : Conn)
  : option send_error * Conn :=
  if ctx_done then (Some ErrCtx, conn)
  else
    match Write (sizeBuf chunk) conn with
    | (WOk, conn1) =>
        match Write (samples_bytes chunk) conn1 with
        | (WOk, conn2) => (None, conn2)
        | (WClosed, conn2) => (Some ErrClosed, conn2)
        | (WError, conn2) => (Some ErrOther, conn2)
        end
    | (WClosed, conn1) => (Some ErrClosed, conn1)
    | (WError, conn1) => (Some ErrOther, conn1)
    end.

(** One call of [processAudioChunk]: whether the context is done at its
entry and at the entry of [sendAudioChunk], the clock, and the chunk. *)
Record Call := mkCall {
  ctx_Done : bool;
  ctx_Done_send : bool;
  now : Z;
  chunk : list Z
}.

(** [processAudioChunk].  The third component of the result is whether
the closure of the connection was signalled on [connClosed]. *)
Definition processAudioChunk (call : Call) (ap : AudioProcessor) (conn : Conn)
  : AudioProcessor * Conn * bool :=
  if ctx_Done call then (ap, conn, false)
  else
    let chunkAmplitude := calculateChunkAmplitude (chunk call) in
    let ap1 := updateBackgroundNoise ap chunkAmplitude in
    let energyRatio := PrimFloat.div chunkAmplitude (backgroundNoise ap1) in
    let isSpeech := PrimFloat.ltb vadThreshold energyRatio in
    if isSpeech then
      let ap2 :=
        mkAudioProcessor (backgroundNoise ap1) (backgroundBuffer ap1)
                         (isTransmitting ap1) (Some (now call)) in
      let (ap3, conn1) :=
        if negb (isTransmitting ap2) then
          (mkAudioProcessor (backgroundNoise ap2) (backgroundBuffer ap2) true
                            (lastNoiseTime ap2),
           sendStartTransmission conn)
        else (ap2, conn) in
      match sendAudioChunk (ctx_Done_send call) (chunk call) conn1 with
      | (Some ErrClosed, conn2) => (ap3, conn2, true)
      | (_, conn2) => (ap3, conn2, false)
      end
    else if isTransmitting ap1 then
      match sendAudioChunk (ctx_Done_send call) (chunk call) conn with
      | (Some ErrClosed, conn2) => (ap1, conn2, true)
      | (_, conn2) =>
          if silenceThreshold <? time.Since (lastNoiseTime ap1) (now call) then
            (mkAudioProcessor (backgroundNoise ap1) (backgroundBuffer ap1)
                              false (lastNoiseTime ap1),
             sendEndTransmission conn2, false)
          else (ap1, conn2, false)
      end
    else (ap1, conn, false).

(** The calls the audio callback makes, one per buffer of samples. *)
Definition process_all (calls : list Call) (ap : AudioProcessor) (conn : Conn)
  : AudioProcessor * Conn :=
  fold_left (fun s call => (processAudioChunk call s.1 s.2).1) calls (ap, conn).

(** The frame of a chunk on the wire. *)
Definition frame (chunk : list Z) : list byte :=
  sizeBuf chunk ++ samples_bytes chunk.

(** A chunk whose frame the ingest server reads as one payload frame: it
has a sample, so that its prefix is not the end marker, and fewer than
2^31 - 1, so that its prefix is the number of bytes that follow.  (The
audio callback is opened with buffers of 1024 samples.) *)
Definition valid_chunk (chunk : list Z) : Prop :=
  (0 < length chunk)%nat /\ 2 * Z.of_nat (length chunk) < 4294967295.

(** The wire as a sequence of utterances: each is a start marker, the
frames of one valid chunk or more, and an end marker; the flag says
whether the last utterance is still open. *)
Inductive utterances : bool -> list byte -> Prop :=
| utterances_none : utterances false []
| utterances_start w c :
    utterances false w -> valid_chunk c ->
    utterances true
      (w ++ [Byte.xff; Byte.xff; Byte.xff; Byte.xff] ++ frame c)
| utterances_frame w c :
    utterances true w -> valid_chunk c -> utterances true (w ++ frame c)
| utterances_end w :
    utterances true w ->
    utterances false (w ++ [Byte.x00; Byte.x00; Byte.x00; Byte.x00]).

End libascli.

(** ** Packages strings, unicode and path/filepath, as far as used

File names are byte strings ([string]); the functions that inspect them
work on their list of bytes.  Recognizer output is text: a sequence of
runes, the view under which [strings.TrimSpace] decides what is white
space (a byte that is no valid UTF-8 reads as U+FFFD, which is no white
space).  The separators the program searches for are ASCII, so searching
the runes and searching the bytes agree. *)

Module strings.

Section Generic.
Context {A : Type} `{EqDecision A}.

Fixpoint is_prefix (p s : list A) : bool :=
  match p, s with
  | [], _ => true
  | a :: p', b :: s' => bool_decide (a = b) && is_prefix p' s'
  | _ :: _, [] => false
  end.

(** [strings.HasSuffix]:
[len(s) >= len(suffix) && s[len(s)-len(suffix):] == suffix]. *)
Definition HasSuffix (s suffix : list A) : bool :=
  (length suffix <=? length s)%nat
  && bool_decide (drop (length s - length suffix) s = suffix).

(** [strings.Contains]: [substr] occurs at some position of [s]. *)
Fixpoint Contains (s substr : list A) : bool :=
  is_prefix substr s
  || match s with
     | [] => false
     | _ :: s' => Contains s' substr
     end.

(** [strings.Split(s, sep)] for a separator of one element: the pieces
between the occurrences of [sep], one more than there are occurrences. *)
Fixpoint Split (s : list A) (sep : A) : list (list A) :=
  match s with
  | [] => [[]]
  | a :: s' =>
      if decide (a = sep) then [] :: Split s' sep
      else match Split s' sep with
           | piece :: rest => (a :: piece) :: rest
           | [] => [[a]]
           end
  end.

(** [strings.Join]. *)
Fixpoint Join (elems : list (list A)) (sep : list A) : list A :=
  match elems with
  | [] => []
  | [e] => e
  | e :: rest => e ++ sep ++ Join rest sep
  end.

Fixpoint drop_while (f : A -> bool) (s : list A) : list A :=
  match s with
  | [] => []
  | a :: s' => if f a then drop_while f s' else s
  end.

(** [strings.TrimFunc]: [TrimRightFunc(TrimLeftFunc(s, f), f)]. *)
Definition TrimLeftFunc (s : list A) (f : A -> bool) : list A :=
  drop_while f s.
Definition TrimRightFunc (s : list A) (f : A -> bool) : list A :=
  rev (drop_while f (rev s)).
Definition TrimFunc (s : list A) (f : A -> bool) : list A :=
  TrimRightFunc (TrimLeftFunc s f) f.

(** A string that starts (ends) with nothing for [TrimFunc] to remove. *)
Definition starts_clean (f : A -> bool) (s : list A) : Prop :=
  match s with
  | [] => True
  | a :: _ => f a = false
  end.
Definition ends_clean (f : A -> bool) (s : list A) : Prop :=
  starts_clean f (rev s).

(** What a [strings.Builder] holds after one more piece of text, with a
separator before it unless the builder was empty. *)
Definition add_text (sep builder text : list A) : list A :=
  (if (0 <? length builder)%nat then builder ++ sep else builder) ++ text.

End Generic.

Definition rune := Z.

Definition runes (s : string) : list rune :=
  map (fun a => Z.of_nat (nat_of_ascii a)) (list_ascii_of_string s).

(** [unicode.IsSpace]: the Latin-1 white space, and beyond Latin-1 the
ranges of the White_Space property. *)
Definition IsSpace (r : rune) : bool :=
  if (0 <=? r) && (r <=? 255) then
    (r =? 9) || (r =? 10) || (r =? 11) || (r =? 12) || (r =? 13)
    || (r =? 32) || (r =? 133) || (r =? 160)
  else
    (r =? 5760) || ((8192 <=? r) && (r <=? 8202))
    || ((8232 <=? r) && (r <=? 8233)) || (r =? 8239) || (r =? 8287)
    || (r =? 12288).

(** [strings.TrimSpace]. *)
Definition TrimSpace (s : list rune) : list rune := TrimFunc s IsSpace.

(** The same functions on file names. *)
Definition bytes (s : string) : list ascii := list_ascii_of_string s.

Definition HasSuffix_s (s suffix : string) : bool :=
  HasSuffix (bytes s) (bytes suffix).
Definition Contains_s (s substr : string) : bool :=
  Contains (bytes s) (bytes substr).
Definition Split_s (s : string) (sep : ascii) : list string :=
  map string_of_list_ascii (Split (bytes s) sep).

End strings.

(** ** Package scribe: watcher, worker pool and subscription hub *)

Module scribe.

Import strings.

Record TranscriptionMessage := mkMessage {
  Timestamp : Z;
  Text : list rune;
  AudioFile : string;
  Confidence : Z
}.

Record TranscriptionJob := mkJob {
  FilePath : string;
  ClientID : string;
  JobTimestamp : Z
}.

Record WebSocketMessage := mkWS {
  Type_ : string;
  WsClientID : string;
  WsTimestamp : Z;
  Payload : TranscriptionMessage
}.

(** A buffered channel: its capacity and what it holds, oldest first. *)
Record chan (A : Type) := mkChan {
  cap : nat;
  buf : list A
}.
Arguments mkChan {A} cap buf.
Arguments cap {A} c.
Arguments buf {A} c.

(** [select { case c <- x: ... default: ... }]: the send happens when the
buffer has room, otherwise the default case runs; it never waits. *)
Definition try_send {A : Type} (c : chan A) (x : A) : bool * chan A :=
  if (length (buf c) <? cap c)%nat then (true, mkChan (cap c) (buf c ++ [x]))
  else (false, c).

Record wsConnection := mkWsConn {
  clientID : string;
  send : chan (list byte)
}.

(** The service.  [clients] and [subscribers] are the two [sync.Map]s;
[conns] is the heap of [wsConnection] records, a [*wsConnection] being an
index into it; [watched] is what was added to the watcher. *)
Record Scribe := mkScribe {
  RecordingsDir : string;
  watched : list string;
  clients : gmap string (list TranscriptionMessage);
  subscribers : gmap string (list nat);
  conns : list wsConnection;
  queue : chan TranscriptionJob
}.

(** [New] makes the job queue with room for 100 jobs. *)
Definition New (recordingsDir : string) : Scribe :=
  mkScribe recordingsDir [] ∅ ∅ [] (mkChan 100 []).

(** What the watcher and the HTTP layer take from outside: the library
functions [filepath.Rel] and [uuid.Parse] (the result is [true] when
[err == nil]), the current day as [getCurrentDateDir] formats it,
whether a name is a directory, whether the watcher accepts a name,
the clock, and whether the upgrade of a request succeeds. *)
Record Env := mkEnv {
  filepath_Rel : string -> string -> option string;
  uuid_Parse : string -> bool;
  getCurrentDateDir : string;
  IsDir : string -> bool;
  watcher_Add_ok : string -> bool;
  time_Now : Z;
  Upgrade_ok : bool
}.

Definition Create : Z := 1.

Record Event := mkEvent {
  Name : string;
  Op : Z
}.

Definition set_watched (s : Scribe) (w : list string) : Scribe :=
  mkScribe (RecordingsDir s) w (clients s) (subscribers s) (conns s) (queue s).

(** [handleNewClient]; [Some msg] is the error. *)
Definition handleNewClient (env : Env) (s : Scribe) (clientID fullPath : string)
  : option string * Scribe :=
  if negb (watcher_Add_ok env fullPath) then
    (Some "failed to watch client directory", s)
  else
    (None,
     mkScribe (RecordingsDir s) (watched s ++ [fullPath])
              (<[clientID := []]> (clients s)) (subscribers s) (conns s)
              (queue s)).

(** [handleNewAudioFile]. *)
Definition handleNewAudioFile (env : Env) (s : Scribe)
  (clientID filePath : string) : option string * Scribe :=
  let job := mkJob filePath clientID (time_Now env) in
  let (sent, q) := try_send (queue s) job in
  if sent then
    (None,
     mkScribe (RecordingsDir s) (watched s) (clients s) (subscribers s)
              (conns s) q)
  else (Some "job queue is full", s).

(** [handleFSEvent]. *)
Definition handleFSEvent (env : Env) (s : Scribe) (event : Event)
  : option string * Scribe :=
  if HasSuffix_s (Name event) ".tmp" || negb (Op event =? Create) then (None, s)
  else
    match filepath_Rel env (RecordingsDir s) (Name event) with
    | None => (Some "failed to get relative path", s)
    | Some relPath =>
        let parts := Split_s relPath "/" in
        if (length parts <? 2)%nat then (None, s)
        else if negb (bool_decide (parts !! 0%nat = Some (getCurrentDateDir env)))
        then (None, s)
        else
          let s1 :=
            if IsDir env (Name event) then
              if watcher_Add_ok env (Name event)
              then set_watched s (watched s ++ [Name event])
              else s
            else s in
          match parts with
          | [_; p1] =>
              if uuid_Parse env p1 then handleNewClient env s1 p1 (Name event)
              else (None, s1)
          | [_; p1; p2] =>
              let clientID := p1 in
              if uuid_Parse env clientID && HasSuffix_s p2 ".wav" then
                if Contains_s p2 "_whisper" then
                  handleNewAudioFile env s1 clientID (Name event)
                else (None, s1)
              else (None, s1)
          | _ => (None, s1)
          end
    end.

(** [extractText].  The loop body, on the builder: *)
Definition extractText_line (builder line : list rune) : list rune :=
  if bool_decide (TrimSpace line = []) then builder
  else if Contains line (runes "[BLANK_AUDIO]") then builder
  else
    let text := TrimSpace line in
    if bool_decide (text = []) then builder
    else
      (if (0 <? length builder)%nat then builder ++ runes " " else builder)
      ++ text.

Definition extractText (output : list rune) : list rune :=
  let lines := Split output 10 in
  TrimSpace (fold_left extractText_line lines []).

(** The transcript text as the worker is specified to extract it: split
the output on line breaks, discard the lines that are empty once trimmed
and the lines that contain [[BLANK_AUDIO]], trim each line that is
left, and join them with single spaces. *)
Definition kept_line (line : list rune) : bool :=
  negb (bool_decide (TrimSpace line = []))
  && negb (Contains line (runes "[BLANK_AUDIO]")).

Definition spec_text (output : list rune) : list rune :=
  Join (map TrimSpace (List.filter kept_line (Split output 10))) (runes " ").

(** [filepath.Base]: the last element of a path; trailing separators
are removed first; an empty path gives a dot, a path of separators
alone gives one separator. *)
Definition filepath_Base (path : string) : string :=
  if bool_decide (path = EmptyString) then "."
  else
    let stripped :=
      rev (drop_while (fun a => bool_decide (a = "/"%char)) (rev (bytes path))) in
    match stripped with
    | [] => "/"
    | _ => string_of_list_ascii (List.last (Split stripped "/"%char) [])
    end.

(** What running the recognizer gives: its standard output as text, an
exit error with its standard error, or another failure to run. *)
Inductive cmd_result :=
| Output (out : list rune)
| ExitError (stderr : string)
| OtherError.

(** What one non-blocking hand-off does to a connection. *)
Definition offered (data : list byte) (c : wsConnection) : wsConnection :=
  mkWsConn (clientID c) (try_send (send c) data).2.

(** The hand-off loop of [processJob] over the subscribers of an
endpoint: each gets one [select] with a [default] case. *)
Fixpoint notify (connections : list nat) (data : list byte)
  (cs : list wsConnection) : list wsConnection :=
  match connections with
  | [] => cs
  | p :: rest =>
      match cs !! p with
      | Some c =>
          let (_, q) := try_send (send c) data in
          notify rest data (<[p := mkWsConn (clientID c) q]> cs)
      | None => notify rest data cs
      end
  end.

(** [processJob].  [json_Marshal] is the serializer of the envelope. *)
Definition processJob (json_Marshal : WebSocketMessage -> option (list byte))
  (run : cmd_result) (s : Scribe) (job : TranscriptionJob)
  : option string * Scribe :=
  match run with
  | ExitError stderr =>
      if Contains_s stderr "input file not found" then (None, s)
      else (Some "whisper execution failed", s)
  | OtherError => (Some "whisper execution failed", s)
  | Output outputStr =>
      let text := extractText outputStr in
      if bool_decide (text = []) then (None, s)
      else
        let msg := mkMessage (JobTimestamp job) text
                             (filepath_Base (FilePath job)) 1 in
        let transcriptions := default [] (clients s !! ClientID job) in
        let clients' :=
          <[ClientID job := transcriptions ++ [msg]]> (clients s) in
        let s1 :=
          mkScribe (RecordingsDir s) (watched s) clients' (subscribers s)
                   (conns s) (queue s) in
        let wsMsg := mkWS "transcription" (ClientID job) (JobTimestamp job) msg in
        match json_Marshal wsMsg with
        | None => (Some "failed to marshal message", s1)
        | Some data =>
            match subscribers s1 !! ClientID job with
            | Some connections =>
                (None,
                 mkScribe (RecordingsDir s1) (watched s1) (clients s1)
                          (subscribers s1) (notify connections data (conns s1))
                          (queue s1))
            | None => (None, s1)
            end
        end
  end.

(** [registerSubscriber]. *)
Definition registerSubscriber (s : Scribe) (clientID : string) (wsConn : nat)
  : Scribe :=
  let connections := default [] (subscribers s !! clientID) in
  mkScribe (RecordingsDir s) (watched s) (clients s)
           (<[clientID := connections ++ [wsConn]]> (subscribers s))
           (conns s) (queue s).

(** [handleWebSocket], up to the start of the two pumps: the id is
validated, the request upgraded, and a connection with an outbound
channel of 256 slots is registered.  [None] is a refused request. *)
Definition handleWebSocket (env : Env) (s : Scribe) (clientID : string)
  : option nat * Scribe :=
  if negb (uuid_Parse env clientID) then (None, s)
  else if negb (Upgrade_ok env) then (None, s)
  else
    let wsConn := length (conns s) in
    let s1 :=
      mkScribe (RecordingsDir s) (watched s) (clients s) (subscribers s)
               (conns s ++ [mkWsConn clientID (mkChan 256 [])]) (queue s) in
    (Some wsConn, registerSubscriber s1 clientID wsConn).

(** [unregisterSubscriber]: the first occurrence of the connection is
removed; an endpoint left without subscribers is removed from the map. *)
Fixpoint remove_first (x : nat) (l : list nat) : list nat :=
  match l with
  | [] => []
  | y :: l' => if decide (y = x) then l' else y :: remove_first x l'
  end.

Definition unregisterSubscriber (s : Scribe) (clientID : string) (wsConn : nat)
  : Scribe :=
  match subscribers s !! clientID with
  | None => s
  | Some connections =>
      let connections' := remove_first wsConn connections in
      mkScribe (RecordingsDir s) (watched s) (clients s)
               (if (length connections' =? 0)%nat
                then delete clientID (subscribers s)
                else <[clientID := connections']> (subscribers s))
               (conns s) (queue s)
  end.

(** The envelope [processJob] serializes for a job and its text. *)
Definition envelope (job : TranscriptionJob) (text : list rune)
  : WebSocketMessage :=
  mkWS "transcription" (ClientID job) (JobTimestamp job)
       (mkMessage (JobTimestamp job) text (filepath_Base (FilePath job)) 1).

(** The hub is well formed when every list of subscribers names each
connection once, and each names a connection record of that endpoint
whose outbound channel has 256 slots. *)
Definition hub_wf (s : Scribe) : Prop :=
  forall (id : string) (ps : list nat),
    subscribers s !! id = Some ps ->
    NoDup ps /\
    forall p, p ∈ ps ->
      exists c, conns s !! p = Some c /\ clientID c = id /\ cap (send c) = 256%nat.

(** What a create event must satisfy for [handleFSEvent] to reach the
hand-off to the job queue: the name does not end in [.tmp]; below the
recordings root it has exactly the three components day, endpoint id and
leaf; the day is the current one; the id parses; the leaf ends in [.wav]
and contains [_whisper]. *)
Definition job_path (env : Env) (s : Scribe) (event : Event) (id : string)
  : Prop :=
  Op event = Create /\
  HasSuffix_s (Name event) ".tmp" = false /\
  exists relPath leaf,
    filepath_Rel env (RecordingsDir s) (Name event) = Some relPath /\
    Split_s relPath "/" = [getCurrentDateDir env; id; leaf] /\
    uuid_Parse env id = true /\
    HasSuffix_s leaf ".wav" = true /\
    Contains_s leaf "_whisper" = true.

(** The condition as the watcher is specified: exactly three components
below the root, the first the current day, the second a valid endpoint
id, the leaf with the [_whisper] suffix and the [.wav] extension. *)
Definition spec_job_path (env : Env) (s : Scribe) (event : Event) : Prop :=
  Op event = Create /\
  exists relPath id leaf,
    filepath_Rel env (RecordingsDir s) (Name event) = Some relPath /\
    Split_s relPath "/" = [getCurrentDateDir env; id; leaf] /\
    uuid_Parse env id = true /\
    HasSuffix_s leaf "_whisper.wav" = true.

(** A job was enqueued between two states of the service. *)
Definition enqueued (s s' : Scribe) : Prop :=
  exists job, buf (queue s') = buf (queue s) ++ [job].

(** *** Library functions for the examples

[uuid.Parse] accepts, among other forms, the canonical one: 36 bytes,
hyphens at 8, 13, 18 and 23, hexadecimal digits elsewhere.
[filepath.Rel], for a clean target below a clean base, strips the
base and the separator. *)
Definition is_hex (a : ascii) : bool :=
  let n := nat_of_ascii a in
  ((48 <=? n) && (n <=? 57) || (65 <=? n) && (n <=? 70)
   || (97 <=? n) && (n <=? 102))%nat.

Fixpoint canonical_from (i : nat) (s : list ascii) : bool :=
  match s with
  | [] => (i =? 36)%nat
  | a :: s' =>
      (if (i =? 8)%nat || (i =? 13)%nat || (i =? 18)%nat || (i =? 23)%nat
       then bool_decide (a = "-"%char) else is_hex a)
      && canonical_from (S i) s'
  end.

Definition uuid_canonical (s : string) : bool := canonical_from 0 (bytes s).

Definition Rel_below (base target : string) : option string :=
  let b := bytes base ++ ["/"%char] in
  if is_prefix b (bytes target)
  then Some (string_of_list_ascii (drop (length b) (bytes target)))
  else None.

Definition example_env (today : string) : Env :=
  mkEnv Rel_below uuid_canonical today (fun _ => false) (fun _ => true) 0 true.

(** *** The watcher loop and the worker

The loop of [watchFiles] hands every event to [handleFSEvent] and only
logs its error; each event comes with the environment of its instant.
One turn of [worker] takes the oldest job from the queue and hands it to
[processJob], whose error is only logged; [None] is the worker waiting
at an empty queue.  [run] is the recognizer on the job's file. *)
Definition watch_events (events : list (Env * Event)) (s : Scribe) : Scribe :=
  fold_left (fun s e => (handleFSEvent e.1 s e.2).2) events s.

Definition worker_step (json_Marshal : WebSocketMessage -> option (list byte))
  (run : TranscriptionJob -> cmd_result) (s : Scribe) : option Scribe :=
  match buf (queue s) with
  | [] => None
  | job :: rest =>
      let s1 :=
        mkScribe (RecordingsDir s) (watched s) (clients s) (subscribers s)
                 (conns s) (mkChan (cap (queue s)) rest) in
      Some (processJob json_Marshal (run job) s1 job).2
  end.

(** *** The query handlers

[day] is [Timestamp.Format] with the layout [20060102].  The loops of
[handleGetClient] and [handleListClients] walk the messages of an
endpoint from the newest to the oldest and stop at the first one of the
current day. *)
Definition most_recent_today (day : Z -> string) (today : string)
  (messages : list TranscriptionMessage) : option TranscriptionMessage :=
  find (fun m => bool_decide (day (Timestamp m) = today)) (rev messages).

Inductive response (A : Type) :=
| NotFound (msg : string)
| OK (body : A).
Arguments NotFound {A} msg.
Arguments OK {A} body.

Definition handleGetClient (env : Env) (day : Z -> string) (s : Scribe)
  (clientID : string) : response TranscriptionMessage :=
  match clients s !! clientID with
  | None => NotFound "Client not found"
  | Some messages =>
      match most_recent_today day (getCurrentDateDir env) messages with
      | None => NotFound "No messages for today"
      | Some m => OK m
      end
  end.

Definition handleGetHistory (env : Env) (day : Z -> string) (s : Scribe)
  (clientID : string) : response (list TranscriptionMessage) :=
  match clients s !! clientID with
  | None => NotFound "Client not found"
  | Some messages =>
      OK (List.filter
            (fun m => bool_decide (day (Timestamp m) = getCurrentDateDir env))
            messages)
  end.

(** [handleListClients]: every endpoint of the map is listed; [None]
stands for the zero message [TranscriptionMessage{}] of an endpoint
without a message of the current day. *)
Definition handleListClients (env : Env) (day : Z -> string) (s : Scribe)
  : gmap string (option TranscriptionMessage) :=
  most_recent_today day (getCurrentDateDir env) <$> clients s.

(** *** The service at run time

One step of the running service: the watcher handles an event, a worker
takes a job, a subscription is requested, or a read pump ends and drops
its subscription. *)
Inductive step : Scribe -> Scribe -> Prop :=
| step_event env ev s :
    step s (handleFSEvent env s ev).2
| step_worker json_Marshal run s s' :
    worker_step json_Marshal run s = Some s' -> step s s'
| step_subscribe env clientID s :
    step s (handleWebSocket env s clientID).2
| step_unsubscribe clientID wsConn s :
    step s (unregisterSubscriber s clientID wsConn).

(** What the states of the running service are shown to satisfy: the hub
is well formed, no endpoint is listed without a subscriber, the job
queue has its 100 slots and holds no more, and the recordings root is
the one the service was made with. *)
Definition service_inv (dir : string) (s : Scribe) : Prop :=
  hub_wf s /\
  (forall id ps, subscribers s !! id = Some ps -> ps <> []) /\
  cap (queue s) = 100%nat /\
  (length (buf (queue s)) <= 100)%nat /\
  RecordingsDir s = dir.

End scribe.

(** * Properties *)

(** ** Bytes and byte order *)

Lemma Z_of_byte_of_Z z : Z_of_byte (byte_of_Z z) = z mod 256.
Proof.
  unfold Z_of_byte, byte_of_Z.
  assert (Hr : 0 <= z mod 256 < 256) by (apply Z.mod_pos_bound; lia).
  destruct (Byte.of_N (Z.to_N (z mod 256))) as [b|] eqn:E.
  - apply Byte.to_of_N in E. rewrite E. apply Z2N.id. lia.
  - apply Byte.of_N_None_iff in E. lia.
Qed.

Lemma Z_of_byte_range b : 0 <= Z_of_byte b < 256.
Proof. unfold Z_of_byte. pose proof (Byte.to_N_bounded b). lia. Qed.

(** Or-ing a value shifted past [a] onto [a] adds it. *)
Lemma lor_shiftl_add a b n :
  0 <= n -> 0 <= a < 2 ^ n -> Z.lor a (Z.shiftl b n) = a + b * 2 ^ n.
Proof.
  intros Hn Ha.
  rewrite <- Z.shiftl_mul_pow2 by lia.
  symmetry. apply Z.add_nocarry_lor.
  apply Z.bits_inj'. intros k Hk.
  rewrite Z.land_spec, Z.bits_0.
  destruct (Z.lt_ge_cases k n) as [Hlt|Hge].
  - rewrite (Z.shiftl_spec_low b n k) by lia. apply andb_false_r.
  - replace (Z.testbit a k) with false; [reflexivity|].
    symmetry. destruct (Z.eq_dec a 0) as [->|Hne]; [apply Z.bits_0|].
    apply Z.bits_above_log2; [lia|].
    apply Z.lt_le_trans with n; [|lia].
    apply Z.log2_lt_pow2; lia.
Qed.

Lemma four_bytes_value b0 b1 b2 b3 :
  Z.lor (Z.lor (Z.lor (Z_of_byte b0) (Z.shiftl (Z_of_byte b1) 8))
               (Z.shiftl (Z_of_byte b2) 16)) (Z.shiftl (Z_of_byte b3) 24)
  = Z_of_byte b0 + Z_of_byte b1 * 2 ^ 8 + Z_of_byte b2 * 2 ^ 16
    + Z_of_byte b3 * 2 ^ 24.
Proof.
  pose proof (Z_of_byte_range b0). pose proof (Z_of_byte_range b1).
  pose proof (Z_of_byte_range b2). pose proof (Z_of_byte_range b3).
  rewrite (lor_shiftl_add _ _ 8) by lia.
  rewrite (lor_shiftl_add _ _ 16) by lia.
  rewrite (lor_shiftl_add _ _ 24) by lia.
  reflexivity.
Qed.

Lemma LittleEndian_roundtrip v :
  0 <= v < 2 ^ 32 ->
  binary.LittleEndian_Uint32 (binary.LittleEndian_PutUint32 v ) = Some v.
Proof.
  intros Hv. unfold binary.LittleEndian_Uint32, binary.LittleEndian_PutUint32.
  f_equal. rewrite four_bytes_value, !Z_of_byte_of_Z.
  rewrite !Z.shiftr_div_pow2 by lia.
  change (2 ^ 8) with 256. change (2 ^ 16) with 65536.
  change (2 ^ 24) with 16777216. change (2 ^ 32) with 4294967296 in Hv.
  Z.to_euclidean_division_equations. lia.
Qed.

Lemma BigEndian_roundtrip v :
  0 <= v < 2 ^ 32 ->
  binary.BigEndian_Uint32 (binary.BigEndian_PutUint32 v) = Some v.
Proof.
  intros Hv. unfold binary.BigEndian_Uint32, binary.BigEndian_PutUint32.
  f_equal. rewrite four_bytes_value, !Z_of_byte_of_Z.
  rewrite !Z.shiftr_div_pow2 by lia.
  change (2 ^ 8) with 256. change (2 ^ 16) with 65536.
  change (2 ^ 24) with 16777216. change (2 ^ 32) with 4294967296 in Hv.
  Z.to_euclidean_division_equations. lia.
Qed.

Lemma wrap32_range z : 0 <= wrap32 z < 2 ^ 32.
Proof. unfold wrap32. apply Z.mod_pos_bound. lia. Qed.

Lemma wrap32_small z : 0 <= z < 2 ^ 32 -> wrap32 z = z.
Proof. intros. unfold wrap32. apply Z.mod_small. lia. Qed.

(** ** The file system *)

Lemma wf_empty : os.wf os.empty.
Proof.
  split; intros ? ? H; cbn in H.
  - rewrite lookup_empty in H. discriminate.
  - discriminate.
Qed.

Lemma Create_points fs name fd fs' :
  os.wf fs -> os.Create true name fs = (Some fd, fs') ->
  fd = length (os.fds fs) /\
  os.wf fs' /\
  os.log fs' = os.log fs ++ [os.CCreate name fd] /\
  exists i, os.dir fs' !! name = Some i /\ os.points fs' fd name i 0 [].
Proof.
  intros [Hd Hf] H. unfold os.Create in H.
  destruct (os.dir fs !! name) as [i|] eqn:E; inversion H; subst; clear H.
  - split; [reflexivity|]. pose proof (Hd _ _ E) as Hi.
    split; [|split; [reflexivity|exists i; split; [exact E|]]].
    + split; cbn; intros.
      * rewrite length_insert. eauto.
      * rewrite length_insert.
        apply lookup_app_Some in H as [H|[_ H]]; [eauto|].
        apply list_lookup_singleton_Some in H as [_ <-]. exact Hi.
    + split; cbn.
      * rewrite lookup_app_r by lia. rewrite Nat.sub_diag. reflexivity.
      * apply list_lookup_insert_eq. exact Hi.
  - split; [reflexivity|].
    split; [|split; [reflexivity|exists (length (os.inodes fs)); split]].
    + split; cbn; intros.
      * rewrite length_app. cbn.
        destruct (decide (name = n)) as [->|Hne].
        -- rewrite lookup_insert_eq in H. inversion H. lia.
        -- rewrite lookup_insert_ne in H by exact Hne. apply Hd in H. lia.
      * rewrite length_app. cbn.
        apply lookup_app_Some in H as [H|[_ H]]; [apply Hf in H; lia|].
        apply list_lookup_singleton_Some in H as [_ <-]. cbn. lia.
    + cbn. apply lookup_insert_eq.
    + split; cbn.
      * rewrite lookup_app_r by lia. rewrite Nat.sub_diag. reflexivity.
      * rewrite lookup_app_r by lia. rewrite Nat.sub_diag. reflexivity.
Qed.

Lemma Write_points fs fd n i off c data :
  os.points fs fd n i off c ->
  exists fs',
    os.Write fd data fs = (true, fs') /\
    os.points fs' fd n i (off + length data) (os.write_at c off data) /\
    os.dir fs' = os.dir fs /\
    os.log fs' = os.log fs ++ [os.CWrite fd data].
Proof.
  intros [Hfd Hi]. unfold os.Write. rewrite Hfd. cbn. rewrite Hi. cbn.
  eexists. split; [reflexivity|]. split; [|split; reflexivity].
  split; cbn.
  - apply list_lookup_insert_eq. eapply lookup_lt_Some; eauto.
  - apply list_lookup_insert_eq. eapply lookup_lt_Some; eauto.
Qed.

Lemma Seek_points fs fd n i off c off' :
  os.points fs fd n i off c ->
  exists fs',
    os.Seek fd off' fs = (true, fs') /\
    os.points fs' fd n i off' c /\
    os.dir fs' = os.dir fs /\
    os.log fs' = os.log fs ++ [os.CSeek fd off'].
Proof.
  intros [Hfd Hi]. unfold os.Seek. rewrite Hfd. cbn.
  eexists. split; [reflexivity|]. split; [|split; reflexivity].
  split; cbn.
  - apply list_lookup_insert_eq. eapply lookup_lt_Some; eauto.
  - exact Hi.
Qed.

Lemma Close_points fs fd n i off c :
  os.points fs fd n i off c ->
  exists fs',
    os.Close fd fs = (true, fs') /\
    os.fds fs' !! fd = Some (os.mkFile n i off true) /\
    os.inodes fs' = os.inodes fs /\
    os.dir fs' = os.dir fs /\
    os.log fs' = os.log fs ++ [os.CClose fd].
Proof.
  intros [Hfd Hi]. unfold os.Close. rewrite Hfd. cbn.
  eexists. split; [reflexivity|]. cbn.
  split; [|repeat split].
  apply list_lookup_insert_eq. eapply lookup_lt_Some; eauto.
Qed.

Lemma points_content fs fd n i off c :
  os.points fs fd n i off c -> os.dir fs !! n = Some i ->
  os.content n fs = Some c.
Proof. intros [_ Hi] Hd. unfold os.content. rewrite Hd. exact Hi. Qed.

Lemma points_Name fs fd n i off c :
  os.points fs fd n i off c -> os.Name fd fs = n.
Proof. intros [Hfd _]. unfold os.Name. rewrite Hfd. reflexivity. Qed.

(** ** The audio container *)

(** The 44 bytes [WriteWavHeader] sends. *)
Lemma encode_header d0 :
  audio.encode (audio.header d0)
  = bytes_of_string "RIFF"
    ++ binary.LittleEndian_PutUint32 (wrap32 (d0 + 36))
    ++ bytes_of_string "WAVEfmt "
    ++ binary.LittleEndian_PutUint32 16
    ++ binary.LittleEndian_PutUint16 1
    ++ binary.LittleEndian_PutUint16 1
    ++ binary.LittleEndian_PutUint32 44100
    ++ binary.LittleEndian_PutUint32 88200
    ++ binary.LittleEndian_PutUint16 2
    ++ binary.LittleEndian_PutUint16 16
    ++ bytes_of_string "data"
    ++ binary.LittleEndian_PutUint32 d0.
Proof. reflexivity. Qed.

Lemma UpdateWavHeader_points fs fd n i off c d :
  os.points fs fd n i off c ->
  exists fs',
    audio.UpdateWavHeader fd d fs = (true, fs') /\
    os.points fs' fd n i 44
      (os.write_at
         (os.write_at c 4 (binary.LittleEndian_PutUint32 (wrap32 (d + 36))))
         40 (binary.LittleEndian_PutUint32 d)) /\
    os.dir fs' = os.dir fs /\
    os.log fs' = os.log fs
      ++ [os.CSeek fd 4;
          os.CWrite fd (binary.LittleEndian_PutUint32 (wrap32 (d + 36)));
          os.CSeek fd 40;
          os.CWrite fd (binary.LittleEndian_PutUint32 d)].
Proof.
  intros H. unfold audio.UpdateWavHeader.
  destruct (Seek_points _ _ _ _ _ _ 4%nat H) as (fs1 & -> & H1 & D1 & L1).
  cbn [negb].
  destruct (Write_points _ _ _ _ _ _
              (binary.LittleEndian_PutUint32 (wrap32 (d + 36))) H1)
    as (fs2 & -> & H2 & D2 & L2).
  cbn [negb].
  destruct (Seek_points _ _ _ _ _ _ 40%nat H2) as (fs3 & -> & H3 & D3 & L3).
  cbn [negb].
  destruct (Write_points _ _ _ _ _ _ (binary.LittleEndian_PutUint32 d) H3)
    as (fs4 & -> & H4 & D4 & L4).
  cbn [negb].
  exists fs4. split; [reflexivity|]. split; [exact H4|]. split.
  - congruence.
  - rewrite L4, L3, L2, L1. rewrite <- !app_assoc. reflexivity.
Qed.

(** What the file holds after the placeholder header, the payload and
the patch, whatever the placeholder said. *)
Lemma patch_of_container t0 d0 t d payload :
  os.write_at
    (os.write_at (audio.container t0 d0 payload) 4
       (binary.LittleEndian_PutUint32 t))
    40 (binary.LittleEndian_PutUint32 d)
  = audio.container t d payload.
Proof. reflexivity. Qed.

Lemma container_fields t d payload :
  0 <= t < 2 ^ 32 -> 0 <= d < 2 ^ 32 ->
  binary.LittleEndian_Uint32 (drop 4 (audio.container t d payload)) = Some t /\
  binary.LittleEndian_Uint32 (drop 40 (audio.container t d payload)) = Some d /\
  drop 44 (audio.container t d payload) = payload.
Proof.
  intros Ht Hd. split; [|split].
  - exact (LittleEndian_roundtrip t Ht).
  - exact (LittleEndian_roundtrip d Hd).
  - reflexivity.
Qed.

(** Two containers differ at most in the two size fields. *)
Lemma container_same_elsewhere t0 d0 t d payload (k : nat) :
  ~ (4 <= k < 8)%nat -> ~ (40 <= k < 44)%nat ->
  audio.container t d payload !! k = audio.container t0 d0 payload !! k.
Proof.
  intros H1 H2.
  do 44 (destruct k as [|k]; [first [reflexivity | exfalso; lia]|]).
  reflexivity.
Qed.

Lemma write_at_end (old data : list byte) :
  os.write_at old (0 + length old) data = old ++ data.
Proof.
  unfold os.write_at. cbn [Nat.add].
  rewrite firstn_all, Nat.sub_diag, drop_ge by lia.
  cbn. rewrite app_nil_r. reflexivity.
Qed.

(** C4 (as amended).  Creating a file, writing the container header,
appending the payload and patching the header with a data size [d]
below 2^32 leaves the container of the interface description: its
total-size field at offset 4 holds [d + 36] reduced modulo 2^32 (so
[d + 36] itself whenever that is below 2^32), its data-size field at
offset 40 holds [d], every other byte of the descriptor is as the
initial write left it, and the payload from offset 44 on is the payload
that was appended. *)
Theorem patched_header_fields
  (fs0 fs1 fs2 fs3 fs4 : os.FS) (name : string) (fd : nat)
  (d0 d : Z) (payload : list byte) (ok1 ok2 ok3 : bool) :
  os.wf fs0 ->
  0 <= d < 2 ^ 32 ->
  os.Create true name fs0 = (Some fd, fs1) ->
  audio.WriteWavHeader fd d0 fs1 = (ok1, fs2) ->
  os.Write fd payload fs2 = (ok2, fs3) ->
  audio.UpdateWavHeader fd d fs3 = (ok3, fs4) ->
  ok1 = true /\ ok2 = true /\ ok3 = true /\
  exists before after : list byte,
    os.content name fs3 = Some before /\
    os.content name fs4 = Some after /\
    after = audio.container (wrap32 (d + 36)) d payload /\
    binary.LittleEndian_Uint32 (drop 4 after) = Some (wrap32 (d + 36)) /\
    (d + 36 < 2 ^ 32 ->
     binary.LittleEndian_Uint32 (drop 4 after) = Some (d + 36)) /\
    binary.LittleEndian_Uint32 (drop 40 after) = Some d /\
    (forall k : nat, ~ (4 <= k < 8)%nat -> ~ (40 <= k < 44)%nat ->
                     after !! k = before !! k) /\
    drop 44 after = payload /\
    drop 44 before = payload.
Proof.
  intros Hwf Hd HC HW HP HU.
  destruct (Create_points _ _ _ _ Hwf HC) as (_ & _ & _ & i & Hdir & P1).
  unfold audio.WriteWavHeader in HW.
  destruct (Write_points _ _ _ _ _ _ (audio.encode (audio.header d0)) P1)
    as (fs2' & E2 & P2 & D2 & _).
  rewrite E2 in HW. inversion HW; subst ok1 fs2'; clear HW.
  destruct (Write_points _ _ _ _ _ _ payload P2) as (fs3' & E3 & P3 & D3 & _).
  rewrite E3 in HP. inversion HP; subst ok2 fs3'; clear HP.
  destruct (UpdateWavHeader_points _ _ _ _ _ _ d P3) as (fs4' & E4 & P4 & D4 & _).
  rewrite E4 in HU. inversion HU; subst ok3 fs4'; clear HU.
  repeat (split; [reflexivity|]).
  assert (Hbefore :
    os.write_at (os.write_at [] 0 (audio.encode (audio.header d0)))
      (0 + length (audio.encode (audio.header d0))) payload
    = audio.container (wrap32 (d0 + 36)) d0 payload).
  { change (os.write_at [] 0 (audio.encode (audio.header d0)))
      with (audio.encode (audio.header d0)).
    rewrite (write_at_end (audio.encode (audio.header d0)) payload).
    reflexivity. }
  rewrite Hbefore in P3, P4. rewrite patch_of_container in P4.
  exists (audio.container (wrap32 (d0 + 36)) d0 payload),
         (audio.container (wrap32 (d + 36)) d payload).
  pose proof (wrap32_range (d + 36)) as Ht.
  destruct (container_fields _ _ payload Ht Hd) as (F4 & F40 & F44).
  split; [eapply points_content; [exact P3|congruence]|].
  split; [eapply points_content; [exact P4|congruence]|].
  split; [reflexivity|].
  split; [exact F4|].
  split; [intros Hsmall; rewrite F4, wrap32_small by lia; reflexivity|].
  split; [exact F40|].
  split; [intros k; apply container_same_elsewhere|].
  split; reflexivity.
Qed.

(** The theorem at work: a payload of four bytes, patched with 4. *)
Lemma patched_header_fields_witness :
  let payload := [Byte.x00; Byte.x01; Byte.x00; Byte.x02] in
  let fs1 := (os.Create true "audio_120000.wav" os.empty).2 in
  let fs2 := (audio.WriteWavHeader 0 0 fs1).2 in
  let fs3 := (os.Write 0 payload fs2).2 in
  let fs4 := (audio.UpdateWavHeader 0 4 fs3).2 in
  exists after : list byte,
    os.content "audio_120000.wav" fs4 = Some after /\
    binary.LittleEndian_Uint32 (drop 4 after) = Some 40 /\
    binary.LittleEndian_Uint32 (drop 40 after) = Some 4 /\
    drop 44 after = payload.
Proof.
  intros payload fs1 fs2 fs3 fs4.
  destruct (patched_header_fields os.empty fs1 fs2 fs3 fs4
              "audio_120000.wav" 0 0 4 payload true true true
              wf_empty ltac:(lia) eq_refl eq_refl eq_refl eq_refl)
    as (_ & _ & _ & before & after & Hb & Ha & _ & _ & H4 & H40 & _ & Hp & _).
  exists after.
  split; [exact Ha|].
  split; [apply H4; lia|]. split; [exact H40|exact Hp].
Defined.

(** C4 as stated fails at the largest data size: patched with
[d = 4294967295] the total-size field reads 35, not [d + 36]. *)
Lemma total_size_field_wraps :
  let d := 4294967295 in
  let fs1 := (os.Create true "audio_120000.wav" os.empty).2 in
  let fs2 := (audio.WriteWavHeader 0 0 fs1).2 in
  let fs4 := (audio.UpdateWavHeader 0 d fs2).2 in
  (os.content "audio_120000.wav" fs4
     ≫= fun c => binary.LittleEndian_Uint32 (drop 4 c)) = Some 35
  /\ 35 <> d + 36.
Proof. split; [vm_compute; reflexivity|discriminate]. Qed.

(** ** The resample invoker *)

Lemma length_append (s1 s2 : string) :
  String.length (s1 +:+ s2) = (String.length s1 + String.length s2)%nat.
Proof.
  induction s1 as [|a s1 IH]; [reflexivity|].
  change (S (String.length (s1 +:+ s2))
          = S (String.length s1 + String.length s2)).
  f_equal. exact IH.
Qed.

Lemma substring_append (s1 s2 : string) :
  substring 0 (String.length s1) (s1 +:+ s2) = s1.
Proof.
  induction s1 as [|a s1 IH].
  - destruct s2; reflexivity.
  - change (String a (substring 0 (String.length s1) (s1 +:+ s2)) = String a s1).
    f_equal. exact IH.
Qed.

Lemma outputPath_wav (stem : string) :
  audio.outputPath (stem +:+ ".wav") = Some (stem +:+ "_whisper.wav").
Proof.
  unfold audio.outputPath. rewrite length_append. cbn [String.length].
  destruct (Nat.ltb_spec (String.length stem + 4) 4) as [H|H]; [lia|].
  replace (String.length stem + 4 - 4)%nat with (String.length stem) by lia.
  rewrite substring_append. reflexivity.
Qed.

(** C10.  The output path of the resample invoker is the input path
without its last four bytes, followed by [_whisper.wav]: for an input
path [stem.wav] it is the sibling [stem_whisper.wav], and the transcoder
is run with exactly that output argument; for an input path of fewer
than four bytes the slice is out of bounds and the invoker panics; for
every path of at least four bytes it does not. *)
Theorem ResampleForWhisper_output_path :
  (forall stem : string,
     audio.outputPath (stem +:+ ".wav") = Some (stem +:+ "_whisper.wav")) /\
  (forall ffmpeg (stem : string) (fs : os.FS),
     exists ok fs',
       audio.ResampleForWhisper ffmpeg (stem +:+ ".wav") fs = audio.Done (ok, fs') /\
       In (os.CExec "ffmpeg"
             ["-i"; stem +:+ ".wav"; "-ar"; "16000"; "-ac"; "1"; "-y";
              stem +:+ "_whisper.wav"]) (os.log fs')) /\
  (forall ffmpeg (p : string) (fs : os.FS),
     (String.length p < 4)%nat ->
     audio.outputPath p = None /\
     audio.ResampleForWhisper ffmpeg p fs = audio.Panic) /\
  (forall ffmpeg (p : string) (fs : os.FS),
     (4 <= String.length p)%nat ->
     audio.outputPath p
     = Some (substring 0 (String.length p - 4) p +:+ "_whisper.wav") /\
     audio.ResampleForWhisper ffmpeg p fs <> audio.Panic).
Proof.
  split; [exact outputPath_wav|]. split; [|split].
  - intros ffmpeg stem fs. unfold audio.ResampleForWhisper.
    rewrite outputPath_wav.
    destruct (os.content _ _ ≫= ffmpeg) as [data|]; eexists _, _;
      (split; [reflexivity|]); cbn; rewrite ?in_app_iff; cbn; tauto.
  - intros ffmpeg p fs H.
    assert (E : audio.outputPath p = None).
    { unfold audio.outputPath.
      destruct (Nat.ltb_spec (String.length p) 4); [reflexivity|lia]. }
    split; [exact E|]. unfold audio.ResampleForWhisper. rewrite E. reflexivity.
  - intros ffmpeg p fs H.
    assert (E : audio.outputPath p
                = Some (substring 0 (String.length p - 4) p +:+ "_whisper.wav")).
    { unfold audio.outputPath.
      destruct (Nat.ltb_spec (String.length p) 4); [lia|reflexivity]. }
    split; [exact E|]. unfold audio.ResampleForWhisper. rewrite E.
    destruct (os.content _ _ ≫= ffmpeg); discriminate.
Qed.

(** The theorem at work on [a.wav], on the three-byte path [wav], and on
a four-byte path without the extension. *)
Lemma ResampleForWhisper_output_path_witness :
  audio.outputPath "a.wav" = Some "a_whisper.wav" /\
  audio.ResampleForWhisper (fun _ => None) "wav" os.empty = audio.Panic /\
  audio.outputPath "abcd" = Some "_whisper.wav".
Proof.
  destruct ResampleForWhisper_output_path as (H1 & _ & H3 & H4).
  split; [exact (H1 "a")|]. split.
  - apply (H3 (fun _ => None) "wav" os.empty). cbn. lia.
  - apply (H4 (fun _ => None) "abcd" os.empty). cbn. lia.
Defined.

(** ** Trimming and joining *)

Section Trim.
Context {A : Type} `{EqDecision A} (f : A -> bool).

Lemma drop_while_clean s : strings.starts_clean f (strings.drop_while f s).
Proof.
  induction s as [|a s IH]; cbn; [exact I|].
  destruct (f a) eqn:E; [exact IH|exact E].
Qed.

Lemma drop_while_id s :
  strings.starts_clean f s -> strings.drop_while f s = s.
Proof. destruct s as [|a s]; cbn; [reflexivity|]. intros ->. reflexivity. Qed.

Lemma drop_while_suffix s : exists p, s = p ++ strings.drop_while f s.
Proof.
  induction s as [|a s [p IH]]; cbn; [exists []; reflexivity|].
  destruct (f a); [exists (a :: p); cbn; f_equal; exact IH|exists []; reflexivity].
Qed.

Lemma starts_clean_app s t :
  s <> [] -> strings.starts_clean f s -> strings.starts_clean f (s ++ t).
Proof. destruct s; [congruence|]. intros _ H. exact H. Qed.

Lemma ends_clean_app s t :
  t <> [] -> strings.ends_clean f t -> strings.ends_clean f (s ++ t).
Proof.
  unfold strings.ends_clean. intros Hne H. rewrite rev_app_distr.
  apply starts_clean_app; [|exact H].
  intros E. apply Hne. rewrite <- (rev_involutive t), E. reflexivity.
Qed.

Lemma starts_clean_prefix s t :
  s <> [] -> strings.starts_clean f (s ++ t) -> strings.starts_clean f s.
Proof. destruct s; [congruence|]. intros _ H. exact H. Qed.

Lemma TrimFunc_clean s :
  strings.starts_clean f (strings.TrimFunc s f) /\ strings.ends_clean f (strings.TrimFunc s f).
Proof.
  unfold strings.TrimFunc, strings.TrimRightFunc, strings.TrimLeftFunc.
  set (m := strings.drop_while f s). split.
  - destruct (drop_while_suffix (rev m)) as [p Hp].
    destruct (rev (strings.drop_while f (rev m))) as [|a r] eqn:E; [exact I|].
    apply (starts_clean_prefix (a :: r) (rev p)); [discriminate|].
    rewrite <- E, <- rev_app_distr, <- Hp, rev_involutive.
    apply drop_while_clean.
  - unfold strings.ends_clean. rewrite rev_involutive. apply drop_while_clean.
Qed.

Lemma TrimFunc_id s :
  strings.starts_clean f s -> strings.ends_clean f s ->
  strings.TrimFunc s f = s.
Proof.
  intros H1 H2.
  unfold strings.TrimFunc, strings.TrimRightFunc, strings.TrimLeftFunc.
  rewrite (drop_while_id s H1), (drop_while_id (rev s) H2).
  apply rev_involutive.
Qed.

(** Joining strings that are not empty and have nothing to trim gives
such a string, whatever the separator. *)
Lemma Join_clean (texts : list (list A)) (sep : list A) :
  texts <> [] ->
  Forall (fun t => t <> [] /\ strings.starts_clean f t /\ strings.ends_clean f t) texts ->
  strings.Join texts sep <> [] /\
  strings.starts_clean f (strings.Join texts sep) /\ strings.ends_clean f (strings.Join texts sep).
Proof.
  induction texts as [|t ts IH]; [congruence|].
  intros _ Hall. inversion Hall as [|? ? (Hne & Hs & He) Hts]; subst.
  destruct ts as [|u us]; [cbn; auto|].
  destruct (IH ltac:(discriminate) Hts) as (Jne & Js & Je).
  change (strings.Join (t :: u :: us) sep)
    with (t ++ sep ++ strings.Join (u :: us) sep).
  split; [|split].
  - destruct t; [congruence|discriminate].
  - apply starts_clean_app; assumption.
  - rewrite app_assoc. apply ends_clean_app; assumption.
Qed.

Lemma fold_add_text (sep : list A) (texts : list (list A)) (b : list A) :
  b <> [] -> Forall (fun t => t <> []) texts ->
  fold_left (strings.add_text sep) texts b = strings.Join (b :: texts) sep.
Proof.
  revert b. induction texts as [|t ts IH]; intros b Hb Hall; [reflexivity|].
  inversion Hall as [|? ? Ht Hts]; subst. cbn [fold_left].
  assert (E : strings.add_text sep b t = b ++ sep ++ t).
  { unfold strings.add_text. destruct b; [congruence|]. cbn. rewrite <- app_assoc.
    reflexivity. }
  rewrite E, IH; [|destruct b; [congruence|discriminate]|exact Hts].
  destruct ts as [|u us]; cbn; [reflexivity|].
  rewrite <- !app_assoc. reflexivity.
Qed.

Lemma fold_add_text_nil (sep : list A) (texts : list (list A)) :
  Forall (fun t => t <> []) texts ->
  fold_left (strings.add_text sep) texts [] = strings.Join texts sep.
Proof.
  destruct texts as [|t ts]; [reflexivity|].
  intros Hall. inversion Hall as [|? ? Ht Hts]; subst.
  cbn [fold_left]. change (strings.add_text sep [] t) with t.
  apply fold_add_text; assumption.
Qed.

End Trim.

(** ** The transcript text *)

Lemma extractText_line_kept (b line : list strings.rune) :
  scribe.extractText_line b line
  = if scribe.kept_line line
    then strings.add_text (strings.runes " ") b (strings.TrimSpace line)
    else b.
Proof.
  unfold scribe.extractText_line, scribe.kept_line, strings.add_text.
  destruct (bool_decide (strings.TrimSpace line = [])) eqn:E; [reflexivity|].
  destruct (strings.Contains line (strings.runes "[BLANK_AUDIO]"));
    reflexivity.
Qed.

Lemma fold_extractText_line (lines : list (list strings.rune)) b :
  fold_left scribe.extractText_line lines b
  = fold_left (strings.add_text (strings.runes " "))
      (map strings.TrimSpace (List.filter scribe.kept_line lines)) b.
Proof.
  revert b. induction lines as [|l ls IH]; intros b; [reflexivity|].
  cbn [fold_left List.filter]. rewrite extractText_line_kept.
  destruct (scribe.kept_line l); [cbn [map fold_left]|]; apply IH.
Qed.

Lemma kept_texts_clean (lines : list (list strings.rune)) :
  Forall (fun t => t <> [] /\ strings.starts_clean strings.IsSpace t
                   /\ strings.ends_clean strings.IsSpace t)
    (map strings.TrimSpace (List.filter scribe.kept_line lines)).
Proof.
  apply List.Forall_forall. intros t Ht.
  apply in_map_iff in Ht as (l & <- & Hl).
  apply filter_In in Hl as [_ Hk].
  unfold scribe.kept_line in Hk. apply andb_true_iff in Hk as [Hk _].
  apply negb_true_iff, bool_decide_eq_false in Hk.
  split; [exact Hk|]. apply TrimFunc_clean.
Qed.

(** The final [TrimSpace] of [extractText] has nothing to trim: the text
is the specified one. *)
Lemma extractText_spec_text (output : list strings.rune) :
  scribe.extractText output = scribe.spec_text output.
Proof.
  unfold scribe.extractText, scribe.spec_text.
  rewrite fold_extractText_line.
  set (texts := map strings.TrimSpace
                  (List.filter scribe.kept_line (strings.Split output 10))).
  pose proof (kept_texts_clean (strings.Split output 10)) as Hclean.
  fold texts in Hclean.
  rewrite fold_add_text_nil
    by (eapply Forall_impl; [exact Hclean|]; intros ? H; apply H).
  destruct texts as [|t ts] eqn:E; [reflexivity|].
  destruct (Join_clean strings.IsSpace (t :: ts) (strings.runes " ")
              ltac:(discriminate) Hclean) as (_ & Hs & He).
  apply TrimFunc_id; assumption.
Qed.

(** [extractText] on three lines of recognizer output, the second of
which is a blank-audio marker and the last of which ends in a carriage
return. *)
Example extractText_example :
  scribe.extractText
    (strings.runes "  hello there " ++ [10] ++ strings.runes " [BLANK_AUDIO]"
     ++ [10; 10] ++ strings.runes "general" ++ [13; 10])
  = strings.runes "hello there general".
Proof. vm_compute. reflexivity. Qed.

(** C8.  The text [extractText] returns is the recognizer output split on
line breaks, without the lines that are empty once trimmed and without
the lines that contain [[BLANK_AUDIO]], each remaining line trimmed, the
lines joined by single spaces; and when that text is empty [processJob]
returns no error and leaves the service as it was: no message is
appended to any log and nothing is handed to a subscriber. *)
Theorem extractText_is_spec_text :
  (forall output : list strings.rune,
     scribe.extractText output = scribe.spec_text output) /\
  (forall json_Marshal (s : scribe.Scribe) (job : scribe.TranscriptionJob)
          (output : list strings.rune),
     scribe.spec_text output = [] ->
     scribe.processJob json_Marshal (scribe.Output output) s job = (None, s)).
Proof.
  split; [exact extractText_spec_text|].
  intros json_Marshal s job output H.
  unfold scribe.processJob. rewrite extractText_spec_text, H. reflexivity.
Qed.

(** The theorem at work on an output of blank audio only. *)
Lemma extractText_is_spec_text_witness :
  let output := strings.runes " [BLANK_AUDIO]" ++ [10] ++ strings.runes "  " in
  let job := scribe.mkJob "recordings/20240123/c/audio_1_whisper.wav" "c" 0 in
  scribe.extractText output = [] /\
  scribe.processJob (fun _ => Some []) (scribe.Output output)
    (scribe.New "recordings") job
  = (None, scribe.New "recordings").
Proof.
  intros output job.
  destruct extractText_is_spec_text as [H1 H2].
  split.
  - rewrite (H1 output). vm_compute. reflexivity.
  - apply (H2 (fun _ => Some []) (scribe.New "recordings") job output).
    vm_compute. reflexivity.
Defined.

(** ** The subscription hub *)

Lemma try_send_cases {A} (c : scribe.chan A) (x : A) :
  ((length (scribe.buf c) < scribe.cap c)%nat /\
   scribe.try_send c x = (true, scribe.mkChan (scribe.cap c) (scribe.buf c ++ [x])))
  \/ ((scribe.cap c <= length (scribe.buf c))%nat /\
      scribe.try_send c x = (false, c)).
Proof.
  unfold scribe.try_send.
  destruct (Nat.ltb_spec (length (scribe.buf c)) (scribe.cap c)); auto.
Qed.

(** The loop hands the message to each listed connection once, and
touches no other connection. *)
Lemma notify_lookup connections data cs (p : nat) :
  NoDup connections ->
  scribe.notify connections data cs !! p
  = if decide (p ∈ connections) then scribe.offered data <$> cs !! p else cs !! p.
Proof.
  intros Hnd. revert cs.
  induction Hnd as [|q rest Hq Hrest IH]; intros cs.
  - cbn. destruct (decide (p ∈ [])) as [H|_]; [|reflexivity].
    apply elem_of_nil in H. contradiction.
  - cbn [scribe.notify].
    destruct (cs !! q) as [c|] eqn:Eq.
    + destruct (scribe.try_send (scribe.send c) data) as [b q'] eqn:Et.
      rewrite IH.
      destruct (decide (p = q)) as [->|Hne].
      * destruct (decide (q ∈ rest)); [contradiction|].
        destruct (decide (q ∈ q :: rest)) as [_|H]; [|exfalso; apply H; left].
        rewrite list_lookup_insert_eq by (eapply lookup_lt_Some; eauto).
        rewrite Eq. cbn. unfold scribe.offered. rewrite Et. reflexivity.
      * rewrite list_lookup_insert_ne by congruence.
        destruct (decide (p ∈ rest)) as [Hin|Hnin].
        -- destruct (decide (p ∈ q :: rest)) as [_|H]; [reflexivity|].
           exfalso. apply H. right. exact Hin.
        -- destruct (decide (p ∈ q :: rest)) as [H|_]; [|reflexivity].
           apply elem_of_cons in H as [H|H]; contradiction.
    + rewrite IH.
      destruct (decide (p = q)) as [->|Hne].
      * destruct (decide (q ∈ rest)); [contradiction|].
        destruct (decide (q ∈ q :: rest)) as [_|H]; [|exfalso; apply H; left].
        rewrite Eq. reflexivity.
      * destruct (decide (p ∈ rest)) as [Hin|Hnin].
        -- destruct (decide (p ∈ q :: rest)) as [_|H]; [reflexivity|].
           exfalso. apply H. right. exact Hin.
        -- destruct (decide (p ∈ q :: rest)) as [H|_]; [|reflexivity].
           apply elem_of_cons in H as [H|H]; contradiction.
Qed.

Lemma hub_wf_New dir : scribe.hub_wf (scribe.New dir).
Proof. intros id ps H. cbn in H. rewrite lookup_empty in H. discriminate. Qed.

(** A subscription keeps the hub well formed, and its connection has an
outbound channel of 256 slots, empty at first. *)
Lemma handleWebSocket_hub_wf env s id p s' :
  scribe.hub_wf s ->
  scribe.handleWebSocket env s id = (Some p, s') ->
  scribe.hub_wf s' /\
  scribe.conns s' !! p = Some (scribe.mkWsConn id (scribe.mkChan 256 [])) /\
  exists ps, scribe.subscribers s' !! id = Some ps /\ p ∈ ps.
Proof.
  intros Hwf H. unfold scribe.handleWebSocket in H.
  destruct (scribe.uuid_Parse env id); [|discriminate].
  destruct (scribe.Upgrade_ok env); [|discriminate].
  cbn in H. inversion H; subst; clear H.
  unfold scribe.registerSubscriber; cbn.
  assert (Hnew : (scribe.conns s ++ [scribe.mkWsConn id (scribe.mkChan 256 [])])
                 !! length (scribe.conns s)
                 = Some (scribe.mkWsConn id (scribe.mkChan 256 []))).
  { rewrite lookup_app_r by lia. rewrite Nat.sub_diag. reflexivity. }
  split; [|split].
  - intros id' ps Hl. cbn in Hl.
    destruct (decide (id = id')) as [->|Hne].
    + rewrite lookup_insert_eq in Hl. inversion Hl; subst; clear Hl.
      destruct (scribe.subscribers s !! id') as [old|] eqn:E; cbn.
      * destruct (Hwf _ _ E) as [Hnd Hall]. split.
        -- apply NoDup_app. split; [exact Hnd|]. split; [|apply NoDup_singleton].
           intros x Hx Hx'. apply list_elem_of_singleton in Hx'. subst x.
           destruct (Hall _ Hx) as (c & Hc & _).
           apply lookup_lt_Some in Hc. lia.
        -- intros q Hq. apply elem_of_app in Hq as [Hq|Hq].
           ++ destruct (Hall q Hq) as (c & Hc & ? & ?).
              exists c. split; [|auto]. apply lookup_app_l_Some. exact Hc.
           ++ apply list_elem_of_singleton in Hq. subst q.
              eexists. split; [exact Hnew|split; reflexivity].
      * split; [apply NoDup_singleton|].
        intros q Hq. apply list_elem_of_singleton in Hq. subst q.
        eexists. split; [exact Hnew|split; reflexivity].
    + rewrite lookup_insert_ne in Hl by exact Hne.
      destruct (Hwf _ _ Hl) as [Hnd Hall]. split; [exact Hnd|].
      intros q Hq. destruct (Hall q Hq) as (c & Hc & ? & ?).
      exists c. split; [|auto]. apply lookup_app_l_Some. exact Hc.
  - exact Hnew.
  - eexists. rewrite lookup_insert_eq. split; [reflexivity|].
    apply elem_of_app. right. apply list_elem_of_singleton. reflexivity.
Qed.

(** A hand-off changes neither the endpoint nor the capacity of a
connection. *)
Lemma offered_same data c :
  scribe.clientID (scribe.offered data c) = scribe.clientID c /\
  scribe.cap (scribe.send (scribe.offered data c)) = scribe.cap (scribe.send c).
Proof.
  unfold scribe.offered.
  destruct (try_send_cases (scribe.send c) data) as [[_ ->]|[_ ->]];
    split; reflexivity.
Qed.

(** [processJob] keeps the hub well formed. *)
Lemma processJob_hub_wf json_Marshal run s job err s' :
  scribe.hub_wf s ->
  scribe.processJob json_Marshal run s job = (err, s') ->
  scribe.hub_wf s'.
Proof.
  intros Hwf H. unfold scribe.processJob in H.
  destruct run as [out|stderr|].
  2: { destruct (strings.Contains_s stderr _); inversion H; subst; exact Hwf. }
  2: { inversion H; subst; exact Hwf. }
  destruct (bool_decide _); [inversion H; subst; exact Hwf|].
  destruct (json_Marshal _) as [data|]; [|inversion H; subst; exact Hwf].
  cbn [scribe.subscribers scribe.conns] in H.
  destruct (scribe.subscribers s !! scribe.ClientID job) as [connections|] eqn:E;
    inversion H; subst; clear H; [|exact Hwf].
  intros id ps Hl. cbn in Hl. destruct (Hwf id ps Hl) as [Hnd Hall].
  split; [exact Hnd|]. intros q Hq. destruct (Hall q Hq) as (c & Hc & Hid & Hcap).
  cbn. rewrite (notify_lookup _ _ _ _ (proj1 (Hwf _ _ E))).
  destruct (decide (q ∈ connections)).
  - rewrite Hc. cbn. eexists. split; [reflexivity|].
    destruct (offered_same data c) as [-> ->]. auto.
  - exists c. auto.
Qed.

(** C9.  When [processJob] has a text to publish and the envelope
serializes to [data], it returns without error after one non-blocking
hand-off to each connection subscribed to the job's endpoint: a
connection whose outbound channel (256 slots) has room gets [data]
appended, a connection whose channel is full keeps its channel as it is
(the message is dropped for it, and there is no second attempt); what
happens to one subscriber does not depend on the others, and no
connection outside the endpoint's list is touched. *)
Theorem processJob_publishes_without_blocking
  (json_Marshal : scribe.WebSocketMessage -> option (list byte))
  (s : scribe.Scribe) (job : scribe.TranscriptionJob)
  (output : list strings.rune) (data : list byte) (connections : list nat) :
  scribe.hub_wf s ->
  scribe.extractText output <> [] ->
  json_Marshal (scribe.envelope job (scribe.extractText output)) = Some data ->
  scribe.subscribers s !! scribe.ClientID job = Some connections ->
  exists s',
    scribe.processJob json_Marshal (scribe.Output output) s job = (None, s') /\
    scribe.subscribers s' = scribe.subscribers s /\
    (forall p, p ∈ connections ->
       exists c,
         scribe.conns s !! p = Some c /\
         scribe.cap (scribe.send c) = 256%nat /\
         scribe.conns s' !! p
         = Some (scribe.mkWsConn (scribe.clientID c)
                   (if (length (scribe.buf (scribe.send c)) <? 256)%nat
                    then scribe.mkChan 256 (scribe.buf (scribe.send c) ++ [data])
                    else scribe.send c))) /\
    (forall p, p ∉ connections -> scribe.conns s' !! p = scribe.conns s !! p).
Proof.
  intros Hwf Htext Hdata Hsub.
  destruct (Hwf _ _ Hsub) as [Hnd Hall].
  unfold scribe.processJob.
  rewrite (bool_decide_eq_false_2 _ Htext).
  fold (scribe.envelope job (scribe.extractText output)).
  rewrite Hdata. cbn [scribe.subscribers]. rewrite Hsub.
  eexists. split; [reflexivity|]. cbn.
  split; [reflexivity|]. split.
  - intros p Hp. destruct (Hall p Hp) as (c & Hc & _ & Hcap).
    exists c. split; [exact Hc|]. split; [exact Hcap|].
    rewrite (notify_lookup _ _ _ _ Hnd).
    destruct (decide (p ∈ connections)); [|contradiction].
    rewrite Hc. cbn [fmap option_fmap option_map]. unfold scribe.offered.
    destruct (try_send_cases (scribe.send c) data) as [[Hlt ->]|[Hge ->]];
      rewrite Hcap in *; cbn [snd];
      (destruct (length (scribe.buf (scribe.send c)) <=? 255)%nat eqn:E;
       [apply Nat.leb_le in E|apply Nat.leb_gt in E]);
      first [reflexivity | lia].
  - intros p Hp. rewrite (notify_lookup _ _ _ _ Hnd).
    destruct (decide (p ∈ connections)); [contradiction|reflexivity].
Qed.

(** The theorem at work: an endpoint with two subscribers, the first
with a full outbound channel, the second with an empty one.  The first
keeps its 256 messages, the second receives the envelope. *)
Lemma processJob_publishes_without_blocking_witness :
  let full := scribe.mkWsConn "c" (scribe.mkChan 256 (repeat [] 256)) in
  let idle := scribe.mkWsConn "c" (scribe.mkChan 256 []) in
  let s := scribe.mkScribe "recordings" [] ∅ {[ "c" := [0; 1]%nat ]}
             [full; idle] (scribe.mkChan 100 []) in
  let job := scribe.mkJob "recordings/20240123/c/audio_1_whisper.wav" "c" 0 in
  exists s',
    scribe.processJob (fun _ => Some [Byte.x7b; Byte.x7d])
      (scribe.Output (strings.runes "hello")) s job = (None, s') /\
    scribe.conns s' !! 0%nat = Some full /\
    scribe.conns s' !! 1%nat
    = Some (scribe.mkWsConn "c" (scribe.mkChan 256 [[Byte.x7b; Byte.x7d]])).
Proof.
  intros full idle s job.
  assert (Hwf : scribe.hub_wf s).
  { intros id ps Hl. cbn in Hl.
    apply lookup_singleton_Some in Hl. destruct Hl as [Hid Hps].
    subst id ps.
    split.
    { apply NoDup_cons. split; [|apply NoDup_singleton].
      intros Hin. apply list_elem_of_singleton in Hin. discriminate. }
    intros p Hp.
    apply elem_of_cons in Hp. destruct Hp as [->|Hp]; [exists full; auto|].
    apply list_elem_of_singleton in Hp. subst p. exists idle; auto. }
  destruct (processJob_publishes_without_blocking
              (fun _ => Some [Byte.x7b; Byte.x7d]) s job
              (strings.runes "hello") [Byte.x7b; Byte.x7d] [0; 1]%nat
              Hwf ltac:(vm_compute; discriminate) eq_refl eq_refl)
    as (s' & Hrun & _ & Hin & _).
  exists s'. split; [exact Hrun|]. split.
  - destruct (Hin 0%nat ltac:(set_solver)) as (c & Hc & _ & ->).
    cbn in Hc. inversion Hc; subst c. reflexivity.
  - destruct (Hin 1%nat ltac:(set_solver)) as (c & Hc & _ & ->).
    cbn in Hc. inversion Hc; subst c. reflexivity.
Defined.

(** ** The directory watcher *)

Lemma handleNewClient_queue env s id path :
  scribe.queue (scribe.handleNewClient env s id path).2 = scribe.queue s.
Proof.
  unfold scribe.handleNewClient.
  destruct (scribe.watcher_Add_ok env path); reflexivity.
Qed.

Lemma handleNewAudioFile_queue env s id path :
  scribe.queue (scribe.handleNewAudioFile env s id path).2
  = (scribe.try_send (scribe.queue s)
       (scribe.mkJob path id (scribe.time_Now env))).2.
Proof.
  unfold scribe.handleNewAudioFile.
  destruct (try_send_cases (scribe.queue s)
              (scribe.mkJob path id (scribe.time_Now env)))
    as [[_ ->]|[_ ->]]; reflexivity.
Qed.

(** The job queue after an event: either the event names a job path
and the job was scribe.offered to the queue, or the queue is as before. *)
Lemma handleFSEvent_queue env s ev :
  (exists id,
     scribe.job_path env s ev id /\
     scribe.queue (scribe.handleFSEvent env s ev).2
     = (scribe.try_send (scribe.queue s)
          (scribe.mkJob (scribe.Name ev) id (scribe.time_Now env))).2)
  \/ ((forall id, ~ scribe.job_path env s ev id) /\
      scribe.queue (scribe.handleFSEvent env s ev).2 = scribe.queue s).
Proof.
  unfold scribe.handleFSEvent.
  destruct (strings.HasSuffix_s (scribe.Name ev) ".tmp") eqn:Etmp; cbn [orb].
  { right. split; [|reflexivity].
    intros id (_ & H & _). congruence. }
  destruct (Z.eqb_spec (scribe.Op ev) scribe.Create) as [Eop|Eop]; cbn [negb].
  2: { right. split; [|reflexivity]. intros id (H & _). contradiction. }
  destruct (scribe.filepath_Rel env (scribe.RecordingsDir s) (scribe.Name ev))
    as [relPath|] eqn:Erel.
  2: { right. split; [|reflexivity].
       intros id (_ & _ & r & l & H & _). congruence. }
  set (s1 := if scribe.IsDir env (scribe.Name ev)
             then if scribe.watcher_Add_ok env (scribe.Name ev)
                  then scribe.set_watched s
                         (scribe.watched s ++ [scribe.Name ev])
                  else s
             else s).
  assert (Hq1 : scribe.queue s1 = scribe.queue s).
  { subst s1. destruct (scribe.IsDir env _); [|reflexivity].
    destruct (scribe.watcher_Add_ok env _); reflexivity. }
  assert (Hno : forall P : Prop,
            (forall id leaf,
               strings.Split_s relPath "/"
               = [scribe.getCurrentDateDir env; id; leaf] ->
               scribe.uuid_Parse env id = true ->
               strings.HasSuffix_s leaf ".wav" = true ->
               strings.Contains_s leaf "_whisper" = true -> P) ->
            forall id, scribe.job_path env s ev id -> P).
  { intros P HP id (_ & _ & r & l & Hr & Hs & Hu & Hw & Hc).
    rewrite Erel in Hr. inversion Hr; subst r. eauto. }
  destruct (strings.Split_s relPath "/") as [|p0 [|p1 [|p2 [|p3 rest]]]] eqn:Esp;
    cbn [length Nat.ltb Nat.leb].
  1, 2: right; split; [|reflexivity];
        unfold not; apply (Hno False); intros; discriminate.
  - (* two components *)
    cbn [lookup list_lookup].
    destruct (bool_decide (Some p0 = Some (scribe.getCurrentDateDir env)));
      cbn [negb].
    2: { right. split; [|reflexivity]. unfold not; apply (Hno False); intros; discriminate. }
    right. split; [unfold not; apply (Hno False); intros; discriminate|].
    destruct (scribe.uuid_Parse env p1); [|exact Hq1].
    rewrite handleNewClient_queue. exact Hq1.
  - (* three components *)
    cbn [lookup list_lookup].
    destruct (bool_decide_reflect (Some p0 = Some (scribe.getCurrentDateDir env)))
      as [Eday|Eday]; cbn [negb].
    2: { right. split; [|reflexivity].
         unfold not; apply (Hno False). intros id leaf H. inversion H; subst.
         contradiction. }
    inversion Eday; subst p0.
    destruct (scribe.uuid_Parse env p1) eqn:Eu; cbn [andb].
    2: { right. split; [|exact Hq1].
         unfold not; apply (Hno False). intros id leaf H. inversion H; subst. congruence. }
    destruct (strings.HasSuffix_s p2 ".wav") eqn:Ew.
    2: { right. split; [|exact Hq1].
         unfold not; apply (Hno False). intros id leaf H. inversion H; subst. congruence. }
    destruct (strings.Contains_s p2 "_whisper") eqn:Ec.
    2: { right. split; [|exact Hq1].
         unfold not; apply (Hno False). intros id leaf H. inversion H; subst. congruence. }
    left. exists p1. split.
    + split; [exact Eop|]. split; [exact Etmp|].
      exists relPath, p2. rewrite Esp. auto.
    + rewrite handleNewAudioFile_queue, Hq1. reflexivity.
  - (* four components or more *)
    cbn [lookup list_lookup].
    destruct (bool_decide (Some p0 = Some (scribe.getCurrentDateDir env)));
      cbn [negb].
    2: { right. split; [|reflexivity]. unfold not; apply (Hno False); intros; discriminate. }
    right. split; [unfold not; apply (Hno False); intros; discriminate|exact Hq1].
Qed.

Lemma not_enqueued_same_queue (s s' : scribe.Scribe) :
  scribe.queue s' = scribe.queue s -> ~ scribe.enqueued s s'.
Proof.
  intros E [job H]. rewrite E in H.
  apply (f_equal (@length _)) in H. rewrite length_app in H. cbn in H. lia.
Qed.

(** C7 (as amended).  An event makes [handleFSEvent] enqueue a job
exactly when it is a create event whose name does not end in [.tmp],
whose path below the recordings root has exactly three components, the
first the current day, the second an id that parses, the third a leaf
that ends in [.wav] and contains [_whisper], and when the job queue has
room; the job then carries the event's name, the id and the current
instant.  An event whose name ends in [.tmp], and an event whose first
component is not the current day, leave the queue as it is. *)
Theorem handleFSEvent_enqueues
  (env : scribe.Env) (s : scribe.Scribe) (ev : scribe.Event) :
  let s' := (scribe.handleFSEvent env s ev).2 in
  (scribe.enqueued s s' <->
   exists id, scribe.job_path env s ev id /\
              (length (scribe.buf (scribe.queue s))
               < scribe.cap (scribe.queue s))%nat) /\
  (forall id,
     scribe.job_path env s ev id ->
     (length (scribe.buf (scribe.queue s)) < scribe.cap (scribe.queue s))%nat ->
     scribe.buf (scribe.queue s')
     = scribe.buf (scribe.queue s)
       ++ [scribe.mkJob (scribe.Name ev) id (scribe.time_Now env)]) /\
  (strings.HasSuffix_s (scribe.Name ev) ".tmp" = true ->
   scribe.queue s' = scribe.queue s) /\
  (forall relPath,
     scribe.filepath_Rel env (scribe.RecordingsDir s) (scribe.Name ev)
     = Some relPath ->
     strings.Split_s relPath "/" !! 0%nat <> Some (scribe.getCurrentDateDir env) ->
     scribe.queue s' = scribe.queue s).
Proof.
  intros s'.
  assert (Hfwd : forall id,
            scribe.job_path env s ev id ->
            (length (scribe.buf (scribe.queue s))
             < scribe.cap (scribe.queue s))%nat ->
            scribe.buf (scribe.queue s')
            = scribe.buf (scribe.queue s)
              ++ [scribe.mkJob (scribe.Name ev) id (scribe.time_Now env)]).
  { intros id Hj Hroom.
    destruct (handleFSEvent_queue env s ev) as [(id' & Hj' & Hq)|[Hn _]];
      [|destruct (Hn id Hj)].
    assert (id' = id) as ->.
    { destruct Hj as (_ & _ & r & l & Hr & Hs & _).
      destruct Hj' as (_ & _ & r' & l' & Hr' & Hs' & _).
      rewrite Hr in Hr'. inversion Hr'; subst r'.
      rewrite Hs in Hs'. inversion Hs'. reflexivity. }
    subst s'. rewrite Hq.
    destruct (try_send_cases (scribe.queue s)
                (scribe.mkJob (scribe.Name ev) id (scribe.time_Now env)))
      as [[_ ->]|[Hfull _]]; [reflexivity|lia]. }
  assert (Hnone : (forall id, ~ scribe.job_path env s ev id) ->
                  scribe.queue s' = scribe.queue s).
  { intros Hn.
    destruct (handleFSEvent_queue env s ev) as [(id & Hj & _)|[_ Hq]];
      [destruct (Hn id Hj)|exact Hq]. }
  split; [|split; [exact Hfwd|split]].
  - split.
    + intros Henq.
      destruct (handleFSEvent_queue env s ev) as [(id & Hj & Hq)|[_ Hq]].
      * exists id. split; [exact Hj|].
        destruct (try_send_cases (scribe.queue s)
                    (scribe.mkJob (scribe.Name ev) id (scribe.time_Now env)))
          as [[Hroom _]|[_ E]]; [exact Hroom|].
        rewrite E in Hq. destruct (not_enqueued_same_queue _ _ Hq Henq).
      * destruct (not_enqueued_same_queue _ _ Hq Henq).
    + intros (id & Hj & Hroom). eexists. exact (Hfwd id Hj Hroom).
  - intros Htmp. apply Hnone. intros id (_ & H & _). congruence.
  - intros relPath Hrel Hday. apply Hnone.
    intros id (_ & _ & r & l & Hr & Hs & _).
    rewrite Hrel in Hr. inversion Hr; subst r.
    rewrite Hs in Hday. apply Hday. reflexivity.
Qed.

(** The theorem at work: the create event of a resampled artifact in
today's directory of an endpoint enqueues its job; the same name with
the [.tmp] marker does not. *)
Lemma handleFSEvent_enqueues_witness :
  let env := scribe.example_env "20240123" in
  let s := scribe.New "recordings" in
  let id := "550e8400-e29b-41d4-a716-446655440000" in
  let name := "recordings/20240123/550e8400-e29b-41d4-a716-446655440000/audio_120000_whisper.wav" in
  scribe.buf (scribe.queue
                (scribe.handleFSEvent env s (scribe.mkEvent name scribe.Create)).2)
  = [scribe.mkJob name id 0] /\
  scribe.queue
    (scribe.handleFSEvent env s
       (scribe.mkEvent (name +:+ ".tmp") scribe.Create)).2
  = scribe.queue s.
Proof.
  intros env s id name. split.
  - destruct (handleFSEvent_enqueues env s (scribe.mkEvent name scribe.Create))
      as (_ & H & _).
    apply (H id); [|cbn; lia].
    split; [reflexivity|]. split; [vm_compute; reflexivity|].
    exists "20240123/550e8400-e29b-41d4-a716-446655440000/audio_120000_whisper.wav",
           "audio_120000_whisper.wav".
    repeat split; vm_compute; reflexivity.
  - destruct (handleFSEvent_enqueues env s
                (scribe.mkEvent (name +:+ ".tmp") scribe.Create))
      as (_ & _ & H & _).
    apply H. vm_compute. reflexivity.
Defined.

(** C7 as stated fails in both directions.  A create event for the leaf
[audio_120000_whisper_copy.wav], which contains [_whisper] but does not
carry it as its suffix, enqueues a job; and a create event for a path
that meets every stated condition enqueues nothing when the job queue
already holds its 100 jobs. *)
Lemma enqueue_condition_differs :
  let env := scribe.example_env "20240123" in
  let s := scribe.New "recordings" in
  let dir := "recordings/20240123/550e8400-e29b-41d4-a716-446655440000/" in
  let ev1 := scribe.mkEvent (dir +:+ "audio_120000_whisper_copy.wav") scribe.Create in
  let ev2 := scribe.mkEvent (dir +:+ "audio_120000_whisper.wav") scribe.Create in
  let busy :=
    scribe.mkScribe "recordings" [] ∅ ∅ []
      (scribe.mkChan 100 (repeat (scribe.mkJob "j" "c" 0) 100)) in
  (scribe.enqueued s (scribe.handleFSEvent env s ev1).2 /\
   ~ scribe.spec_job_path env s ev1) /\
  (scribe.spec_job_path env busy ev2 /\
   ~ scribe.enqueued busy (scribe.handleFSEvent env busy ev2).2).
Proof.
  intros env s dir ev1 ev2 busy. split; split.
  - eexists. vm_compute. reflexivity.
  - intros (_ & r & id & leaf & Hr & Hs & _ & Hsuf).
    vm_compute in Hr. inversion Hr; subst r; clear Hr.
    vm_compute in Hs. inversion Hs; subst id leaf; clear Hs.
    vm_compute in Hsuf. discriminate.
  - split; [reflexivity|].
    exists "20240123/550e8400-e29b-41d4-a716-446655440000/audio_120000_whisper.wav",
           "550e8400-e29b-41d4-a716-446655440000", "audio_120000_whisper.wav".
    repeat split; vm_compute; reflexivity.
  - apply not_enqueued_same_queue. vm_compute. reflexivity.
Qed.

(** ** The connection handler *)

Example clock_example : libaserv.clock_150405 45296000000000 = "123456".
Proof. reflexivity. Qed.

(** Scenario 1 of the specification: a start marker, one frame of four
bytes, and the end marker 1.2 s later.  The artifact is finalized with
data size 4, resampled and removed; its sibling exists. *)
Example scenario_finalized :
  let env := libaserv.example_env 2000000000 in
  let stream :=
    libaserv.at_time 0 libaserv.start_marker
    ++ libaserv.at_time 0
         (libaserv.payload_frame [Byte.x00; Byte.x01; Byte.x00; Byte.x02])
    ++ libaserv.at_time 1200000000 libaserv.end_marker in
  let dir := "recordings/20240123/550e8400-e29b-41d4-a716-446655440000/" in
  exists st,
    libaserv.handleConnection env stream 0 os.empty "" = Some (libaserv.Returned st)
    /\ os.content (dir +:+ "audio_000000.wav") (libaserv.fs st) = None
    /\ os.content (dir +:+ "audio_000000_whisper.wav") (libaserv.fs st)
       = Some (audio.container 40 4 [Byte.x00; Byte.x01; Byte.x00; Byte.x02]).
Proof. eexists. vm_compute. repeat split. Qed.

Lemma append_assoc (a b c : string) : (a +:+ b) +:+ c = a +:+ (b +:+ c).
Proof.
  induction a as [|x a IH]; [reflexivity|].
  change (String x ((a +:+ b) +:+ c) = String x (a +:+ (b +:+ c))).
  f_equal. exact IH.
Qed.

Lemma wavPath_stem env t :
  libaserv.wavPath env t = libaserv.wavStem env t +:+ ".wav".
Proof.
  unfold libaserv.wavPath, libaserv.wavStem, libaserv.filepath_Join.
  rewrite !append_assoc. reflexivity.
Qed.

Lemma stem_wav_not_whisper (stem : string) :
  stem +:+ ".wav" <> stem +:+ "_whisper.wav".
Proof.
  intros H. apply (f_equal String.length) in H.
  rewrite !length_append in H. cbn in H. lia.
Qed.

Lemma container_app t d (p : list byte) :
  audio.container t d p = audio.container t d [] ++ p.
Proof. reflexivity. Qed.

Lemma length_container t d (p : list byte) :
  length (audio.container t d p) = (44 + length p)%nat.
Proof. reflexivity. Qed.

Lemma container_write_end t d (p data : list byte) :
  os.write_at (audio.container t d p) (44 + length p) data
  = audio.container t d (p ++ data).
Proof.
  change (44 + length p)%nat with (0 + length (audio.container t d p))%nat.
  rewrite (write_at_end (audio.container t d p) data).
  rewrite (container_app t d p), (container_app t d (p ++ data)).
  rewrite app_assoc. reflexivity.
Qed.

(** *** Reading from the peer *)

Lemma ReadFull_app env st (bs rest : list (Z * byte)) :
  libaserv.conn st = bs ++ rest ->
  libaserv.ReadFull env (length bs) st
  = (inr (map snd bs),
     libaserv.mkState rest (libaserv.arrival (libaserv.now st) bs)
       (libaserv.fs st) (libaserv.currentDay st)
       (libaserv.transmissionBuffer st)
       (libaserv.isReceivingTransmission st) (libaserv.file st)
       (libaserv.transmissionStartTime st)).
Proof.
  intros H. unfold libaserv.ReadFull. rewrite H.
  rewrite length_app.
  destruct (Nat.leb_spec (length bs) (length bs + length rest)) as [_|?]; [|lia].
  rewrite take_app_length, drop_app_length. reflexivity.
Qed.

Lemma ReadFull_short env st (n : nat) :
  (length (libaserv.conn st) < n)%nat ->
  exists e t,
    libaserv.ReadFull env n st
    = (inl e,
       libaserv.mkState [] t (libaserv.fs st) (libaserv.currentDay st)
         (libaserv.transmissionBuffer st)
         (libaserv.isReceivingTransmission st) (libaserv.file st)
         (libaserv.transmissionStartTime st))
    /\ t = Z.max (libaserv.arrival (libaserv.now st) (libaserv.conn st))
                 (libaserv.peer_closes_at env).
Proof.
  intros H. unfold libaserv.ReadFull.
  destruct (Nat.leb_spec n (length (libaserv.conn st))) as [?|_]; [lia|].
  eexists _, _. split; reflexivity.
Qed.

Lemma length_at_time t (bs : list byte) :
  length (libaserv.at_time t bs) = length bs.
Proof. apply length_map. Qed.

Lemma snd_at_time t (bs : list byte) : map snd (libaserv.at_time t bs) = bs.
Proof.
  unfold libaserv.at_time. rewrite map_map. cbn. apply map_id.
Qed.

Lemma fold_max_const (t : Z) (bs : list byte) (a : Z) :
  fold_left Z.max (map (fun _ => t) bs) a
  = match bs with [] => a | _ => Z.max a t end.
Proof.
  revert a. induction bs as [|c bs IH]; intros a; [reflexivity|].
  cbn [map fold_left]. rewrite IH. destruct bs; lia.
Qed.

Lemma arrival_at_time now t (bs : list byte) :
  bs <> [] -> libaserv.arrival now (libaserv.at_time t bs) = Z.max now t.
Proof.
  intros Hne. unfold libaserv.arrival, libaserv.at_time.
  rewrite map_map. cbn [fst]. rewrite fold_max_const.
  destruct bs; [congruence|reflexivity].
Qed.

Lemma Since_lt_Second start t :
  (time.Since (Some start) t <? time.Second) = (t - start <? time.Second).
Proof.
  unfold time.Since, time.Second, time.maxDuration, time.minDuration.
  destruct (Z.ltb_spec (t - start) 1000000000);
    destruct (Z.ltb_spec
                (Z.max (- 2 ^ 63) (Z.min (2 ^ 63 - 1) (t - start))) 1000000000);
    try reflexivity; lia.
Qed.

(** Projections of a handler state, and nothing else, are computed. *)
Ltac simpl_state :=
  cbn [libaserv.now libaserv.currentDay libaserv.fs libaserv.conn
       libaserv.transmissionBuffer libaserv.isReceivingTransmission
       libaserv.file libaserv.transmissionStartTime libaserv.with_fs
       libaserv.with_file] in *.

Lemma Create_true fs name :
  exists fs', os.Create true name fs = (Some (length (os.fds fs)), fs').
Proof.
  unfold os.Create. destruct (os.dir fs !! name); eexists; reflexivity.
Qed.

Lemma length_marker (bs : list (Z * byte)) (m : list byte) :
  map snd bs = m -> length m = 4%nat -> length bs = 4%nat.
Proof. intros <- H. rewrite length_map in H. exact H. Qed.

(** *** A start marker

Whatever the state, a start marker whose file can be created puts the
handler into the Recording state on a fresh artifact that holds the
placeholder header. *)
Lemma iteration_start env st (bs rest : list (Z * byte)) :
  libaserv.conn st = bs ++ rest ->
  map snd bs = libaserv.start_marker ->
  os.wf (libaserv.fs st) ->
  libaserv.MkdirAll_ok env
    (libaserv.filepath_Join
       (libaserv.filepath_Join "recordings"
          (libaserv.format_20060102 env (libaserv.arrival (libaserv.now st) bs)))
       (libaserv.clientID env))
    (libaserv.arrival (libaserv.now st) bs) = true ->
  libaserv.Create_ok env
    (libaserv.wavPath env (libaserv.arrival (libaserv.now st) bs))
    (libaserv.arrival (libaserv.now st) bs) = true ->
  exists st',
    libaserv.iteration env st = libaserv.check_ctx env st' /\
    libaserv.conn st' = rest /\
    libaserv.now st' = libaserv.arrival (libaserv.now st) bs /\
    libaserv.transmissionBuffer st' = [] /\
    libaserv.Recording st' (length (os.fds (libaserv.fs st)))
      (libaserv.wavStem env (libaserv.arrival (libaserv.now st) bs))
      (libaserv.arrival (libaserv.now st) bs) /\
    os.log (libaserv.fs st')
    = os.log (libaserv.fs st)
      ++ [os.CCreate (libaserv.wavPath env (libaserv.arrival (libaserv.now st) bs))
            (length (os.fds (libaserv.fs st)));
          os.CWrite (length (os.fds (libaserv.fs st)))
            (audio.encode (audio.header 0))].
Proof.
  intros Hconn Hm Hwf Hmk Hcr.
  pose proof (length_marker bs _ Hm eq_refl) as Hlen.
  unfold libaserv.iteration. rewrite <- Hlen, (ReadFull_app env st bs rest Hconn).
  rewrite Hm.
  change (default 0 (binary.BigEndian_Uint32 libaserv.start_marker))
    with 4294967295.
  cbn [Z.eqb Pos.eqb].
  set (t := libaserv.arrival (libaserv.now st) bs) in *.
  destruct st as [c n0 f0 day0 buf0 rec0 file0 start0]; cbn in *.
  unfold libaserv.startFile, libaserv.createWavFile, libaserv.updateCurrentDay.
  simpl_state.
  destruct (Create_true f0 (libaserv.wavPath env t)) as [fs1 HC].
  destruct (Create_points _ _ _ _ Hwf HC) as (_ & Hwf1 & L1 & i & Hdir & P1).
  destruct (Write_points _ _ _ _ _ _ (audio.encode (audio.header 0)) P1)
    as (fs2 & HW & P2 & D2 & L2).
  assert (Hrec : forall dayx,
    libaserv.Recording
      (libaserv.mkState rest t fs2 dayx [] true (Some (length (os.fds f0)))
         (Some t))
      (length (os.fds f0)) (libaserv.wavStem env t) t).
  { intros dayx. repeat (split; [reflexivity|]).
    exists i. rewrite <- wavPath_stem. cbn.
    split; [congruence|exact P2]. }
  destruct (decide (libaserv.format_20060102 env t = day0)) as [Ed|Ed];
    simpl_state;
    try rewrite <- Ed;
    fold (libaserv.wavPath env t);
    rewrite Hmk; cbn [negb];
    fold (libaserv.wavPath env t);
    rewrite Hcr, HC;
    simpl_state;
    unfold audio.WriteWavHeader; rewrite HW;
    simpl_state;
    (eexists; split; [reflexivity|]);
    simpl_state;
    repeat (split; [reflexivity|]);
    (split; [apply Hrec|]);
    rewrite L2, L1, <- app_assoc; reflexivity.
Qed.

(** *** A payload frame while Recording

A frame with any prefix between 1 and 4294967294 whose bytes arrive is
read in full and appended, to the buffer and to the artifact; the
handler stays in the Recording state. *)
Lemma iteration_payload env st fd stem start
  (pre pay rest : list (Z * byte)) (n : Z) :
  libaserv.Recording st fd stem start ->
  libaserv.conn st = pre ++ pay ++ rest ->
  map snd pre = binary.BigEndian_PutUint32 n ->
  0 < n < 4294967295 ->
  Z.of_nat (length pay) = n ->
  exists st',
    libaserv.iteration env st = libaserv.check_ctx env st' /\
    libaserv.conn st' = rest /\
    libaserv.now st'
    = libaserv.arrival (libaserv.arrival (libaserv.now st) pre) pay /\
    libaserv.transmissionBuffer st'
    = libaserv.transmissionBuffer st ++ map snd pay /\
    libaserv.Recording st' fd stem start /\
    os.log (libaserv.fs st')
    = os.log (libaserv.fs st) ++ [os.CWrite fd (map snd pay)].
Proof.
  intros (Hrec & Hfile & Hstart & i & Hdir & P) Hconn Hpre Hn Hlen.
  pose proof (length_marker pre _ Hpre eq_refl) as Hl4.
  unfold libaserv.iteration.
  rewrite <- Hl4, (ReadFull_app env st pre (pay ++ rest) Hconn), Hpre.
  rewrite BigEndian_roundtrip by (change (2 ^ 32) with 4294967296; lia).
  cbn [default id].
  destruct (Z.eqb_spec n 4294967295) as [?|_]; [lia|].
  destruct (Z.eqb_spec n 0) as [?|_]; [lia|].
  simpl_state. rewrite Hrec.
  replace (Z.to_nat n) with (length pay) by lia.
  rewrite (ReadFull_app env (libaserv.mkState (pay ++ rest) _ _ _ _ _ _ _)
             pay rest eq_refl).
  simpl_state. rewrite Hfile.
  destruct (Write_points _ _ _ _ _ _ (map snd pay) P) as (fs1 & -> & P1 & D1 & L1).
  eexists. split; [reflexivity|]. simpl_state.
  repeat (split; [reflexivity|]).
  split; [|exact L1].
  unfold libaserv.Recording. simpl_state.
  split; [reflexivity|]. split; [reflexivity|]. split; [exact Hstart|].
  exists i. split; [congruence|].
  rewrite container_write_end in P1.
  rewrite length_app, Nat.add_assoc. exact P1.
Qed.

(** *** The end of an utterance *)

Lemma Close_then fs fd n i off c :
  os.points fs fd n i off c ->
  exists fs',
    os.Close fd fs = (true, fs') /\
    os.Name fd fs' = n /\
    os.is_open fd fs' = false /\
    os.inodes fs' = os.inodes fs /\
    os.dir fs' = os.dir fs /\
    os.log fs' = os.log fs ++ [os.CClose fd].
Proof.
  intros P. destruct (Close_points _ _ _ _ _ _ P) as (fs' & E & Hfd & Hi & Hd & L).
  exists fs'. split; [exact E|].
  unfold os.Name, os.is_open. rewrite Hfd. cbn. auto.
Qed.

Lemma content_Remove name fs : os.content name (os.Remove name fs) = None.
Proof. unfold os.content, os.Remove. cbn. rewrite lookup_delete_eq. reflexivity. Qed.

Lemma is_open_Remove fd name fs :
  os.is_open fd (os.Remove name fs) = os.is_open fd fs.
Proof. reflexivity. Qed.

(** The resample step on a closed, linked artifact [stem.wav]. *)
Lemma ResampleForWhisper_linked ffmpeg fs stem i (c : list byte) :
  os.dir fs !! (stem +:+ ".wav") = Some i ->
  os.inodes fs !! i = Some c ->
  exists fs',
    audio.ResampleForWhisper ffmpeg (stem +:+ ".wav") fs
    = audio.Done (bool_decide (is_Some (ffmpeg c)), fs') /\
    os.fds fs' = os.fds fs /\
    os.log fs'
    = os.log fs
      ++ libaserv.resample_calls stem (bool_decide (is_Some (ffmpeg c))) /\
    match ffmpeg c with
    | Some out =>
        os.content (stem +:+ ".wav") fs' = None /\
        os.content (stem +:+ "_whisper.wav") fs' = Some out
    | None => os.content (stem +:+ ".wav") fs' = Some c
    end.
Proof.
  intros Hd Hi. unfold audio.ResampleForWhisper.
  rewrite outputPath_wav.
  unfold os.content at 1. cbn [os.logged os.dir os.inodes]. rewrite Hd, Hi.
  cbn [mbind option_bind].
  destruct (ffmpeg c) as [out|] eqn:E.
  - eexists. split; [reflexivity|]. cbn.
    split; [reflexivity|]. split; [rewrite <- app_assoc; reflexivity|].
    split.
    + unfold os.content. cbn. rewrite lookup_delete_eq. reflexivity.
    + unfold os.content. cbn.
      rewrite lookup_delete_ne by apply stem_wav_not_whisper.
      rewrite lookup_insert_eq.
      rewrite lookup_app_r by lia. rewrite Nat.sub_diag. reflexivity.
  - eexists. split; [reflexivity|]. cbn.
    split; [reflexivity|]. split; [reflexivity|].
    unfold os.content. cbn. rewrite Hd. exact Hi.
Qed.

(** What the handler does at an end marker in the Recording state. *)
Lemma iteration_end_marker
  (env : libaserv.Env) (st : libaserv.State) (fd : nat) (stem : string)
  (start : Z) (bs rest : list (Z * byte)) :
  libaserv.Recording st fd stem start ->
  libaserv.conn st = bs ++ rest ->
  map snd bs = libaserv.end_marker ->
  let duration := libaserv.arrival (libaserv.now st) bs - start in
  let buffer := libaserv.transmissionBuffer st in
  let d := wrap32 (Z.of_nat (length buffer)) in
  let patched := audio.container (wrap32 (d + 36)) d buffer in
  exists st',
    libaserv.iteration env st = libaserv.check_ctx env st' /\
    libaserv.conn st' = rest /\
    libaserv.isReceivingTransmission st' = false /\
    os.is_open fd (libaserv.fs st') = false /\
    (duration < time.Second ->
     os.log (libaserv.fs st')
     = os.log (libaserv.fs st)
       ++ [os.CClose fd; os.CRemove (stem +:+ ".wav")] /\
     os.content (stem +:+ ".wav") (libaserv.fs st') = None) /\
    (time.Second <= duration ->
     libaserv.file st' = None /\
     os.log (libaserv.fs st')
     = os.log (libaserv.fs st)
       ++ libaserv.patch_calls fd d ++ [os.CClose fd]
       ++ libaserv.resample_calls stem
            (bool_decide (is_Some (libaserv.ffmpeg env patched))) /\
     match libaserv.ffmpeg env patched with
     | Some out =>
         os.content (stem +:+ ".wav") (libaserv.fs st') = None /\
         os.content (stem +:+ "_whisper.wav") (libaserv.fs st') = Some out
     | None => os.content (stem +:+ ".wav") (libaserv.fs st') = Some patched
     end).
Proof.
  intros (Hrec & Hfile & Hstart & i & Hdir & P) Hconn Hm.
  intros duration buffer d patched.
  pose proof (length_marker bs _ Hm eq_refl) as Hl4.
  unfold libaserv.iteration.
  rewrite <- Hl4, (ReadFull_app env st bs rest Hconn), Hm.
  change (default 0 (binary.BigEndian_Uint32 libaserv.end_marker)) with 0.
  cbn [Z.eqb]. simpl_state.
  rewrite Hstart, Since_lt_Second. fold duration.
  destruct (Z.ltb_spec duration time.Second) as [Hshort|Hlong].
  - (* short: close and remove *)
    rewrite Hfile.
    destruct (Close_then _ _ _ _ _ _ P) as (fs1 & -> & HN & Hop & _ & _ & L1).
    rewrite HN.
    eexists. split; [reflexivity|]. simpl_state.
    do 2 (split; [reflexivity|]).
    split; [rewrite is_open_Remove; exact Hop|].
    split; [|intros; lia].
    intros _. split; [|apply content_Remove].
    cbn. rewrite L1, <- app_assoc. reflexivity.
  - (* one second or more: patch, close, resample *)
    unfold libaserv.finishCurrentFile. simpl_state. rewrite Hfile.
    fold buffer. fold d.
    destruct (UpdateWavHeader_points _ _ _ _ _ _ d P)
      as (fs1 & -> & P1 & D1 & L1).
    rewrite patch_of_container in P1. fold buffer in P1. fold patched in P1.
    destruct (Close_then _ _ _ _ _ _ P1) as (fs2 & -> & HN & Hop & I2 & D2 & L2).
    rewrite (points_Name _ _ _ _ _ _ P1).
    destruct (ResampleForWhisper_linked (libaserv.ffmpeg env) fs2 stem i patched)
      as (fs3 & -> & F3 & L3 & C3).
    { congruence. }
    { rewrite I2. apply P1. }
    eexists. split; [reflexivity|]. simpl_state.
    do 2 (split; [reflexivity|]).
    split.
    { unfold os.is_open in *. rewrite F3. exact Hop. }
    split; [intros; lia|].
    intros _. split; [reflexivity|]. split; [|exact C3].
    rewrite L3, L2, L1. unfold libaserv.patch_calls.
    rewrite <- !app_assoc. reflexivity.
Qed.

(** C3 (as amended).  In the Recording state, at an end marker: when the
utterance lasted strictly less than one second, the artifact is closed
and removed, and the handler makes no other call (no header patch, no
resample); when it lasted one second or more (exactly one second
included), the header is patched with the byte count of the buffer
reduced modulo 2^32 (the [uint32] the handler converts it to; the byte
count itself whenever it is below 2^32), the file is closed, and the
resample step is run on the artifact's path, so that on its success the
artifact is replaced by its [_whisper] sibling and on its failure the
patched artifact stays.  In both cases the handler leaves the Recording
state and goes on to the next frame unless the context is cancelled. *)
Theorem end_marker_short_or_finalized
  (env : libaserv.Env) (st : libaserv.State) (fd : nat) (stem : string)
  (start : Z) (bs rest : list (Z * byte)) :
  libaserv.Recording st fd stem start ->
  libaserv.conn st = bs ++ rest ->
  map snd bs = libaserv.end_marker ->
  let duration := libaserv.arrival (libaserv.now st) bs - start in
  let buffer := libaserv.transmissionBuffer st in
  let d := wrap32 (Z.of_nat (length buffer)) in
  let patched := audio.container (wrap32 (d + 36)) d buffer in
  d = Z.of_nat (length buffer) mod 2 ^ 32 /\
  (Z.of_nat (length buffer) < 2 ^ 32 -> d = Z.of_nat (length buffer)) /\
  exists st',
    libaserv.iteration env st = libaserv.check_ctx env st' /\
    libaserv.conn st' = rest /\
    libaserv.isReceivingTransmission st' = false /\
    os.is_open fd (libaserv.fs st') = false /\
    (duration < time.Second ->
     os.log (libaserv.fs st')
     = os.log (libaserv.fs st)
       ++ [os.CClose fd; os.CRemove (stem +:+ ".wav")] /\
     os.content (stem +:+ ".wav") (libaserv.fs st') = None) /\
    (time.Second <= duration ->
     libaserv.file st' = None /\
     os.log (libaserv.fs st')
     = os.log (libaserv.fs st)
       ++ libaserv.patch_calls fd d ++ [os.CClose fd]
       ++ libaserv.resample_calls stem
            (bool_decide (is_Some (libaserv.ffmpeg env patched))) /\
     match libaserv.ffmpeg env patched with
     | Some out =>
         os.content (stem +:+ ".wav") (libaserv.fs st') = None /\
         os.content (stem +:+ "_whisper.wav") (libaserv.fs st') = Some out
     | None => os.content (stem +:+ ".wav") (libaserv.fs st') = Some patched
     end).
Proof.
  intros Hrec Hconn Hm duration buffer d patched.
  split; [reflexivity|]. split.
  - intros H. apply wrap32_small. split; [lia|exact H].
  - exact (iteration_end_marker env st fd stem start bs rest Hrec Hconn Hm).
Qed.

(** The theorem at work on an utterance of four bytes whose end marker
arrives exactly one second after its start marker: it is finalized. *)
Lemma end_marker_short_or_finalized_witness :
  let env := libaserv.example_env 5000000000 in
  let payload := [Byte.x00; Byte.x01; Byte.x00; Byte.x02] in
  let stream :=
    libaserv.at_time 0 libaserv.start_marker
    ++ libaserv.at_time 0 (libaserv.payload_frame payload)
    ++ libaserv.at_time 1000000000 libaserv.end_marker in
  let st0 := libaserv.mkState stream 0 os.empty "" [] false None None in
  let st2 :=
    match libaserv.iterate env 2 st0 with
    | libaserv.Continue st => st
    | _ => st0
    end in
  let stem :=
    "recordings/20240123/550e8400-e29b-41d4-a716-446655440000/audio_000000" in
  exists st',
    libaserv.iteration env st2 = libaserv.Continue st' /\
    libaserv.file st' = None /\
    os.content (stem +:+ ".wav") (libaserv.fs st') = None /\
    os.content (stem +:+ "_whisper.wav") (libaserv.fs st')
    = Some (audio.container 40 4 payload).
Proof.
  intros env payload stream st0 st2 stem.
  assert (Hrec : libaserv.Recording st2 0 stem 0).
  { split; [reflexivity|]. split; [reflexivity|]. split; [reflexivity|].
    exists 0%nat. split; [vm_compute; reflexivity|].
    split; vm_compute; reflexivity. }
  destruct (end_marker_short_or_finalized env st2 0 stem 0
              (libaserv.at_time 1000000000 libaserv.end_marker) []
              Hrec eq_refl eq_refl)
    as (_ & _ & st' & Hit & _ & _ & _ & _ & Hlong).
  exists st'. split; [exact Hit|].
  destruct (Hlong ltac:(vm_compute; discriminate)) as (Hfile & _ & Hc).
  split; [exact Hfile|]. exact Hc.
Defined.

(** *** A payload frame that the peer does not complete *)



Lemma check_ctx_never env st :
  (forall t, libaserv.ctx_Done env t = false) ->
  libaserv.check_ctx env st = libaserv.Continue st.
Proof. intros H. unfold libaserv.check_ctx. rewrite H. reflexivity. Qed.

Lemma iterate_S env k st st1 :
  libaserv.iteration env st = libaserv.Continue st1 ->
  libaserv.iterate env (S k) st = libaserv.iterate env k st1.
Proof. intros H. cbn [libaserv.iterate]. rewrite H. reflexivity. Qed.

Lemma iterate_add env j k st st1 :
  libaserv.iterate env j st = libaserv.Continue st1 ->
  libaserv.iterate env (j + k) st = libaserv.iterate env k st1.
Proof.
  revert st. induction j as [|j IH]; intros st H.
  - cbn in H. inversion H. reflexivity.
  - cbn [libaserv.iterate Nat.add] in *.
    destruct (libaserv.iteration env st) as [st2| |]; try discriminate.
    apply IH. exact H.
Qed.


Lemma length_chunk_2GiB : Z.of_nat (length libaserv.chunk_2GiB) = 2147483648.
Proof.
  unfold libaserv.chunk_2GiB. rewrite repeat_length. apply Z2Nat.id. lia.
Qed.




(** *** A whole utterance *)

Lemma at_time_app t (a b : list byte) :
  libaserv.at_time t (a ++ b) = libaserv.at_time t a ++ libaserv.at_time t b.
Proof. apply map_app. Qed.

Lemma iterate_frames env (frames : list (Z * list byte)) :
  (forall t, libaserv.ctx_Done env t = false) ->
  forall st fd stem start rest,
    libaserv.Recording st fd stem start ->
    libaserv.conn st = libaserv.frames_on_wire frames ++ rest ->
    Forall (fun f => 0 < Z.of_nat (length f.2) < 4294967295) frames ->
    exists st',
      libaserv.iterate env (length frames) st = libaserv.Continue st' /\
      libaserv.conn st' = rest /\
      libaserv.now st' = libaserv.frames_arrival (libaserv.now st) frames /\
      libaserv.transmissionBuffer st'
      = libaserv.transmissionBuffer st ++ concat (map snd frames) /\
      libaserv.Recording st' fd stem start /\
      os.log (libaserv.fs st')
      = os.log (libaserv.fs st) ++ map (fun f => os.CWrite fd f.2) frames.
Proof.
  intros Hnever.
  induction frames as [|[t p] frames IH]; intros st fd stem start rest Hrec Hconn Hall.
  - exists st. cbn [libaserv.frames_on_wire map concat app] in Hconn.
    cbn [length libaserv.iterate libaserv.frames_arrival fold_left map concat].
    rewrite !app_nil_r. repeat (split; [first [reflexivity|assumption]|]).
    reflexivity.
  - inversion Hall as [|? ? Hp Hrest]; subst. cbn [snd fst] in Hp.
    assert (Hpne : p <> []) by (intros ->; cbn in Hp; lia).
    unfold libaserv.frames_on_wire in Hconn. cbn [map concat fst snd] in Hconn.
    fold (libaserv.frames_on_wire frames) in Hconn.
    unfold libaserv.payload_frame in Hconn.
    rewrite at_time_app, <- !app_assoc in Hconn.
    destruct (iteration_payload env st fd stem start
                (libaserv.at_time t
                   (binary.BigEndian_PutUint32 (Z.of_nat (length p))))
                (libaserv.at_time t p)
                (libaserv.frames_on_wire frames ++ rest)
                (Z.of_nat (length p))
                Hrec Hconn (snd_at_time _ _) Hp
                ltac:(rewrite length_at_time; reflexivity))
      as (st1 & H1 & Hc1 & Hn1 & Hb1 & Hrec1 & L1).
    rewrite check_ctx_never in H1 by exact Hnever.
    destruct (IH st1 fd stem start rest Hrec1 Hc1 Hrest)
      as (st2 & H2 & Hc2 & Hn2 & Hb2 & Hrec2 & L2).
    exists st2.
    split; [cbn [length]; rewrite (iterate_S env _ st st1 H1); exact H2|].
    split; [exact Hc2|].
    split.
    { rewrite Hn2, Hn1. cbn [libaserv.frames_arrival fold_left fst].
      rewrite !arrival_at_time
        by first [exact Hpne
                 |unfold binary.BigEndian_PutUint32; discriminate].
      replace (Z.max (Z.max (libaserv.now st) t) t)
        with (Z.max (libaserv.now st) t) by lia.
      reflexivity. }
    split.
    { rewrite Hb2, Hb1, snd_at_time. cbn [map concat snd].
      rewrite <- app_assoc. reflexivity. }
    split; [exact Hrec2|].
    rewrite L2, L1, snd_at_time. cbn [map snd]. rewrite <- app_assoc.
    reflexivity.
Qed.

(** A whole utterance, from its start marker to its end marker. *)
Lemma utterance_finalized
  (env : libaserv.Env) (st : libaserv.State) (t0 t1 : Z)
  (frames : list (Z * list byte)) (rest : list (Z * byte)) :
  (forall t, libaserv.ctx_Done env t = false) ->
  os.wf (libaserv.fs st) ->
  libaserv.conn st
  = libaserv.at_time t0 libaserv.start_marker
    ++ libaserv.frames_on_wire frames
    ++ libaserv.at_time t1 libaserv.end_marker ++ rest ->
  Forall (fun f => 0 < Z.of_nat (length f.2) < 4294967295) frames ->
  let ts := Z.max (libaserv.now st) t0 in
  libaserv.MkdirAll_ok env
    (libaserv.filepath_Join
       (libaserv.filepath_Join "recordings" (libaserv.format_20060102 env ts))
       (libaserv.clientID env)) ts = true ->
  libaserv.Create_ok env (libaserv.wavPath env ts) ts = true ->
  let te := Z.max (libaserv.frames_arrival ts frames) t1 in
  time.Second <= te - ts ->
  let fd := length (os.fds (libaserv.fs st)) in
  let stem := libaserv.wavStem env ts in
  let payload := concat (map snd frames) in
  let total := Z.of_nat (length payload) in
  let patched :=
    audio.container (wrap32 (wrap32 total + 36)) (wrap32 total) payload in
  exists st',
    libaserv.iterate env (S (length frames + 1)) st = libaserv.Continue st' /\
    libaserv.conn st' = rest /\
    os.log (libaserv.fs st')
    = os.log (libaserv.fs st)
      ++ [os.CCreate (stem +:+ ".wav") fd;
          os.CWrite fd (audio.encode (audio.header 0))]
      ++ map (fun f => os.CWrite fd f.2) frames
      ++ libaserv.patch_calls fd (wrap32 total) ++ [os.CClose fd]
      ++ libaserv.resample_calls stem
           (bool_decide (is_Some (libaserv.ffmpeg env patched))) /\
    match libaserv.ffmpeg env patched with
    | Some out =>
        os.content (stem +:+ ".wav") (libaserv.fs st') = None /\
        os.content (stem +:+ "_whisper.wav") (libaserv.fs st') = Some out
    | None => os.content (stem +:+ ".wav") (libaserv.fs st') = Some patched
    end /\
    binary.LittleEndian_Uint32 (drop 40 patched) = Some (total mod 2 ^ 32) /\
    (total < 2 ^ 32 ->
     binary.LittleEndian_Uint32 (drop 40 patched) = Some total) /\
    drop 44 patched = payload.
Proof.
  intros Hnever Hwf Hconn Hall ts Hmk Hcr te Hdur fd stem payload total patched.
  assert (Hts : libaserv.arrival (libaserv.now st)
                  (libaserv.at_time t0 libaserv.start_marker) = ts).
  { apply arrival_at_time. unfold libaserv.start_marker. discriminate. }
  destruct (iteration_start env st _ _ Hconn (snd_at_time _ _) Hwf)
    as (st1 & H1 & Hc1 & Hn1 & Hb1 & Hrec1 & L1).
  { rewrite Hts. exact Hmk. }
  { rewrite Hts. exact Hcr. }
  rewrite Hts in *. fold stem fd in Hrec1, L1.
  rewrite check_ctx_never in H1 by exact Hnever.
  destruct (iterate_frames env frames Hnever st1 fd stem ts _ Hrec1 Hc1 Hall)
    as (st2 & H2 & Hc2 & Hn2 & Hb2 & Hrec2 & L2).
  rewrite Hb1 in Hb2. cbn [app] in Hb2. fold payload in Hb2.
  destruct (iteration_end_marker env st2 fd stem ts _ _
              Hrec2 Hc2 (snd_at_time _ _))
    as (st3 & H3 & Hc3 & _ & _ & _ & Hlong).
  rewrite check_ctx_never in H3 by exact Hnever.
  rewrite arrival_at_time in Hlong
    by (unfold libaserv.end_marker; discriminate).
  rewrite Hn2, Hn1, Hb2 in Hlong. fold te total patched in Hlong.
  destruct (Hlong Hdur) as (_ & L3 & C3).
  exists st3.
  split.
  { rewrite (iterate_S env _ st st1 H1).
    rewrite (iterate_add env _ 1 st1 st2 H2).
    apply (iterate_S env 0 st2 st3 H3). }
  split; [exact Hc3|].
  split.
  { rewrite L3, L2, L1, wavPath_stem. rewrite <- !app_assoc. reflexivity. }
  split; [exact C3|].
  pose proof (wrap32_range total) as Hd.
  pose proof (wrap32_range (wrap32 total + 36)) as Ht.
  destruct (container_fields _ _ payload Ht Hd) as (_ & F40 & F44).
  split; [exact F40|].
  split; [|exact F44].
  intros Hsmall. fold patched in F40. rewrite F40, wrap32_small; [reflexivity|].
  unfold total. lia.
Qed.

(** C5 (as amended).  For an utterance that a start marker opens, whose
payload frames all arrive, and that an end marker commits one second or
more after its start: the handler patches the header exactly once, and
the artifact it finalizes holds, in the data-size field at offset 40,
the total number of payload bytes received between the two markers
reduced modulo 2^32 (the [uint32] conversion of the buffer length), and
after the descriptor exactly those payload bytes; the field equals the
total itself whenever fewer than 2^32 bytes were received. *)
Theorem finalized_data_size
  (env : libaserv.Env) (st : libaserv.State) (t0 t1 : Z)
  (frames : list (Z * list byte)) (rest : list (Z * byte)) :
  (forall t, libaserv.ctx_Done env t = false) ->
  os.wf (libaserv.fs st) ->
  libaserv.conn st
  = libaserv.at_time t0 libaserv.start_marker
    ++ libaserv.frames_on_wire frames
    ++ libaserv.at_time t1 libaserv.end_marker ++ rest ->
  Forall (fun f => 0 < Z.of_nat (length f.2) < 4294967295) frames ->
  let ts := Z.max (libaserv.now st) t0 in
  libaserv.MkdirAll_ok env
    (libaserv.filepath_Join
       (libaserv.filepath_Join "recordings" (libaserv.format_20060102 env ts))
       (libaserv.clientID env)) ts = true ->
  libaserv.Create_ok env (libaserv.wavPath env ts) ts = true ->
  let te := Z.max (libaserv.frames_arrival ts frames) t1 in
  time.Second <= te - ts ->
  let fd := length (os.fds (libaserv.fs st)) in
  let stem := libaserv.wavStem env ts in
  let payload := concat (map snd frames) in
  let total := Z.of_nat (length payload) in
  let patched :=
    audio.container (wrap32 (wrap32 total + 36)) (wrap32 total) payload in
  exists st',
    libaserv.iterate env (S (length frames + 1)) st = libaserv.Continue st' /\
    libaserv.conn st' = rest /\
    os.log (libaserv.fs st')
    = os.log (libaserv.fs st)
      ++ [os.CCreate (stem +:+ ".wav") fd;
          os.CWrite fd (audio.encode (audio.header 0))]
      ++ map (fun f => os.CWrite fd f.2) frames
      ++ libaserv.patch_calls fd (wrap32 total) ++ [os.CClose fd]
      ++ libaserv.resample_calls stem
           (bool_decide (is_Some (libaserv.ffmpeg env patched))) /\
    match libaserv.ffmpeg env patched with
    | Some out =>
        os.content (stem +:+ ".wav") (libaserv.fs st') = None /\
        os.content (stem +:+ "_whisper.wav") (libaserv.fs st') = Some out
    | None => os.content (stem +:+ ".wav") (libaserv.fs st') = Some patched
    end /\
    binary.LittleEndian_Uint32 (drop 40 patched) = Some (total mod 2 ^ 32) /\
    (total < 2 ^ 32 ->
     binary.LittleEndian_Uint32 (drop 40 patched) = Some total) /\
    drop 44 patched = payload.
Proof. exact (utterance_finalized env st t0 t1 frames rest). Qed.

(** The theorem at work on scenario 1 of the specification: one frame
of four bytes, the end marker 1.2 s after the start marker. *)
Lemma finalized_data_size_witness :
  let env := libaserv.example_env 5000000000 in
  let payload := [Byte.x00; Byte.x01; Byte.x00; Byte.x02] in
  let st0 :=
    libaserv.mkState
      (libaserv.at_time 0 libaserv.start_marker
       ++ libaserv.frames_on_wire [(0, payload)]
       ++ libaserv.at_time 1200000000 libaserv.end_marker ++ [])
      0 os.empty "" [] false None None in
  exists st',
    libaserv.iterate env 3 st0 = libaserv.Continue st' /\
    os.content (libaserv.wavStem env 0 +:+ "_whisper.wav") (libaserv.fs st')
    = Some (audio.container 40 4 payload) /\
    binary.LittleEndian_Uint32 (drop 40 (audio.container 40 4 payload)) = Some 4.
Proof.
  intros env payload st0.
  destruct (finalized_data_size env st0 0 1200000000 [(0, payload)] []
              (fun _ => eq_refl) wf_empty eq_refl
              ltac:(repeat constructor; cbn; lia) eq_refl eq_refl
              ltac:(vm_compute; discriminate))
    as (st' & Hit & _ & _ & Hc & _ & Hsmall & _).
  exists st'. split; [exact Hit|]. split; [apply Hc|].
  apply Hsmall. vm_compute. reflexivity.
Defined.

(** Two frames of 2 GiB each, whatever their bytes, committed 1.2 s after
the start marker. *)
Lemma data_size_of_two_2GiB_frames (chunk : list byte) :
  Z.of_nat (length chunk) = 2147483648 ->
  Z.of_nat (length (chunk ++ chunk)) = 4294967296 /\
  exists st',
    libaserv.iterate (libaserv.example_env 5000000000) 4
      (libaserv.mkState
         (libaserv.at_time 0 libaserv.start_marker
          ++ libaserv.frames_on_wire [(0, chunk); (0, chunk)]
          ++ libaserv.at_time 1200000000 libaserv.end_marker ++ [])
         0 os.empty "" [] false None None)
    = libaserv.Continue st' /\
    os.content
      (libaserv.wavStem (libaserv.example_env 5000000000) 0 +:+ "_whisper.wav")
      (libaserv.fs st')
    = Some (audio.container 36 0 (chunk ++ chunk)) /\
    binary.LittleEndian_Uint32 (drop 40 (audio.container 36 0 (chunk ++ chunk)))
    = Some 0 /\
    drop 44 (audio.container 36 0 (chunk ++ chunk)) = chunk ++ chunk.
Proof.
  intros Hlen.
  set (env := libaserv.example_env 5000000000).
  set (frames := [(0, chunk); (0, chunk)]).
  set (st0 := libaserv.mkState _ 0 os.empty "" [] false None None).
  assert (Htotal : Z.of_nat (length (chunk ++ chunk)) = 4294967296).
  { rewrite length_app, Nat2Z.inj_add, Hlen. reflexivity. }
  split; [exact Htotal|].
  assert (Hall : Forall (fun f : Z * list byte =>
                           0 < Z.of_nat (length f.2) < 4294967295) frames).
  { unfold frames. constructor; [|constructor; [|constructor]];
      cbn [snd]; rewrite Hlen; lia. }
  assert (Hdur : time.Second
                 <= Z.max (libaserv.frames_arrival (Z.max 0 0) frames) 1200000000
                    - Z.max 0 0).
  { unfold frames. cbn [libaserv.frames_arrival fold_left fst].
    unfold time.Second. lia. }
  destruct (utterance_finalized env st0 0 1200000000 frames []
              (fun _ => eq_refl) wf_empty eq_refl Hall eq_refl eq_refl Hdur)
    as (st' & Hit & _ & _ & Hc & _ & _ & _).
  cbn [libaserv.ffmpeg libaserv.example_env env] in Hc.
  unfold frames in Hc. cbn [map concat snd] in Hc.
  rewrite app_nil_r in Hc. rewrite Htotal in Hc.
  change (wrap32 4294967296) with 0 in Hc.
  change (wrap32 (0 + 36)) with 36 in Hc.
  exists st'. split; [exact Hit|]. split; [apply Hc|].
  destruct (container_fields 36 0 (chunk ++ chunk) ltac:(lia) ltac:(lia))
    as (_ & F40 & F44).
  split; [exact F40|exact F44].
Qed.

(** C5 as stated fails once an utterance carries 2^32 bytes or more:
after two frames of 2 GiB each, committed 1.2 s after the start marker,
the finalized artifact holds 4294967296 payload bytes and a data-size
field of 0. *)
Lemma data_size_wraps_at_4GiB :
  Z.of_nat (length (libaserv.chunk_2GiB ++ libaserv.chunk_2GiB)) = 4294967296 /\
  exists st',
    libaserv.iterate (libaserv.example_env 5000000000) 4
      (libaserv.mkState
         (libaserv.at_time 0 libaserv.start_marker
          ++ libaserv.frames_on_wire
               [(0, libaserv.chunk_2GiB); (0, libaserv.chunk_2GiB)]
          ++ libaserv.at_time 1200000000 libaserv.end_marker ++ [])
         0 os.empty "" [] false None None)
    = libaserv.Continue st' /\
    os.content
      (libaserv.wavStem (libaserv.example_env 5000000000) 0 +:+ "_whisper.wav")
      (libaserv.fs st')
    = Some (audio.container 36 0 (libaserv.chunk_2GiB ++ libaserv.chunk_2GiB)) /\
    binary.LittleEndian_Uint32
      (drop 40 (audio.container 36 0
                  (libaserv.chunk_2GiB ++ libaserv.chunk_2GiB)))
    = Some 0 /\
    drop 44 (audio.container 36 0 (libaserv.chunk_2GiB ++ libaserv.chunk_2GiB))
    = libaserv.chunk_2GiB ++ libaserv.chunk_2GiB.
Proof. exact (data_size_of_two_2GiB_frames libaserv.chunk_2GiB length_chunk_2GiB). Qed.

(** The handler at the end marker of an utterance of two frames of 2 GiB
each, whatever their bytes, 1.2 s after the start marker. *)
Lemma end_marker_after_two_2GiB_frames (chunk : list byte) :
  Z.of_nat (length chunk) = 2147483648 ->
  exists st,
    libaserv.iterate (libaserv.example_env 5000000000) 3
      (libaserv.mkState
         (libaserv.at_time 0 libaserv.start_marker
          ++ libaserv.frames_on_wire [(0, chunk); (0, chunk)]
          ++ libaserv.at_time 1200000000 libaserv.end_marker ++ [])
         0 os.empty "" [] false None None)
    = libaserv.Continue st /\
    libaserv.Recording st 0
      (libaserv.wavStem (libaserv.example_env 5000000000) 0) 0 /\
    Z.of_nat (length (libaserv.transmissionBuffer st)) = 4294967296 /\
    exists st',
      libaserv.iteration (libaserv.example_env 5000000000) st
      = libaserv.Continue st' /\
      os.log (libaserv.fs st')
      = os.log (libaserv.fs st)
        ++ libaserv.patch_calls 0 0 ++ [os.CClose 0]
        ++ libaserv.resample_calls
             (libaserv.wavStem (libaserv.example_env 5000000000) 0) true.
Proof.
  intros Hlen.
  set (env := libaserv.example_env 5000000000).
  set (frames := [(0, chunk); (0, chunk)]).
  set (st0 := libaserv.mkState _ 0 os.empty "" [] false None None).
  assert (Hnever : forall t, libaserv.ctx_Done env t = false)
    by (intros t; reflexivity).
  assert (Hall : Forall (fun f : Z * list byte =>
                           0 < Z.of_nat (length f.2) < 4294967295) frames).
  { unfold frames. constructor; [|constructor; [|constructor]];
      cbn [snd]; rewrite Hlen; lia. }
  destruct (iteration_start env st0 (libaserv.at_time 0 libaserv.start_marker) _
              eq_refl (snd_at_time _ _) wf_empty eq_refl eq_refl)
    as (st1 & H1 & Hc1 & Hn1 & Hb1 & Hrec1 & _).
  rewrite check_ctx_never in H1 by exact Hnever.
  rewrite arrival_at_time in Hn1, Hrec1
    by (unfold libaserv.start_marker; discriminate).
  change (Z.max (libaserv.now st0) 0) with 0 in Hn1, Hrec1.
  change (length (os.fds (libaserv.fs st0))) with 0%nat in Hrec1.
  destruct (iterate_frames env frames Hnever st1 0%nat _ 0 _ Hrec1 Hc1 Hall)
    as (st2 & H2 & Hc2 & Hn2 & Hb2 & Hrec2 & _).
  rewrite Hb1 in Hb2. unfold frames in Hb2. cbn [map concat snd app] in Hb2.
  rewrite app_nil_r in Hb2.
  assert (Htotal : Z.of_nat (length (libaserv.transmissionBuffer st2))
                   = 4294967296).
  { rewrite Hb2, length_app, Nat2Z.inj_add, Hlen. reflexivity. }
  exists st2. split.
  { rewrite (iterate_S env _ st0 st1 H1). exact H2. }
  split; [exact Hrec2|]. split; [exact Htotal|].
  destruct (iteration_end_marker env st2 0%nat _ 0 _ _ Hrec2 Hc2 (snd_at_time _ _))
    as (st3 & H3 & _ & _ & _ & _ & Hlong).
  rewrite check_ctx_never in H3 by exact Hnever.
  rewrite arrival_at_time in Hlong
    by (unfold libaserv.end_marker; discriminate).
  rewrite Hn2, Hn1, Htotal in Hlong.
  change (wrap32 4294967296) with 0 in Hlong.
  destruct Hlong as (_ & L3 & _).
  { unfold frames. cbn [libaserv.frames_arrival fold_left fst].
    unfold time.Second. lia. }
  exists st3. split; [exact H3|]. exact L3.
Qed.

(** C3 as stated fails once the buffer of an utterance holds 2^32 bytes
or more: at the end marker of an utterance of two frames of 2 GiB each,
1.2 s after its start marker, the buffer holds 4294967296 bytes and the
header is patched with a data size of 0, not with that byte count. *)
Lemma end_marker_patches_zero_at_4GiB :
  exists st,
    libaserv.iterate (libaserv.example_env 5000000000) 3
      (libaserv.mkState
         (libaserv.at_time 0 libaserv.start_marker
          ++ libaserv.frames_on_wire
               [(0, libaserv.chunk_2GiB); (0, libaserv.chunk_2GiB)]
          ++ libaserv.at_time 1200000000 libaserv.end_marker ++ [])
         0 os.empty "" [] false None None)
    = libaserv.Continue st /\
    libaserv.Recording st 0
      (libaserv.wavStem (libaserv.example_env 5000000000) 0) 0 /\
    Z.of_nat (length (libaserv.transmissionBuffer st)) = 4294967296 /\
    exists st',
      libaserv.iteration (libaserv.example_env 5000000000) st
      = libaserv.Continue st' /\
      os.log (libaserv.fs st')
      = os.log (libaserv.fs st)
        ++ libaserv.patch_calls 0 0 ++ [os.CClose 0]
        ++ libaserv.resample_calls
             (libaserv.wavStem (libaserv.example_env 5000000000) 0) true.
Proof. exact (end_marker_after_two_2GiB_frames libaserv.chunk_2GiB length_chunk_2GiB). Qed.

(** *** The handler returns *)

Lemma conn_startFile env st :
  libaserv.conn (libaserv.startFile env st).2 = libaserv.conn st.
Proof.
  unfold libaserv.startFile, libaserv.createWavFile, libaserv.updateCurrentDay.
  destruct (decide _); simpl_state;
    (destruct (libaserv.MkdirAll_ok env _ _); cbn [negb]; [|reflexivity]);
    (destruct (os.Create _ _ _) as [[fd|] fs1]; simpl_state; [|reflexivity]);
    destruct (audio.WriteWavHeader fd 0 fs1); reflexivity.
Qed.

Lemma conn_finishCurrentFile env st st' :
  libaserv.finishCurrentFile env st = audio.Done st' ->
  libaserv.conn st' = libaserv.conn st.
Proof.
  unfold libaserv.finishCurrentFile.
  destruct (libaserv.file st) as [fd|]; [|intros H; inversion H; reflexivity].
  destruct (audio.UpdateWavHeader _ _ _) as [ok fs1].
  destruct (os.Close _ _) as [ok2 fs2].
  destruct (audio.ResampleForWhisper _ _ _) as [|[ok3 fs3]]; [discriminate|].
  intros H. inversion H. reflexivity.
Qed.

Lemma check_ctx_Continue env st st' :
  libaserv.check_ctx env st = libaserv.Continue st' -> st' = st.
Proof.
  unfold libaserv.check_ctx. destruct (libaserv.ctx_Done env _); [discriminate|].
  intros H. inversion H. reflexivity.
Qed.

Lemma ReadFull_conn env n st bs st' :
  libaserv.ReadFull env n st = (inr bs, st') ->
  (n <= length (libaserv.conn st))%nat /\
  libaserv.conn st' = drop n (libaserv.conn st).
Proof.
  unfold libaserv.ReadFull.
  destruct (Nat.leb_spec n (length (libaserv.conn st))) as [Hle|Hgt];
    [|discriminate].
  intros Heq. inversion Heq. auto.
Qed.

(** A turn that continues has consumed the four bytes of a prefix. *)
Lemma iteration_consumes env st st' :
  libaserv.iteration env st = libaserv.Continue st' ->
  (length (libaserv.conn st') + 4 <= length (libaserv.conn st))%nat.
Proof.
  unfold libaserv.iteration.
  destruct (libaserv.ReadFull env 4 st) as [[e|marker] st1] eqn:ER.
  { destruct (libaserv.isReceivingTransmission st1);
      [destruct (libaserv.file st1)|]; discriminate. }
  apply ReadFull_conn in ER as [Hlen Hconn].
  assert (Hst1 : (length (libaserv.conn st1) + 4 <= length (libaserv.conn st))%nat).
  { rewrite Hconn, length_drop. lia. }
  destruct (_ =? 4294967295).
  { pose proof (conn_startFile env
        (libaserv.mkState (libaserv.conn st1) (libaserv.now st1)
           (libaserv.fs st1) (libaserv.currentDay st1) [] true
           (libaserv.file st1) (Some (libaserv.now st1)))) as Hs.
    destruct (libaserv.startFile env _) as [ok st3]. cbn [snd] in Hs.
    simpl_state. destruct ok; [|discriminate].
    intros H. apply check_ctx_Continue in H. subst st'. rewrite Hs. exact Hst1. }
  destruct (_ =? 0).
  { simpl_state. destruct (_ <? time.Second).
    - destruct (libaserv.file st1) as [fd|].
      + destruct (os.Close _ _) as [ok fs1].
        intros H. apply check_ctx_Continue in H. subst st'. exact Hst1.
      + intros H. apply check_ctx_Continue in H. subst st'. exact Hst1.
    - destruct (libaserv.finishCurrentFile env _) as [|st3] eqn:EF; [discriminate|].
      apply conn_finishCurrentFile in EF. simpl_state.
      intros H. apply check_ctx_Continue in H. subst st'. rewrite EF. exact Hst1. }
  destruct (libaserv.isReceivingTransmission st1).
  - destruct (libaserv.ReadFull env _ st1) as [[e|chunk] st2] eqn:ER2;
      [discriminate|].
    apply ReadFull_conn in ER2 as [Hlen2 Hconn2].
    assert (Hst2 : (length (libaserv.conn st2) + 4 <= length (libaserv.conn st))%nat).
    { rewrite Hconn2, length_drop. lia. }
    simpl_state. destruct (libaserv.file st2) as [fd|].
    + destruct (os.Write _ _ _) as [ok fs1].
      intros H. apply check_ctx_Continue in H. subst st'. exact Hst2.
    + intros H. apply check_ctx_Continue in H. subst st'. exact Hst2.
  - intros H. apply check_ctx_Continue in H. subst st'. exact Hst1.
Qed.

Lemma loop_returns env (fuel : nat) :
  forall st, (length (libaserv.conn st) < fuel)%nat ->
             exists o, libaserv.loop env fuel st = Some o.
Proof.
  induction fuel as [|fuel IH]; intros st Hlt; [lia|].
  cbn [libaserv.loop].
  destruct (libaserv.iteration env st) as [st'| st' |] eqn:E; eauto.
  apply IH. apply iteration_consumes in E. lia.
Qed.

(** [handleConnection] returns (or panics) on every stream: the fuel of
the model never runs out. *)
Theorem handleConnection_returns env stream t0 fs0 day :
  exists o, libaserv.handleConnection env stream t0 fs0 day = Some o.
Proof.
  unfold libaserv.handleConnection.
  destruct (libaserv.sendClientID_ok env); cbn [negb]; [|eauto].
  apply loop_returns. cbn. lia.
Qed.

(** *** The peer closes the stream *)

Lemma name_not_incomplete (name : string) : name <> name +:+ ".incomplete".
Proof.
  intros H. apply (f_equal String.length) in H.
  rewrite length_append in H. cbn in H. lia.
Qed.

(** At a frame boundary: the incomplete-utterance policy runs. *)
Lemma iteration_peer_close env st fd stem start :
  libaserv.Recording st fd stem start ->
  (length (libaserv.conn st) < 4)%nat ->
  let t := Z.max (libaserv.arrival (libaserv.now st) (libaserv.conn st))
                 (libaserv.peer_closes_at env) in
  let name := stem +:+ ".wav" in
  exists st',
    libaserv.iteration env st = libaserv.Return st' /\
    os.is_open fd (libaserv.fs st') = false /\
    (t - start < time.Second ->
     os.log (libaserv.fs st')
     = os.log (libaserv.fs st) ++ [os.CClose fd; os.CRemove name] /\
     os.content name (libaserv.fs st') = None) /\
    (time.Second <= t - start ->
     os.log (libaserv.fs st')
     = os.log (libaserv.fs st)
       ++ [os.CClose fd; os.CRename name (name +:+ ".incomplete")] /\
     os.content name (libaserv.fs st') = None /\
     os.content (name +:+ ".incomplete") (libaserv.fs st')
     = Some (audio.container 36 0 (libaserv.transmissionBuffer st))).
Proof.
  intros (Hrec & Hfile & Hstart & i & Hdir & P) Hlen t name.
  unfold libaserv.iteration.
  destruct (ReadFull_short env st 4 Hlen) as (e & t' & -> & Ht).
  fold t in Ht. subst t'. simpl_state. rewrite Hrec, Hfile, Hstart.
  unfold libaserv.handleIncompleteTransmission. simpl_state.
  rewrite Since_lt_Second.
  destruct (Close_then _ _ _ _ _ _ P) as (fs1 & -> & HN & Hop & I1 & D1 & L1).
  rewrite HN. fold name.
  destruct (Z.ltb_spec (t - start) time.Second) as [Hshort|Hlong].
  - eexists. split; [reflexivity|]. simpl_state.
    split; [exact Hop|]. split; [|intros; lia].
    intros _. split; [|apply content_Remove].
    cbn. rewrite L1, <- app_assoc. reflexivity.
  - eexists. split; [reflexivity|]. simpl_state.
    assert (Hd1 : os.dir fs1 !! name = Some i) by (rewrite D1; exact Hdir).
    unfold os.Rename. rewrite Hd1.
    split; [exact Hop|]. split; [intros; lia|].
    intros _. cbn. split; [rewrite L1, <- app_assoc; reflexivity|].
    unfold os.content. cbn. split.
    + rewrite lookup_insert_ne by (intros E; symmetry in E;
                                    exact (name_not_incomplete name E)).
      rewrite lookup_delete_eq. reflexivity.
    + rewrite lookup_insert_eq, I1. apply P.
Qed.

(** C1 at the failing input.  A start marker, the prefix of a frame of
four bytes and two of its bytes arrive at once, and the peer closes the
stream after 2 s: the handler returns from the failed read of the
payload without the incomplete-utterance policy, so the artifact stays
under its name, neither renamed nor removed (only the deferred close
runs).  When the same peer completes the frame before it closes, the
failed read of the next prefix does run the policy, and the artifact
is renamed. *)
Theorem eof_in_payload_skips_incomplete_policy :
  let env := libaserv.example_env 2000000000 in
  let name :=
    "recordings/20240123/550e8400-e29b-41d4-a716-446655440000/audio_000000.wav" in
  let marker := libaserv.at_time 0 libaserv.start_marker in
  (exists st,
     libaserv.handleConnection env
       (marker ++ libaserv.at_time 0 (binary.BigEndian_PutUint32 4)
        ++ libaserv.at_time 0 [Byte.x00; Byte.x01]) 0 os.empty ""
     = Some (libaserv.Returned st) /\
     libaserv.now st = 2000000000 /\
     os.log (libaserv.fs st)
     = [os.CCreate name 0; os.CWrite 0 (audio.encode (audio.header 0));
        os.CClose 0] /\
     os.content name (libaserv.fs st) = Some (audio.container 36 0 []) /\
     os.content (name +:+ ".incomplete") (libaserv.fs st) = None) /\
  (exists st,
     libaserv.handleConnection env
       (marker ++ libaserv.at_time 0
                    (libaserv.payload_frame [Byte.x00; Byte.x01]))
       0 os.empty ""
     = Some (libaserv.Returned st) /\
     libaserv.now st = 2000000000 /\
     os.log (libaserv.fs st)
     = [os.CCreate name 0; os.CWrite 0 (audio.encode (audio.header 0));
        os.CWrite 0 [Byte.x00; Byte.x01]; os.CClose 0;
        os.CRename name (name +:+ ".incomplete"); os.CClose 0] /\
     os.content name (libaserv.fs st) = None /\
     os.content (name +:+ ".incomplete") (libaserv.fs st)
     = Some (audio.container 36 0 [Byte.x00; Byte.x01])).
Proof.
  split; eexists; (split; [vm_compute; reflexivity|]);
    repeat split; vm_compute; reflexivity.
Qed.

(** C6 at the failing input.  Two start markers, 2 s apart, and the
peer closes the stream at 5 s.  The second marker opens a second
artifact while the first is still open and neither finalized, removed
nor renamed; the first descriptor is never closed, and the first
artifact stays on disk with its placeholder header. *)
Theorem second_start_marker_abandons_first_artifact :
  let env := libaserv.example_env 5000000000 in
  let dir := "recordings/20240123/550e8400-e29b-41d4-a716-446655440000/" in
  let first := dir +:+ "audio_000000.wav" in
  let second := dir +:+ "audio_000002.wav" in
  exists st,
    libaserv.handleConnection env
      (libaserv.at_time 0 libaserv.start_marker
       ++ libaserv.at_time 2000000000 libaserv.start_marker) 0 os.empty ""
    = Some (libaserv.Returned st) /\
    os.log (libaserv.fs st)
    = [os.CCreate first 0; os.CWrite 0 (audio.encode (audio.header 0));
       os.CCreate second 1; os.CWrite 1 (audio.encode (audio.header 0));
       os.CClose 1; os.CRename second (second +:+ ".incomplete");
       os.CClose 1] /\
    libaserv.one_at_a_time (os.log (libaserv.fs st)) = false /\
    os.is_open 0 (libaserv.fs st) = true /\
    os.content first (libaserv.fs st) = Some (audio.container 36 0 []).
Proof.
  eexists. split; [vm_compute; reflexivity|].
  repeat split; vm_compute; reflexivity.
Qed.

(** Scenario 4 of the specification, for comparison: two utterances
back to back, each ended by its end marker, are handled one at a time. *)
Example two_utterances_one_at_a_time :
  let env := libaserv.example_env 5000000000 in
  exists st,
    libaserv.handleConnection env
      (libaserv.at_time 0 libaserv.start_marker
       ++ libaserv.at_time 0 (libaserv.payload_frame [Byte.x00; Byte.x01])
       ++ libaserv.at_time 1500000000 libaserv.end_marker
       ++ libaserv.at_time 1500000000 libaserv.start_marker
       ++ libaserv.at_time 1500000000 (libaserv.payload_frame [Byte.x00; Byte.x02])
       ++ libaserv.at_time 1800000000 libaserv.end_marker) 0 os.empty ""
    = Some (libaserv.Returned st) /\
    libaserv.one_at_a_time (os.log (libaserv.fs st)) = true /\
    forallb (fun f => os.f_closed f) (os.fds (libaserv.fs st)) = true.
Proof.
  eexists. split; [vm_compute; reflexivity|].
  split; vm_compute; reflexivity.
Qed.

(** * Further properties of the code *)

(** ** The connection handler outside an utterance *)

Lemma ReadFull_four env st (a b c d : Z * byte) rest :
  libaserv.conn st = a :: b :: c :: d :: rest ->
  libaserv.ReadFull env 4 st
  = (inr [a.2; b.2; c.2; d.2],
     libaserv.mkState rest (libaserv.arrival (libaserv.now st) [a; b; c; d])
       (libaserv.fs st) (libaserv.currentDay st)
       (libaserv.transmissionBuffer st)
       (libaserv.isReceivingTransmission st) (libaserv.file st)
       (libaserv.transmissionStartTime st)).
Proof.
  intros H. exact (ReadFull_app env st [a; b; c; d] rest H).
Qed.

(** One turn in the Idle state on a prefix that is no start marker. *)
Lemma iteration_idle env st (a b c d : Z * byte) rest :
  libaserv.Idle st ->
  libaserv.conn st = a :: b :: c :: d :: rest ->
  default 0 (binary.BigEndian_Uint32 [a.2; b.2; c.2; d.2]) <> 4294967295 ->
  exists st',
    libaserv.iteration env st = libaserv.check_ctx env st' /\
    libaserv.conn st' = rest /\
    libaserv.fs st' = libaserv.fs st /\
    libaserv.currentDay st' = libaserv.currentDay st /\
    libaserv.Idle st'.
Proof.
  intros [Hfile Hrec] Hconn Hv.
  unfold libaserv.iteration. rewrite (ReadFull_four env st a b c d rest Hconn).
  set (v := default 0 (binary.BigEndian_Uint32 [a.2; b.2; c.2; d.2])) in *.
  destruct (Z.eqb_spec v 4294967295) as [?|_]; [contradiction|].
  simpl_state. rewrite Hfile, Hrec.
  destruct (v =? 0).
  - destruct (_ <? time.Second).
    + eexists. split; [reflexivity|]. simpl_state. repeat split; reflexivity.
    + unfold libaserv.finishCurrentFile. simpl_state.
      eexists. split; [reflexivity|]. simpl_state. repeat split; reflexivity.
  - eexists. split; [reflexivity|]. simpl_state. repeat split; assumption.
Qed.

Lemma iteration_idle_eof env st :
  libaserv.Idle st ->
  (length (libaserv.conn st) < 4)%nat ->
  exists st',
    libaserv.iteration env st = libaserv.Return st' /\
    libaserv.fs st' = libaserv.fs st /\
    libaserv.Idle st'.
Proof.
  intros [Hfile Hrec] Hlen. unfold libaserv.iteration.
  destruct (ReadFull_short env st 4 Hlen) as (e & t & -> & _).
  simpl_state. rewrite Hrec.
  eexists. split; [reflexivity|]. simpl_state. repeat split; assumption.
Qed.

Lemma deferred_idle st : libaserv.Idle st -> libaserv.deferred st = st.
Proof. intros [Hfile _]. unfold libaserv.deferred. rewrite Hfile. reflexivity. Qed.

Lemma loop_idle env (fuel : nat) :
  forall st,
    (length (libaserv.conn st) < fuel)%nat ->
    libaserv.Idle st ->
    Forall (fun v => v <> 4294967295) (libaserv.prefixes (libaserv.conn st)) ->
    exists st',
      libaserv.loop env fuel st = Some (libaserv.Returned st') /\
      libaserv.fs st' = libaserv.fs st /\
      libaserv.Idle st'.
Proof.
  induction fuel as [|fuel IH]; intros st Hlt Hidle Hall; [lia|].
  cbn [libaserv.loop].
  destruct (libaserv.conn st) as [|a [|b [|c [|d rest]]]] eqn:Hconn.
  1-4: destruct (iteration_idle_eof env st Hidle) as (st' & -> & Hfs & Hidle');
       [rewrite Hconn; cbn; lia|];
       exists st'; rewrite (deferred_idle st' Hidle'); auto.
  cbn [libaserv.prefixes] in Hall. inversion Hall as [|? ? Hv Hrest]; subst.
  destruct (iteration_idle env st a b c d rest Hidle Hconn Hv)
    as (st' & -> & Hc & Hfs & _ & Hidle').
  unfold libaserv.check_ctx. destruct (libaserv.ctx_Done env _).
  - exists st'. rewrite (deferred_idle st' Hidle'). auto.
  - destruct (IH st') as (st2 & H2 & Hfs2 & Hidle2).
    + rewrite Hc. cbn in Hlt. lia.
    + exact Hidle'.
    + rewrite Hc. exact Hrest.
    + exists st2. split; [exact H2|]. split; [congruence|exact Hidle2].
Qed.

(** X1.  As long as none of the four-byte prefixes the idle handler
reads is a start marker, [handleConnection] returns without a single
call on the file system: end markers and payload prefixes outside an
utterance create no artifact and leave every file as it is. *)
Theorem no_start_marker_no_artifact
  (env : libaserv.Env) (stream : list (Z * byte)) (t0 : Z) (fs0 : os.FS)
  (day : string) :
  Forall (fun v => v <> 4294967295) (libaserv.prefixes stream) ->
  exists st,
    libaserv.handleConnection env stream t0 fs0 day
    = Some (libaserv.Returned st) /\
    libaserv.fs st = fs0 /\
    libaserv.file st = None.
Proof.
  intros Hall. unfold libaserv.handleConnection.
  destruct (libaserv.sendClientID_ok env); cbn [negb].
  - destruct (loop_idle env (S (length stream))
                (libaserv.mkState stream t0 fs0 day [] false None None))
      as (st & H & Hfs & Hfile & _).
    + cbn. lia.
    + split; reflexivity.
    + exact Hall.
    + exists st. auto.
  - eexists. split; [reflexivity|]. split; reflexivity.
Qed.

(** The theorem at work: two end markers, then a prefix of 2 with its
two bytes and two bytes more (read as a second prefix). *)
Lemma no_start_marker_no_artifact_witness :
  let env := libaserv.example_env 1000000000 in
  let stream :=
    libaserv.at_time 0 libaserv.end_marker
    ++ libaserv.at_time 0 libaserv.end_marker
    ++ libaserv.at_time 0
         (libaserv.payload_frame [Byte.x01; Byte.x02] ++ [Byte.x03; Byte.x04]) in
  exists st,
    libaserv.handleConnection env stream 0 os.empty ""
    = Some (libaserv.Returned st) /\
    libaserv.fs st = os.empty /\ libaserv.file st = None.
Proof.
  intros env stream.
  apply (no_start_marker_no_artifact env stream 0 os.empty "").
  vm_compute. repeat constructor; discriminate.
Defined.

(** X2.  Outside an utterance ([isReceivingTransmission] is false) a
payload prefix is skipped on its own: the handler consumes the four
bytes of the prefix and nothing else, so the payload that follows stays
in the stream and its bytes are read as the next prefixes; no file is
touched and the variables of the handler keep their values. *)
Theorem payload_prefix_outside_utterance
  (env : libaserv.Env) (st : libaserv.State)
  (pre pay rest : list (Z * byte)) (n : Z) :
  libaserv.isReceivingTransmission st = false ->
  libaserv.conn st = pre ++ pay ++ rest ->
  map snd pre = binary.BigEndian_PutUint32 n ->
  0 < n < 4294967295 ->
  exists st',
    libaserv.iteration env st = libaserv.check_ctx env st' /\
    libaserv.conn st' = pay ++ rest /\
    libaserv.fs st' = libaserv.fs st /\
    libaserv.transmissionBuffer st' = libaserv.transmissionBuffer st /\
    libaserv.file st' = libaserv.file st /\
    libaserv.isReceivingTransmission st' = false.
Proof.
  intros Hrec Hconn Hpre Hn.
  pose proof (length_marker pre _ Hpre eq_refl) as Hl4.
  unfold libaserv.iteration.
  rewrite <- Hl4, (ReadFull_app env st pre (pay ++ rest) Hconn), Hpre.
  rewrite BigEndian_roundtrip by (change (2 ^ 32) with 4294967296; lia).
  cbn [default id].
  destruct (Z.eqb_spec n 4294967295) as [?|_]; [lia|].
  destruct (Z.eqb_spec n 0) as [?|_]; [lia|].
  simpl_state. rewrite Hrec.
  eexists. split; [reflexivity|]. simpl_state. repeat split; assumption.
Qed.

Lemma payload_prefix_outside_utterance_witness :
  let env := libaserv.example_env 1000000000 in
  let pre := libaserv.at_time 0 (binary.BigEndian_PutUint32 2) in
  let pay := libaserv.at_time 0 [Byte.x01; Byte.x02] in
  exists st',
    libaserv.iteration env
      (libaserv.mkState (pre ++ pay ++ []) 0 os.empty "" [] false None None)
    = libaserv.Continue st' /\
    libaserv.conn st' = pay ++ [].
Proof.
  intros env pre pay.
  destruct (payload_prefix_outside_utterance env
              (libaserv.mkState (pre ++ pay ++ []) 0 os.empty "" [] false
                 None None)
              pre pay [] 2 eq_refl eq_refl eq_refl ltac:(lia))
    as (st' & H & Hc & _).
  exists st'. split; [exact H|exact Hc].
Defined.

(** ** The handler never panics *)

Lemma names_insert_same (l : list os.File) (fd : nat) (f g : os.File) :
  l !! fd = Some f -> os.f_name g = os.f_name f ->
  map os.f_name (<[fd := g]> l) = map os.f_name l.
Proof.
  intros Hl Hn.
  change (map os.f_name (<[fd := g]> l)) with (os.f_name <$> <[fd := g]> l).
  rewrite list_fmap_insert, Hn.
  apply list_insert_id. rewrite list_lookup_fmap, Hl. reflexivity.
Qed.

Lemma names_Write fd data fs : os.names (os.Write fd data fs).2 = os.names fs.
Proof.
  unfold os.Write, os.names.
  destruct (os.fds fs !! fd) as [f|] eqn:E; [|reflexivity].
  destruct (os.f_closed f); [reflexivity|]. cbn.
  apply (names_insert_same _ _ f); [exact E|reflexivity].
Qed.

Lemma names_Seek fd off fs : os.names (os.Seek fd off fs).2 = os.names fs.
Proof.
  unfold os.Seek, os.names.
  destruct (os.fds fs !! fd) as [f|] eqn:E; [|reflexivity].
  destruct (os.f_closed f); [reflexivity|]. cbn.
  apply (names_insert_same _ _ f); [exact E|reflexivity].
Qed.

Lemma names_Close fd fs : os.names (os.Close fd fs).2 = os.names fs.
Proof.
  unfold os.Close, os.names.
  destruct (os.fds fs !! fd) as [f|] eqn:E; [|reflexivity].
  destruct (os.f_closed f); [reflexivity|]. cbn.
  apply (names_insert_same _ _ f); [exact E|reflexivity].
Qed.

Lemma names_Create ok name fs :
  match os.Create ok name fs with
  | (Some fd, fs') =>
      fd = length (os.names fs) /\ os.names fs' = os.names fs ++ [name]
  | (None, fs') => fs' = fs
  end.
Proof.
  unfold os.Create, os.names. destruct ok; [|reflexivity].
  destruct (os.dir fs !! name); cbn; rewrite length_map, map_app; auto.
Qed.

Lemma names_UpdateWavHeader fd d fs :
  os.names (audio.UpdateWavHeader fd d fs).2 = os.names fs.
Proof.
  unfold audio.UpdateWavHeader.
  pose proof (names_Seek fd 4 fs) as H1.
  destruct (os.Seek fd 4 fs) as [ok1 fs1]. cbn [snd] in H1.
  destruct ok1; cbn [negb]; [|exact H1].
  pose proof (names_Write fd
                (binary.LittleEndian_PutUint32 (wrap32 (d + 36))) fs1) as H2.
  destruct (os.Write fd _ fs1) as [ok2 fs2]. cbn [snd] in H2.
  destruct ok2; cbn [negb]; [|cbn; congruence].
  pose proof (names_Seek fd 40 fs2) as H3.
  destruct (os.Seek fd 40 fs2) as [ok3 fs3]. cbn [snd] in H3.
  destruct ok3; cbn [negb]; [|cbn; congruence].
  pose proof (names_Write fd (binary.LittleEndian_PutUint32 d) fs3) as H4.
  destruct (os.Write fd _ fs3) as [ok4 fs4]. cbn [snd] in H4.
  destruct ok4; cbn; congruence.
Qed.

Lemma names_ResampleForWhisper ffmpeg path fs ok fs' :
  audio.ResampleForWhisper ffmpeg path fs = audio.Done (ok, fs') ->
  os.names fs' = os.names fs.
Proof.
  unfold audio.ResampleForWhisper.
  destruct (audio.outputPath path); [|discriminate].
  destruct (os.content _ _ ≫= ffmpeg); intros H; inversion H; reflexivity.
Qed.

Lemma file_named_wav_names st :
  libaserv.file_named_wav st <->
  (forall fd, libaserv.file st = Some fd ->
     exists stem, os.names (libaserv.fs st) !! fd = Some (stem +:+ ".wav")).
Proof.
  unfold libaserv.file_named_wav, os.names. split; intros H fd Hfd.
  - destruct (H fd Hfd) as (f & stem & Hl & Hn). exists stem.
    change (map os.f_name (os.fds (libaserv.fs st)))
      with (os.f_name <$> os.fds (libaserv.fs st)).
    rewrite list_lookup_fmap, Hl. cbn. congruence.
  - destruct (H fd Hfd) as (stem & Hl).
    change (map os.f_name (os.fds (libaserv.fs st)))
      with (os.f_name <$> os.fds (libaserv.fs st)) in Hl.
    rewrite list_lookup_fmap in Hl.
    destruct (os.fds (libaserv.fs st) !! fd) as [f|]; [|discriminate].
    exists f, stem. cbn in Hl. split; [reflexivity|congruence].
Qed.

(** Whatever [file] held before, after [startFile] it holds nothing or a
descriptor opened under a [.wav] name. *)
Lemma startFile_named env st :
  libaserv.file_named_wav (libaserv.startFile env st).2.
Proof.
  apply file_named_wav_names.
  unfold libaserv.startFile, libaserv.createWavFile.
  set (st1 := libaserv.updateCurrentDay env st).
  destruct (libaserv.MkdirAll_ok env _ _); cbn [negb];
    [|intros fd H; discriminate].
  set (path := libaserv.filepath_Join _ _).
  assert (Hpath : exists stem, path = stem +:+ ".wav").
  { unfold path, libaserv.filepath_Join. eexists.
    rewrite <- !append_assoc. reflexivity. }
  pose proof (names_Create (libaserv.Create_ok env path (libaserv.now st1))
                path (libaserv.fs st1)) as HC.
  destruct (os.Create _ path (libaserv.fs st1)) as [[fd|] fs1];
    [|intros fd H; discriminate].
  destruct HC as [Hfd Hn]. simpl_state.
  unfold audio.WriteWavHeader.
  pose proof (names_Write fd (audio.encode (audio.header 0)) fs1) as HW.
  destruct (os.Write fd _ fs1) as [ok fs2]. cbn [snd] in *. simpl_state.
  intros fd' Hfd'. inversion Hfd'; subst fd'.
  destruct Hpath as [stem Hstem]. exists stem.
  rewrite HW, Hn, Hfd, lookup_app_r by lia.
  rewrite Nat.sub_diag. cbn. congruence.
Qed.

Lemma Name_names fd fs n : os.names fs !! fd = Some n -> os.Name fd fs = n.
Proof.
  unfold os.names, os.Name.
  change (map os.f_name (os.fds fs)) with (os.f_name <$> os.fds fs).
  rewrite list_lookup_fmap.
  destruct (os.fds fs !! fd); cbn; congruence.
Qed.

Lemma named_same st st' :
  libaserv.file st' = libaserv.file st ->
  os.names (libaserv.fs st') = os.names (libaserv.fs st) ->
  libaserv.file_named_wav st -> libaserv.file_named_wav st'.
Proof.
  intros Hf Hn H. apply file_named_wav_names.
  rewrite Hf, Hn. apply file_named_wav_names, H.
Qed.

Lemma ReadFull_keeps env n st :
  libaserv.fs (libaserv.ReadFull env n st).2 = libaserv.fs st /\
  libaserv.file (libaserv.ReadFull env n st).2 = libaserv.file st.
Proof.
  unfold libaserv.ReadFull.
  destruct (n <=? length (libaserv.conn st))%nat; cbn; auto.
Qed.

Lemma check_ctx_named env st :
  libaserv.file_named_wav st ->
  match libaserv.check_ctx env st with
  | libaserv.Continue st' | libaserv.Return st' => libaserv.file_named_wav st'
  | libaserv.Panicked => False
  end.
Proof.
  intros H. unfold libaserv.check_ctx.
  destruct (libaserv.ctx_Done env _); exact H.
Qed.

Lemma finishCurrentFile_named env st :
  libaserv.file_named_wav st ->
  match libaserv.finishCurrentFile env st with
  | audio.Panic => False
  | audio.Done st' => libaserv.file_named_wav st'
  end.
Proof.
  intros H. unfold libaserv.finishCurrentFile.
  destruct (libaserv.file st) as [fd|] eqn:Hfd; [|exact H].
  destruct (proj1 (file_named_wav_names st) H fd Hfd) as [stem Hstem].
  pose proof (names_UpdateWavHeader fd
    (wrap32 (Z.of_nat (length (libaserv.transmissionBuffer st))))
    (libaserv.fs st)) as HU.
  destruct (audio.UpdateWavHeader fd _ (libaserv.fs st)) as [ok1 fs1].
  cbn [snd] in HU.
  rewrite (Name_names fd fs1 (stem +:+ ".wav")) by (rewrite HU; exact Hstem).
  destruct (os.Close fd fs1) as [ok2 fs2].
  unfold audio.ResampleForWhisper. rewrite outputPath_wav.
  destruct (os.content _ _ ≫= libaserv.ffmpeg env);
    apply file_named_wav_names; intros fd'; cbn; discriminate.
Qed.

(** One turn of the loop never panics when the descriptor it holds was
opened under a [.wav] name, and the descriptor it holds afterwards was
opened under such a name again. *)
Lemma iteration_named env st :
  libaserv.file_named_wav st ->
  match libaserv.iteration env st with
  | libaserv.Continue st' | libaserv.Return st' => libaserv.file_named_wav st'
  | libaserv.Panicked => False
  end.
Proof.
  intros H. unfold libaserv.iteration.
  destruct (ReadFull_keeps env 4 st) as [Kfs Kfile].
  destruct (libaserv.ReadFull env 4 st) as [[e|marker] st1]; cbn [snd] in *.
  - assert (H1 : libaserv.file_named_wav st1)
      by (apply (named_same st); [exact Kfile|congruence|exact H]).
    destruct (libaserv.isReceivingTransmission st1); [|destruct (libaserv.file st1); exact H1].
    destruct (libaserv.file st1) as [fd|] eqn:Hfd; [|exact H1].
    refine (named_same st1 _ _ _ H1); unfold libaserv.handleIncompleteTransmission;
      pose proof (names_Close fd (libaserv.fs st1)) as HC;
      destruct (os.Close fd (libaserv.fs st1)) as [okc fs1]; cbn [snd] in HC;
      destruct (_ <? _); simpl_state; try reflexivity;
      try exact HC.
    unfold os.Rename. destruct (os.dir fs1 !! _); exact HC.
  - assert (H1 : libaserv.file_named_wav st1)
      by (apply (named_same st); [exact Kfile|congruence|exact H]).
    destruct (_ =? 4294967295).
    { match goal with
      | |- context [libaserv.startFile env ?s] =>
          pose proof (startFile_named env s) as HS;
          destruct (libaserv.startFile env s) as [ok st3]
      end.
      cbn [snd] in HS. destruct ok; [apply check_ctx_named|]; exact HS. }
    destruct (_ =? 0).
    { match goal with
      | |- context [libaserv.finishCurrentFile env ?s] =>
          assert (H2 : libaserv.file_named_wav s)
            by (apply (named_same st1); [reflexivity|reflexivity|exact H1]);
          set (st2 := s) in *
      end.
      destruct (_ <? _).
      - destruct (libaserv.file st2) as [fd|] eqn:Hfd;
          [|apply check_ctx_named; exact H2].
        pose proof (names_Close fd (libaserv.fs st2)) as HC.
        destruct (os.Close fd (libaserv.fs st2)) as [okc fs1]. cbn [snd] in HC.
        apply check_ctx_named.
        apply (named_same st2); [reflexivity|exact HC|exact H2].
      - pose proof (finishCurrentFile_named env st2 H2) as HF.
        destruct (libaserv.finishCurrentFile env st2) as [|st3]; [exact HF|].
        apply check_ctx_named, HF. }
    destruct (libaserv.isReceivingTransmission st1);
      [|apply check_ctx_named; exact H1].
    match goal with
    | |- context [libaserv.ReadFull env ?n st1] =>
        destruct (ReadFull_keeps env n st1) as [Kfs2 Kfile2];
        destruct (libaserv.ReadFull env n st1) as [[e|chunkData] st2]
    end; cbn [snd] in *.
    + apply (named_same st1); [exact Kfile2|congruence|exact H1].
    + assert (H2 : libaserv.file_named_wav st2)
        by (apply (named_same st1); [exact Kfile2|congruence|exact H1]).
      simpl_state.
      destruct (libaserv.file st2) as [fd|] eqn:Hfd.
      * pose proof (names_Write fd chunkData (libaserv.fs st2)) as HW.
        destruct (os.Write fd chunkData (libaserv.fs st2)) as [okw fs1].
        cbn [snd] in HW. apply check_ctx_named.
        apply (named_same st2); [symmetry; exact Hfd|exact HW|exact H2].
      * apply check_ctx_named.
        apply (named_same st2); [symmetry; exact Hfd|reflexivity|exact H2].
Qed.

Lemma is_open_Close fd fs f :
  os.fds fs !! fd = Some f -> os.is_open fd (os.Close fd fs).2 = false.
Proof.
  intros Hl. unfold os.Close, os.is_open. rewrite Hl.
  destruct (os.f_closed f) eqn:Hc; cbn.
  - rewrite Hl, Hc. reflexivity.
  - rewrite list_lookup_insert_eq by (eapply lookup_lt_Some; exact Hl).
    reflexivity.
Qed.

Lemma deferred_closed st :
  libaserv.file_named_wav st ->
  forall fd, libaserv.file (libaserv.deferred st) = Some fd ->
             os.is_open fd (libaserv.fs (libaserv.deferred st)) = false.
Proof.
  intros H fd. unfold libaserv.deferred.
  destruct (libaserv.file st) as [fd'|] eqn:Hfd.
  - destruct (H fd' Hfd) as (f & stem & Hl & _).
    pose proof (is_open_Close fd' (libaserv.fs st) f Hl) as HC.
    destruct (os.Close fd' (libaserv.fs st)) as [ok fs1]. cbn [snd] in HC.
    simpl_state. rewrite Hfd. intros E. inversion E; subst. exact HC.
  - rewrite Hfd. discriminate.
Qed.

Lemma loop_named env (fuel : nat) :
  forall st,
    libaserv.file_named_wav st ->
    (length (libaserv.conn st) < fuel)%nat ->
    exists st',
      libaserv.loop env fuel st = Some (libaserv.Returned st') /\
      forall fd, libaserv.file st' = Some fd ->
                 os.is_open fd (libaserv.fs st') = false.
Proof.
  induction fuel as [|fuel IH]; intros st H Hlt; [lia|].
  cbn [libaserv.loop].
  pose proof (iteration_named env st H) as HI.
  destruct (libaserv.iteration env st) as [st'|st'|] eqn:E.
  - apply IH; [exact HI|]. apply iteration_consumes in E. lia.
  - exists (libaserv.deferred st'). split; [reflexivity|].
    apply deferred_closed, HI.
  - destruct HI.
Qed.

Lemma handleConnection_returned env stream t0 fs0 day :
  exists st,
    libaserv.handleConnection env stream t0 fs0 day
    = Some (libaserv.Returned st) /\
    forall fd, libaserv.file st = Some fd ->
               os.is_open fd (libaserv.fs st) = false.
Proof.
  unfold libaserv.handleConnection.
  destruct (libaserv.sendClientID_ok env); cbn [negb].
  - apply loop_named; [|cbn; lia].
    intros fd Hfd. discriminate.
  - eexists. split; [reflexivity|]. intros fd Hfd. discriminate.
Qed.

(** X3.  [handleConnection] returns normally on every stream, in every
environment: the loop ends, and the slice expression of
[ResampleForWhisper], which panics on a path shorter than four bytes,
is only ever applied to the name of a file [createWavFile] opened, which
ends in [.wav].  When it has returned, the descriptor left in [file], if
any, is closed. *)
Theorem handleConnection_never_panics
  (env : libaserv.Env) (stream : list (Z * byte)) (t0 : Z) (fs0 : os.FS)
  (day : string) :
  exists st,
    libaserv.handleConnection env stream t0 fs0 day
    = Some (libaserv.Returned st) /\
    forall fd, libaserv.file st = Some fd ->
               os.is_open fd (libaserv.fs st) = false.
Proof.
  exact (handleConnection_returned env stream t0 fs0 day).
Qed.

(** ** The peer closes the stream between two frames *)

(** X4.  While an utterance is being recorded, the peer closes the
stream where a frame prefix is due (no byte, or fewer than four, are
left): the handler returns after [handleIncompleteTransmission] has
closed the descriptor and settled the artifact by its age at the instant
the read failed.  Younger than one second, it is removed; otherwise it
is renamed to [stem.wav.incomplete] and keeps the placeholder header,
never patched, followed by the payload received so far. *)
Theorem peer_close_at_frame_boundary
  (env : libaserv.Env) (st : libaserv.State) (fd : nat) (stem : string)
  (start : Z) :
  libaserv.Recording st fd stem start ->
  (length (libaserv.conn st) < 4)%nat ->
  let t := Z.max (libaserv.arrival (libaserv.now st) (libaserv.conn st))
                 (libaserv.peer_closes_at env) in
  let name := stem +:+ ".wav" in
  exists st',
    libaserv.iteration env st = libaserv.Return st' /\
    os.is_open fd (libaserv.fs st') = false /\
    (t - start < time.Second ->
     os.log (libaserv.fs st')
     = os.log (libaserv.fs st) ++ [os.CClose fd; os.CRemove name] /\
     os.content name (libaserv.fs st') = None) /\
    (time.Second <= t - start ->
     os.log (libaserv.fs st')
     = os.log (libaserv.fs st)
       ++ [os.CClose fd; os.CRename name (name +:+ ".incomplete")] /\
     os.content name (libaserv.fs st') = None /\
     os.content (name +:+ ".incomplete") (libaserv.fs st')
     = Some (audio.container 36 0 (libaserv.transmissionBuffer st))).
Proof.
  exact (iteration_peer_close env st fd stem start).
Qed.

(** The theorem at work: four bytes of payload have been received when
the peer closes the stream, five seconds after the start marker. *)
Lemma peer_close_at_frame_boundary_witness :
  let env := libaserv.example_env 5000000000 in
  let payload := [Byte.x00; Byte.x01; Byte.x00; Byte.x02] in
  let stream :=
    libaserv.at_time 0 libaserv.start_marker
    ++ libaserv.at_time 0 (libaserv.payload_frame payload) in
  let st0 := libaserv.mkState stream 0 os.empty "" [] false None None in
  let st2 :=
    match libaserv.iterate env 2 st0 with
    | libaserv.Continue st => st
    | _ => st0
    end in
  let stem :=
    "recordings/20240123/550e8400-e29b-41d4-a716-446655440000/audio_000000" in
  exists st',
    libaserv.iteration env st2 = libaserv.Return st' /\
    os.content (stem +:+ ".wav") (libaserv.fs st') = None /\
    os.content (stem +:+ ".wav.incomplete") (libaserv.fs st')
    = Some (audio.container 36 0 payload).
Proof.
  intros env payload stream st0 st2 stem.
  assert (Hrec : libaserv.Recording st2 0 stem 0).
  { split; [reflexivity|]. split; [reflexivity|]. split; [reflexivity|].
    exists 0%nat. split; [vm_compute; reflexivity|].
    split; vm_compute; reflexivity. }
  destruct (peer_close_at_frame_boundary env st2 0 stem 0 Hrec
              ltac:(vm_compute; lia))
    as (st' & Hit & _ & _ & Hlong).
  exists st'. split; [exact Hit|].
  destruct (Hlong ltac:(vm_compute; discriminate)) as (_ & Hgone & Hc).
  split; [exact Hgone|]. exact Hc.
Defined.

(** ** A start marker whose artifact cannot be created *)

(** X5.  When the client directory or the artifact cannot be created at
a start marker, the handler returns at once.  No file has been created,
written, removed or renamed and no descriptor opened or closed: names,
contents and descriptors are as before (the directories [MkdirAll] may
have made before it failed are not part of the model, and neither are
the failed calls themselves).  [file] is nil, so the deferred call
closes nothing, also not a descriptor the handler held before the
marker. *)
Theorem start_marker_create_failure
  (env : libaserv.Env) (st : libaserv.State) (bs rest : list (Z * byte)) :
  libaserv.conn st = bs ++ rest ->
  map snd bs = libaserv.start_marker ->
  libaserv.MkdirAll_ok env
    (libaserv.filepath_Join
       (libaserv.filepath_Join "recordings"
          (libaserv.format_20060102 env (libaserv.arrival (libaserv.now st) bs)))
       (libaserv.clientID env))
    (libaserv.arrival (libaserv.now st) bs) = false \/
  libaserv.Create_ok env
    (libaserv.wavPath env (libaserv.arrival (libaserv.now st) bs))
    (libaserv.arrival (libaserv.now st) bs) = false ->
  exists st',
    libaserv.iteration env st = libaserv.Return st' /\
    libaserv.conn st' = rest /\
    os.dir (libaserv.fs st') = os.dir (libaserv.fs st) /\
    os.inodes (libaserv.fs st') = os.inodes (libaserv.fs st) /\
    os.fds (libaserv.fs st') = os.fds (libaserv.fs st) /\
    libaserv.file st' = None /\
    libaserv.fs (libaserv.deferred st') = libaserv.fs st'.
Proof.
  intros Hconn Hm Hfail.
  pose proof (length_marker bs _ Hm eq_refl) as Hlen.
  unfold libaserv.iteration. rewrite <- Hlen, (ReadFull_app env st bs rest Hconn).
  rewrite Hm.
  change (default 0 (binary.BigEndian_Uint32 libaserv.start_marker))
    with 4294967295.
  cbn [Z.eqb Pos.eqb].
  set (t := libaserv.arrival (libaserv.now st) bs) in *.
  destruct st as [c n0 f0 day0 buf0 rec0 file0 start0]; cbn in *.
  unfold libaserv.startFile, libaserv.createWavFile, libaserv.updateCurrentDay.
  simpl_state.
  destruct (decide (libaserv.format_20060102 env t = day0)) as [Ed|Ed];
    simpl_state; try rewrite <- Ed;
    fold (libaserv.wavPath env t);
    (destruct (libaserv.MkdirAll_ok env _ t) eqn:Hmk; cbn [negb];
     [destruct Hfail as [Hf|Hf]; [discriminate|];
      fold (libaserv.wavPath env t); rewrite Hf; cbn [os.Create]|]);
    simpl_state;
    (eexists; split; [reflexivity|]; repeat split; reflexivity).
Qed.

(** The theorem at work: an utterance is being recorded when a second
start marker arrives and its artifact cannot be created.  The handler
returns, and the descriptor of the first artifact stays open. *)
Lemma start_marker_create_failure_witness :
  let env :=
    libaserv.mkEnv "550e8400-e29b-41d4-a716-446655440000" true
      (fun _ => "20240123") libaserv.clock_150405
      (fun _ _ => true) (fun _ t => t <? 1)
      (fun data => Some data) 5000000000 (fun _ => false) in
  let st0 :=
    libaserv.mkState
      (libaserv.at_time 0 libaserv.start_marker
       ++ libaserv.at_time 1 libaserv.start_marker)
      0 os.empty "" [] false None None in
  let st1 :=
    match libaserv.iteration env st0 with
    | libaserv.Continue st => st
    | _ => st0
    end in
  exists st',
    libaserv.iteration env st1 = libaserv.Return st' /\
    libaserv.file st' = None /\
    os.is_open 0 (libaserv.fs (libaserv.deferred st')) = true.
Proof.
  intros env st0 st1.
  destruct (start_marker_create_failure env st1
              (libaserv.at_time 1 libaserv.start_marker) [] eq_refl eq_refl
              (or_intror eq_refl))
    as (st' & Hit & _ & _ & _ & Hfds & Hfile & Hdef).
  exists st'. split; [exact Hit|]. split; [exact Hfile|].
  unfold os.is_open. rewrite Hdef, Hfds. reflexivity.
Defined.

(** ** Cancellation while an utterance is being recorded *)

(** X6.  The context is cancelled by the time a payload frame has been
written: the handler returns, and the deferred call closes the
descriptor.  Neither the incomplete-utterance policy nor the header
patch nor the transcoder runs: the artifact stays under [stem.wav], with
the placeholder header and the payload received so far. *)
Theorem cancellation_during_utterance
  (env : libaserv.Env) (st : libaserv.State) (fd : nat) (stem : string)
  (start : Z) (pre pay rest : list (Z * byte)) (n : Z) (fuel : nat) :
  libaserv.Recording st fd stem start ->
  libaserv.conn st = pre ++ pay ++ rest ->
  map snd pre = binary.BigEndian_PutUint32 n ->
  0 < n < 4294967295 ->
  Z.of_nat (length pay) = n ->
  libaserv.ctx_Done env
    (libaserv.arrival (libaserv.arrival (libaserv.now st) pre) pay) = true ->
  exists st',
    libaserv.loop env (S fuel) st = Some (libaserv.Returned st') /\
    libaserv.conn st' = rest /\
    os.is_open fd (libaserv.fs st') = false /\
    os.log (libaserv.fs st')
    = os.log (libaserv.fs st) ++ [os.CWrite fd (map snd pay); os.CClose fd] /\
    os.content (stem +:+ ".wav") (libaserv.fs st')
    = Some (audio.container 36 0
              (libaserv.transmissionBuffer st ++ map snd pay)).
Proof.
  intros Hrec Hconn Hpre Hn Hlen Hdone.
  destruct (iteration_payload env st fd stem start pre pay rest n
              Hrec Hconn Hpre Hn Hlen)
    as (st1 & Hit & Hc & Hnow & Hbuf & Hrec1 & Hlog).
  cbn [libaserv.loop]. rewrite Hit. unfold libaserv.check_ctx.
  rewrite Hnow, Hdone.
  destruct Hrec1 as (_ & Hfile & _ & i & Hdir & P).
  unfold libaserv.deferred. rewrite Hfile.
  destruct (Close_then _ _ _ _ _ _ P) as (fs2 & -> & _ & Hop & Hi & Hd & L).
  eexists. split; [reflexivity|]. simpl_state.
  split; [exact Hc|]. split; [exact Hop|].
  split; [rewrite L, Hlog, <- app_assoc; reflexivity|].
  unfold os.content. rewrite Hd, Hdir, Hi, <- Hbuf. exact (proj2 P).
Qed.

(** The theorem at work: the context is cancelled after the start
marker, while the first payload frame is on its way. *)
Lemma cancellation_during_utterance_witness :
  let env :=
    libaserv.mkEnv "550e8400-e29b-41d4-a716-446655440000" true
      (fun _ => "20240123") libaserv.clock_150405
      (fun _ _ => true) (fun _ _ => true)
      (fun data => Some data) 5000000000 (fun t => 0 <? t) in
  let payload := [Byte.x00; Byte.x01; Byte.x00; Byte.x02] in
  let pre := libaserv.at_time 1 (binary.BigEndian_PutUint32 4) in
  let pay := libaserv.at_time 1 payload in
  let st0 :=
    libaserv.mkState (libaserv.at_time 0 libaserv.start_marker ++ pre ++ pay)
      0 os.empty "" [] false None None in
  let st1 :=
    match libaserv.iteration env st0 with
    | libaserv.Continue st => st
    | _ => st0
    end in
  let stem :=
    "recordings/20240123/550e8400-e29b-41d4-a716-446655440000/audio_000000" in
  exists st',
    libaserv.loop env 1 st1 = Some (libaserv.Returned st') /\
    os.is_open 0 (libaserv.fs st') = false /\
    os.content (stem +:+ ".wav") (libaserv.fs st')
    = Some (audio.container 36 0 payload).
Proof.
  intros env payload pre pay st0 st1 stem.
  assert (Hrec : libaserv.Recording st1 0 stem 0).
  { split; [reflexivity|]. split; [reflexivity|]. split; [reflexivity|].
    exists 0%nat. split; [vm_compute; reflexivity|].
    split; vm_compute; reflexivity. }
  destruct (cancellation_during_utterance env st1 0 stem 0 pre pay [] 4 0
              Hrec eq_refl eq_refl ltac:(lia) eq_refl eq_refl)
    as (st' & Hl & _ & Hop & _ & Hc).
  exists st'. split; [exact Hl|]. split; [exact Hop|exact Hc].
Defined.

(** ** The header patch on any file *)

(** X7.  [UpdateWavHeader] on an open descriptor of any file of at least
44 bytes, whatever it holds: the patch succeeds, the file keeps its
length, the total-size field at offset 4 then holds [d + 36] reduced
modulo 2^32 and the data-size field at offset 40 holds [d], no other
byte has changed, and the descriptor is left at offset 44, not at the
end of the file. *)
Theorem UpdateWavHeader_touches_only_size_fields
  (fs : os.FS) (fd : nat) (n : string) (i off : nat) (c : list byte) (d : Z) :
  os.points fs fd n i off c ->
  (44 <= length c)%nat ->
  0 <= d < 2 ^ 32 ->
  exists fs' c',
    audio.UpdateWavHeader fd d fs = (true, fs') /\
    os.points fs' fd n i 44 c' /\
    length c' = length c /\
    binary.LittleEndian_Uint32 (drop 4 c') = Some (wrap32 (d + 36)) /\
    binary.LittleEndian_Uint32 (drop 40 c') = Some d /\
    (forall k : nat, ~ (4 <= k < 8)%nat -> ~ (40 <= k < 44)%nat ->
                     c' !! k = c !! k).
Proof.
  intros P Hlen Hd.
  destruct (UpdateWavHeader_points fs fd n i off c d P)
    as (fs' & E & P' & _ & _).
  exists fs'. eexists. split; [exact E|]. split; [exact P'|].
  pose proof (LittleEndian_roundtrip _ (wrap32_range (d + 36))) as R1.
  pose proof (LittleEndian_roundtrip d Hd) as R2.
  unfold binary.LittleEndian_PutUint32 in *.
  do 44 (destruct c as [|? c]; [cbn in Hlen; lia|]).
  cbn [os.write_at firstn skipn length repeat app Nat.sub Nat.add].
  split; [reflexivity|]. split; [exact R1|]. split; [exact R2|].
  intros k H1 H2.
  do 44 (destruct k as [|k]; [first [reflexivity | exfalso; lia]|]).
  reflexivity.
Qed.

(** The theorem at work on a file of 44 zero bytes followed by one byte
of payload. *)
Lemma UpdateWavHeader_touches_only_size_fields_witness :
  let c := repeat Byte.x00 44 ++ [Byte.x07] in
  let fs := os.mkFS {[ "a.wav" := 0%nat ]} [c] [os.mkFile "a.wav" 0 45 false] [] in
  exists fs' c',
    audio.UpdateWavHeader 0 1 fs = (true, fs') /\
    os.content "a.wav" fs' = Some c' /\
    binary.LittleEndian_Uint32 (drop 4 c') = Some 37 /\
    binary.LittleEndian_Uint32 (drop 40 c') = Some 1 /\
    c' !! 44%nat = Some Byte.x07.
Proof.
  intros c fs.
  destruct (UpdateWavHeader_touches_only_size_fields fs 0 "a.wav" 0 45 c 1
              (conj eq_refl eq_refl) ltac:(cbn; lia) ltac:(lia))
    as (fs' & c' & E & P & _ & H4 & H40 & Hk).
  exists fs', c'. split; [exact E|].
  split.
  { unfold audio.UpdateWavHeader in E. cbn in E. inversion E; subst fs'.
    destruct P as [_ P]. exact P. }
  split; [exact H4|]. split; [exact H40|].
  rewrite (Hk 44%nat) by lia. reflexivity.
Defined.

(** ** The resample step and the files around it *)

Lemma ResampleForWhisper_frame ffmpeg (p out : string) fs ok fs' :
  os.wf fs ->
  audio.outputPath p = Some out ->
  audio.ResampleForWhisper ffmpeg p fs = audio.Done (ok, fs') ->
  os.fds fs' = os.fds fs /\
  forall name, name <> p -> name <> out ->
               os.content name fs' = os.content name fs.
Proof.
  intros [Hwf _] Ho. unfold audio.ResampleForWhisper. rewrite Ho.
  destruct (os.content p _ ≫= ffmpeg) as [data|]; intros E; inversion E; subst.
  - split; [reflexivity|]. intros name Hp Hout.
    unfold os.content. cbn.
    rewrite lookup_delete_ne, lookup_insert_ne by congruence.
    destruct (os.dir fs !! name) as [i|] eqn:Hd; [|reflexivity].
    apply lookup_app_l. exact (Hwf name i Hd).
  - split; reflexivity.
Qed.

(** X8.  [ResampleForWhisper] on a linked file [stem.wav] that holds
[c].  When the transcoder succeeds, [stem.wav] is removed and
[stem_whisper.wav] holds the transcoder's output; when it fails, the
error is returned and [stem.wav] still holds [c].  Either way no
descriptor changes, and no file under another name is touched. *)
Theorem ResampleForWhisper_replaces_input
  (ffmpeg : list byte -> option (list byte)) (fs : os.FS) (stem : string)
  (i : nat) (c : list byte) :
  os.wf fs ->
  os.dir fs !! (stem +:+ ".wav") = Some i ->
  os.inodes fs !! i = Some c ->
  exists fs',
    audio.ResampleForWhisper ffmpeg (stem +:+ ".wav") fs
    = audio.Done (bool_decide (is_Some (ffmpeg c)), fs') /\
    os.fds fs' = os.fds fs /\
    match ffmpeg c with
    | Some out =>
        os.content (stem +:+ ".wav") fs' = None /\
        os.content (stem +:+ "_whisper.wav") fs' = Some out
    | None => os.content (stem +:+ ".wav") fs' = Some c
    end /\
    forall name,
      name <> stem +:+ ".wav" -> name <> stem +:+ "_whisper.wav" ->
      os.content name fs' = os.content name fs.
Proof.
  intros Hwf Hd Hi.
  destruct (ResampleForWhisper_linked ffmpeg fs stem i c Hd Hi)
    as (fs' & E & Hfds & _ & Hc).
  exists fs'. split; [exact E|]. split; [exact Hfds|]. split; [exact Hc|].
  exact (proj2 (ResampleForWhisper_frame ffmpeg _ _ fs _ fs' Hwf
                  (outputPath_wav stem) E)).
Qed.

(** The theorem at work: two files, and a transcoder that keeps the
first byte of its input. *)
Lemma ResampleForWhisper_replaces_input_witness :
  let fs :=
    os.mkFS (<["a.wav" := 0%nat]> (<["b.wav" := 1%nat]> ∅))
      [[Byte.x01; Byte.x02]; [Byte.x03]] [] [] in
  exists fs',
    audio.ResampleForWhisper (fun c => Some (take 1 c)) "a.wav" fs
    = audio.Done (true, fs') /\
    os.content "a.wav" fs' = None /\
    os.content "a_whisper.wav" fs' = Some [Byte.x01] /\
    os.content "b.wav" fs' = Some [Byte.x03].
Proof.
  intros fs.
  assert (Hwf : os.wf fs).
  { split.
    - intros n i H. cbn [os.dir fs] in H.
      destruct (decide (n = "a.wav")) as [->|Ha].
      + rewrite lookup_insert_eq in H. inversion H. cbn. lia.
      + rewrite lookup_insert_ne in H by congruence.
        destruct (decide (n = "b.wav")) as [->|Hb].
        * rewrite lookup_insert_eq in H. inversion H. cbn. lia.
        * rewrite lookup_insert_ne, lookup_empty in H by congruence.
          discriminate.
    - intros fd f H. cbn in H. discriminate. }
  destruct (ResampleForWhisper_replaces_input (fun c => Some (take 1 c)) fs "a"
              0 [Byte.x01; Byte.x02] Hwf eq_refl eq_refl)
    as (fs' & E & _ & [Hgone Hout] & Hother).
  exists fs'. split; [exact E|]. split; [exact Hgone|]. split; [exact Hout|].
  rewrite (Hother "b.wav") by discriminate. reflexivity.
Defined.

(** ** The transcript store and the query handlers *)

Lemma find_rev_last {A} (p : A -> bool) (l : list A) :
  find p (rev l) = last (List.filter p l).
Proof.
  induction l as [|a l IH] using rev_ind; [reflexivity|].
  rewrite rev_app_distr, List.filter_app. cbn.
  destruct (p a); cbn.
  - rewrite last_snoc. reflexivity.
  - rewrite app_nil_r. exact IH.
Qed.

(** X9.  The three query handlers agree.  An endpoint unknown to one is
unknown to all; for a known endpoint [handleGetClient] answers with the
last message of the list [handleGetHistory] answers with, or with
[No messages for today] when that list is empty, and
[handleListClients] lists the endpoint with that same message. *)
Theorem query_handlers_agree
  (env : scribe.Env) (day : Z -> string) (s : scribe.Scribe) (id : string) :
  match scribe.handleGetHistory env day s id with
  | scribe.NotFound _ =>
      scribe.handleGetClient env day s id = scribe.NotFound "Client not found" /\
      scribe.handleListClients env day s !! id = None
  | scribe.OK today =>
      scribe.handleListClients env day s !! id = Some (last today) /\
      scribe.handleGetClient env day s id
      = match last today with
        | Some m => scribe.OK m
        | None => scribe.NotFound "No messages for today"
        end
  end.
Proof.
  unfold scribe.handleGetHistory, scribe.handleGetClient,
    scribe.handleListClients.
  rewrite lookup_fmap.
  destruct (scribe.clients s !! id) as [messages|]; cbn; [|auto].
  unfold scribe.most_recent_today. rewrite find_rev_last. auto.
Qed.

Lemma processJob_clients json_Marshal output s job :
  scribe.extractText output <> [] ->
  scribe.clients (scribe.processJob json_Marshal (scribe.Output output) s job).2
  = <[scribe.ClientID job :=
        default [] (scribe.clients s !! scribe.ClientID job)
        ++ [scribe.mkMessage (scribe.JobTimestamp job)
              (scribe.extractText output)
              (scribe.filepath_Base (scribe.FilePath job)) 1]]>
      (scribe.clients s).
Proof.
  intros Htext. unfold scribe.processJob.
  rewrite (bool_decide_eq_false_2 _ Htext).
  destruct (json_Marshal _); [|reflexivity].
  cbn [scribe.subscribers].
  destruct (scribe.subscribers s !! scribe.ClientID job); reflexivity.
Qed.

(** X10.  A transcript with text is stored whether or not it can be
serialized for the subscribers: [processJob] appends one message to the
history of the job's endpoint, with the job's timestamp and the base
name of its file, and leaves every other history as it is.  When the
job's timestamp is of the current day, that message is what
[handleGetClient] then answers with. *)
Theorem stored_transcription_is_served
  (json_Marshal : scribe.WebSocketMessage -> option (list byte))
  (env : scribe.Env) (day : Z -> string) (s : scribe.Scribe)
  (job : scribe.TranscriptionJob) (output : list strings.rune) :
  scribe.extractText output <> [] ->
  day (scribe.JobTimestamp job) = scribe.getCurrentDateDir env ->
  let s' := (scribe.processJob json_Marshal (scribe.Output output) s job).2 in
  let msg :=
    scribe.mkMessage (scribe.JobTimestamp job) (scribe.extractText output)
      (scribe.filepath_Base (scribe.FilePath job)) 1 in
  scribe.clients s' !! scribe.ClientID job
  = Some (default [] (scribe.clients s !! scribe.ClientID job) ++ [msg]) /\
  (forall id, id <> scribe.ClientID job ->
              scribe.clients s' !! id = scribe.clients s !! id) /\
  scribe.handleGetClient env day s' (scribe.ClientID job) = scribe.OK msg.
Proof.
  intros Htext Hday s' msg.
  assert (E : scribe.clients s' !! scribe.ClientID job
              = Some (default [] (scribe.clients s !! scribe.ClientID job)
                      ++ [msg])).
  { unfold s'. rewrite processJob_clients by exact Htext.
    apply lookup_insert_eq. }
  split; [exact E|]. split.
  - intros id Hid. unfold s'. rewrite processJob_clients by exact Htext.
    apply lookup_insert_ne. congruence.
  - unfold scribe.handleGetClient. rewrite E.
    unfold scribe.most_recent_today. rewrite rev_app_distr. cbn.
    rewrite Hday, bool_decide_eq_true_2 by reflexivity. reflexivity.
Qed.

(** The theorem at work: one line of recognizer output for an endpoint
without history, and a serializer that fails. *)
Lemma stored_transcription_is_served_witness :
  let env := scribe.example_env "19700101" in
  let job := scribe.mkJob "recordings/19700101/id/audio_000000_whisper.wav" "id" 0 in
  let s' :=
    (scribe.processJob (fun _ => None) (scribe.Output (strings.runes "hello"))
       (scribe.New "recordings") job).2 in
  scribe.handleGetClient env (fun _ => "19700101") s' "id"
  = scribe.OK (scribe.mkMessage 0 (strings.runes "hello")
                 "audio_000000_whisper.wav" 1).
Proof.
  intros env job s'.
  exact (proj2 (proj2
    (stored_transcription_is_served (fun _ => None) env (fun _ => "19700101")
       (scribe.New "recordings") job (strings.runes "hello")
       ltac:(vm_compute; discriminate) eq_refl))).
Defined.

(** ** The watcher loop and the job queue *)

Lemma handleFSEvent_keeps env s ev :
  scribe.RecordingsDir (scribe.handleFSEvent env s ev).2 = scribe.RecordingsDir s /\
  scribe.subscribers (scribe.handleFSEvent env s ev).2 = scribe.subscribers s /\
  scribe.conns (scribe.handleFSEvent env s ev).2 = scribe.conns s.
Proof.
  unfold scribe.handleFSEvent, scribe.handleNewClient,
    scribe.handleNewAudioFile, scribe.set_watched.
  repeat case_match; cbn; auto.
Qed.

Lemma job_path_same_dir env s1 s ev id :
  scribe.RecordingsDir s1 = scribe.RecordingsDir s ->
  scribe.job_path env s1 ev id -> scribe.job_path env s ev id.
Proof. unfold scribe.job_path. intros ->. tauto. Qed.

Lemma watch_events_queue_from (events : list (scribe.Env * scribe.Event)) :
  forall s,
    (length (scribe.buf (scribe.queue s)) <= scribe.cap (scribe.queue s))%nat ->
    scribe.RecordingsDir (scribe.watch_events events s) = scribe.RecordingsDir s /\
    scribe.subscribers (scribe.watch_events events s) = scribe.subscribers s /\
    scribe.conns (scribe.watch_events events s) = scribe.conns s /\
    scribe.cap (scribe.queue (scribe.watch_events events s))
    = scribe.cap (scribe.queue s) /\
    (length (scribe.buf (scribe.queue (scribe.watch_events events s)))
     <= scribe.cap (scribe.queue s))%nat /\
    exists new,
      scribe.buf (scribe.queue (scribe.watch_events events s))
      = scribe.buf (scribe.queue s) ++ new /\
      Forall (fun job =>
                exists e id,
                  In e events /\ scribe.job_path e.1 s e.2 id /\
                  job = scribe.mkJob (scribe.Name e.2) id (scribe.time_Now e.1))
             new.
Proof.
  induction events as [|[env ev] events IH]; intros s Hle.
  { cbn. repeat (split; [auto|]). exists []. rewrite app_nil_r. auto. }
  unfold scribe.watch_events. cbn [fold_left fst snd].
  fold (scribe.watch_events events (scribe.handleFSEvent env s ev).2).
  set (s1 := (scribe.handleFSEvent env s ev).2).
  destruct (handleFSEvent_keeps env s ev) as (Kd & Ks & Kc). fold s1 in Kd, Ks, Kc.
  assert (Hq : scribe.cap (scribe.queue s1) = scribe.cap (scribe.queue s) /\
               (length (scribe.buf (scribe.queue s1))
                <= scribe.cap (scribe.queue s))%nat /\
               exists new1,
                 scribe.buf (scribe.queue s1) = scribe.buf (scribe.queue s) ++ new1 /\
                 Forall (fun job =>
                           exists id,
                             scribe.job_path env s ev id /\
                             job = scribe.mkJob (scribe.Name ev) id
                                     (scribe.time_Now env)) new1).
  { destruct (handleFSEvent_queue env s ev) as [(id & Hj & Hq)|[_ Hq]];
      fold s1 in Hq; rewrite Hq.
    - destruct (try_send_cases (scribe.queue s)
                  (scribe.mkJob (scribe.Name ev) id (scribe.time_Now env)))
        as [[Hroom ->]|[_ ->]]; cbn [snd scribe.cap scribe.buf].
      + split; [reflexivity|]. split; [rewrite length_app; cbn; lia|].
        eexists. split; [reflexivity|]. constructor; [|constructor]. eauto.
      + split; [reflexivity|]. split; [exact Hle|].
        exists []. rewrite app_nil_r. auto.
    - split; [reflexivity|]. split; [exact Hle|].
      exists []. rewrite app_nil_r. auto. }
  destruct Hq as (Hcap & Hle1 & new1 & Hb1 & Hall1).
  destruct (IH s1 ltac:(rewrite Hcap; exact Hle1))
    as (Hd & Hs & Hc & Hcap' & Hle' & new & Hb & Hall).
  split; [congruence|]. split; [congruence|]. split; [congruence|].
  split; [congruence|]. split; [rewrite <- Hcap; exact Hle'|].
  exists (new1 ++ new). split; [rewrite Hb, Hb1, app_assoc; reflexivity|].
  apply Forall_app. split.
  - eapply List.Forall_impl; [|exact Hall1].
    intros job (id & Hj & ->). exists (env, ev), id. cbn. auto.
  - eapply List.Forall_impl; [|exact Hall].
    intros job (e & id & Hin & Hj & ->). exists e, id.
    split; [right; exact Hin|]. split; [|reflexivity].
    exact (job_path_same_dir _ _ _ _ _ Kd Hj).
Qed.

(** X11.  Whatever events the watcher loop handles, and as long as no
worker takes a job: the job queue never holds more jobs than its
capacity (100 from [New]), the jobs that were waiting stay at the head
in their order, and every job added behind them comes from one of the
events, a create event of the current day of its instant whose path has
the three components day, endpoint id and a leaf that ends in [.wav] and
contains [_whisper], and carries that event's name, id and instant.  The
loop never touches the subscribers or their connections. *)
Theorem watch_events_queue
  (events : list (scribe.Env * scribe.Event)) (s : scribe.Scribe) :
  (length (scribe.buf (scribe.queue s)) <= scribe.cap (scribe.queue s))%nat ->
  let s' := scribe.watch_events events s in
  (length (scribe.buf (scribe.queue s')) <= scribe.cap (scribe.queue s))%nat /\
  scribe.cap (scribe.queue s') = scribe.cap (scribe.queue s) /\
  scribe.subscribers s' = scribe.subscribers s /\
  scribe.conns s' = scribe.conns s /\
  exists new,
    scribe.buf (scribe.queue s') = scribe.buf (scribe.queue s) ++ new /\
    Forall (fun job =>
              exists e id,
                In e events /\ scribe.job_path e.1 s e.2 id /\
                job = scribe.mkJob (scribe.Name e.2) id (scribe.time_Now e.1))
           new.
Proof.
  intros Hle s'.
  destruct (watch_events_queue_from events s Hle)
    as (_ & Hs & Hc & Hcap & Hle' & Hnew).
  auto.
Qed.

(** The theorem at work: 101 create events of one resampled artifact
reach a new service; no more than 100 jobs wait in the queue. *)
Lemma watch_events_queue_witness :
  let env := scribe.example_env "20240123" in
  let name := "recordings/20240123/550e8400-e29b-41d4-a716-446655440000/audio_120000_whisper.wav" in
  let events := repeat (env, scribe.mkEvent name scribe.Create) 101 in
  let s' := scribe.watch_events events (scribe.New "recordings") in
  (length (scribe.buf (scribe.queue s')) <= 100)%nat /\
  scribe.subscribers s' = ∅.
Proof.
  intros env name events s'.
  destruct (watch_events_queue events (scribe.New "recordings")
              ltac:(cbn; lia)) as (Hle & _ & Hs & _).
  split; [exact Hle|exact Hs].
Defined.

(** ** From the artifact's create event to the stored transcript *)

Lemma handleFSEvent_job_path_clients env s ev id :
  scribe.job_path env s ev id ->
  scribe.clients (scribe.handleFSEvent env s ev).2 = scribe.clients s.
Proof.
  intros (Hop & Htmp & relPath & leaf & Hrel & Hsplit & Hid & Hwav & Hwh).
  unfold scribe.handleFSEvent.
  rewrite Htmp, Hop, Hrel, Hsplit. cbn [orb negb Z.eqb scribe.Create Pos.eqb].
  cbn [length Nat.ltb Nat.leb lookup list_lookup].
  rewrite bool_decide_eq_true_2 by reflexivity. cbn [negb].
  rewrite Hid, Hwav, Hwh. cbn [andb].
  unfold scribe.handleNewAudioFile, scribe.set_watched.
  repeat case_match; reflexivity.
Qed.

(** X12.  The create event of a resampled artifact reaches a service
whose job queue is empty, and a worker takes the job: when the
recognizer's output for that job has text, the worker leaves the queue
empty and the endpoint's history one message longer.  The message
carries the instant of the event, the extracted text and the base name
of the artifact. *)
Theorem artifact_event_to_transcript
  (json_Marshal : scribe.WebSocketMessage -> option (list byte))
  (run : scribe.TranscriptionJob -> scribe.cmd_result)
  (env : scribe.Env) (s : scribe.Scribe) (ev : scribe.Event) (id : string)
  (out : list strings.rune) :
  scribe.job_path env s ev id ->
  scribe.buf (scribe.queue s) = [] ->
  (0 < scribe.cap (scribe.queue s))%nat ->
  run (scribe.mkJob (scribe.Name ev) id (scribe.time_Now env))
  = scribe.Output out ->
  scribe.extractText out <> [] ->
  exists s2,
    scribe.worker_step json_Marshal run (scribe.handleFSEvent env s ev).2
    = Some s2 /\
    scribe.buf (scribe.queue s2) = [] /\
    scribe.clients s2 !! id
    = Some (default [] (scribe.clients s !! id)
            ++ [scribe.mkMessage (scribe.time_Now env) (scribe.extractText out)
                  (scribe.filepath_Base (scribe.Name ev)) 1]).
Proof.
  intros Hj Hempty Hcap Hrun Htext.
  pose proof (handleFSEvent_job_path_clients env s ev id Hj) as Hcl.
  destruct (handleFSEvent_queue env s ev) as [(id' & Hj' & Hq)|[Hn _]];
    [|destruct (Hn id Hj)].
  assert (id' = id) as ->.
  { destruct Hj as (_ & _ & r & l & Hr & Hs & _).
    destruct Hj' as (_ & _ & r' & l' & Hr' & Hs' & _).
    rewrite Hr in Hr'. inversion Hr'; subst r'.
    rewrite Hs in Hs'. inversion Hs'. reflexivity. }
  destruct (try_send_cases (scribe.queue s)
              (scribe.mkJob (scribe.Name ev) id (scribe.time_Now env)))
    as [[_ E]|[Hfull _]]; [|rewrite Hempty in Hfull; cbn in Hfull; lia].
  rewrite E, Hempty in Hq. cbn [snd app] in Hq.
  unfold scribe.worker_step. rewrite Hq. cbn [scribe.buf scribe.cap].
  rewrite Hrun. eexists. split; [reflexivity|].
  split.
  - unfold scribe.processJob.
    rewrite (bool_decide_eq_false_2 _ Htext).
    destruct (json_Marshal _); [|reflexivity].
    cbn [scribe.subscribers].
    destruct (scribe.subscribers _ !! _); reflexivity.
  - rewrite processJob_clients by exact Htext.
    cbn [scribe.clients scribe.ClientID scribe.JobTimestamp scribe.FilePath].
    rewrite Hcl. apply lookup_insert_eq.
Qed.

(** The theorem at work on a new service. *)
Lemma artifact_event_to_transcript_witness :
  let env := scribe.example_env "20240123" in
  let id := "550e8400-e29b-41d4-a716-446655440000" in
  let name := "recordings/20240123/550e8400-e29b-41d4-a716-446655440000/audio_120000_whisper.wav" in
  let ev := scribe.mkEvent name scribe.Create in
  exists s2,
    scribe.worker_step (fun _ => Some []) (fun _ => scribe.Output (strings.runes "hello"))
      (scribe.handleFSEvent env (scribe.New "recordings") ev).2
    = Some s2 /\
    scribe.clients s2 !! id
    = Some [scribe.mkMessage 0 (strings.runes "hello")
              "audio_120000_whisper.wav" 1].
Proof.
  intros env id name ev.
  assert (Hj : scribe.job_path env (scribe.New "recordings") ev id).
  { split; [reflexivity|]. split; [vm_compute; reflexivity|].
    exists "20240123/550e8400-e29b-41d4-a716-446655440000/audio_120000_whisper.wav",
           "audio_120000_whisper.wav".
    repeat split; vm_compute; reflexivity. }
  destruct (artifact_event_to_transcript (fun _ => Some [])
              (fun _ => scribe.Output (strings.runes "hello")) env
              (scribe.New "recordings") ev id (strings.runes "hello")
              Hj eq_refl ltac:(cbn; lia) eq_refl
              ltac:(vm_compute; discriminate))
    as (s2 & Hw & _ & Hc).
  exists s2. split; [exact Hw|]. exact Hc.
Defined.

(** ** The create event of an endpoint's directory *)

(** X13.  A create event whose path below the recordings root is the
current day and an id that parses.  When the watcher accepts the name,
the directory is watched (twice over when the name is a directory, once
by [handleFSEvent] and once by [handleNewClient]) and the endpoint's
history is stored empty, whatever it held before; no job is enqueued.
When the watcher refuses the name, the error of [handleNewClient] is
returned and the service is as before. *)
Theorem client_directory_event
  (env : scribe.Env) (s : scribe.Scribe) (ev : scribe.Event)
  (relPath id : string) :
  scribe.Op ev = scribe.Create ->
  strings.HasSuffix_s (scribe.Name ev) ".tmp" = false ->
  scribe.filepath_Rel env (scribe.RecordingsDir s) (scribe.Name ev)
  = Some relPath ->
  strings.Split_s relPath "/" = [scribe.getCurrentDateDir env; id] ->
  scribe.uuid_Parse env id = true ->
  if scribe.watcher_Add_ok env (scribe.Name ev) then
    (scribe.handleFSEvent env s ev).1 = None /\
    scribe.clients (scribe.handleFSEvent env s ev).2
    = <[id := []]> (scribe.clients s) /\
    scribe.watched (scribe.handleFSEvent env s ev).2
    = scribe.watched s
      ++ (if scribe.IsDir env (scribe.Name ev) then [scribe.Name ev] else [])
      ++ [scribe.Name ev] /\
    scribe.queue (scribe.handleFSEvent env s ev).2 = scribe.queue s
  else
    scribe.handleFSEvent env s ev
    = (Some "failed to watch client directory", s).
Proof.
  intros Hop Htmp Hrel Hsplit Hid.
  unfold scribe.handleFSEvent.
  rewrite Htmp, Hop, Hrel, Hsplit. cbn [orb negb Z.eqb scribe.Create Pos.eqb].
  cbn [length Nat.ltb Nat.leb lookup list_lookup].
  rewrite bool_decide_eq_true_2 by reflexivity. cbn [negb].
  rewrite Hid. unfold scribe.handleNewClient, scribe.set_watched.
  destruct (scribe.watcher_Add_ok env (scribe.Name ev)) eqn:Hw;
    destruct (scribe.IsDir env (scribe.Name ev)); cbn;
    rewrite <- ?app_assoc; auto.
Qed.

(** The theorem at work: the directory event of an endpoint that
already has a message. *)
Lemma client_directory_event_witness :
  let env := scribe.example_env "20240123" in
  let id := "550e8400-e29b-41d4-a716-446655440000" in
  let name := "recordings/20240123/550e8400-e29b-41d4-a716-446655440000" in
  let s :=
    scribe.mkScribe "recordings" []
      {[ id := [scribe.mkMessage 0 (strings.runes "hello") "a_whisper.wav" 1] ]}
      ∅ [] (scribe.mkChan 100 []) in
  scribe.clients (scribe.handleFSEvent env s (scribe.mkEvent name scribe.Create)).2
  !! id = Some [].
Proof.
  intros env id name s.
  pose proof (client_directory_event env s (scribe.mkEvent name scribe.Create)
                "20240123/550e8400-e29b-41d4-a716-446655440000" id
                eq_refl ltac:(vm_compute; reflexivity)
                ltac:(vm_compute; reflexivity) ltac:(vm_compute; reflexivity)
                ltac:(vm_compute; reflexivity)) as H.
  cbn [scribe.watcher_Add_ok env scribe.example_env] in H.
  destruct H as (_ & -> & _). apply lookup_insert_eq.
Defined.

(** ** Subscribing and unsubscribing *)

Lemma remove_first_snoc (p : nat) (ps : list nat) :
  p ∉ ps -> scribe.remove_first p (ps ++ [p]) = ps.
Proof.
  induction ps as [|q ps IH]; intros Hp; cbn.
  - destruct (decide (p = p)); [reflexivity|congruence].
  - destruct (decide (q = p)) as [->|Hne].
    + exfalso. apply Hp. left.
    + rewrite IH; [reflexivity|]. intros H. apply Hp. right. exact H.
Qed.

Lemma hub_wf_bound s id ps p :
  scribe.hub_wf s -> scribe.subscribers s !! id = Some ps -> p ∈ ps ->
  (p < length (scribe.conns s))%nat.
Proof.
  intros Hwf Hl Hp. destruct (Hwf id ps Hl) as [_ Hall].
  destruct (Hall p Hp) as (c & Hc & _). eapply lookup_lt_Some. exact Hc.
Qed.

Lemma processJob_conns_outside json_Marshal run s job (p : nat) :
  scribe.hub_wf s ->
  (forall id ps, scribe.subscribers s !! id = Some ps -> p ∉ ps) ->
  scribe.conns (scribe.processJob json_Marshal run s job).2 !! p
  = scribe.conns s !! p.
Proof.
  intros Hwf Hout. unfold scribe.processJob.
  destruct run as [out|stderr|]; [|destruct (strings.Contains_s _ _)|];
    try reflexivity.
  destruct (bool_decide _); [reflexivity|].
  destruct (json_Marshal _); [|reflexivity].
  cbn [scribe.subscribers].
  destruct (scribe.subscribers s !! scribe.ClientID job) as [ps|] eqn:E;
    [|reflexivity].
  cbn. rewrite (notify_lookup _ _ _ _ (proj1 (Hwf _ _ E))).
  destruct (decide (p ∈ ps)) as [Hin|]; [|reflexivity].
  destruct (Hout _ _ E Hin).
Qed.

(** X14.  A subscription that is accepted and then dropped leaves the
subscriber map as it was before, the hub well formed, and the
connection out of reach: no later [processJob], for whatever job,
hands anything to it. *)
Theorem subscribe_then_unsubscribe
  (env : scribe.Env) (s s1 : scribe.Scribe) (id : string) (p : nat) :
  scribe.hub_wf s ->
  scribe.subscribers s !! id <> Some [] ->
  scribe.handleWebSocket env s id = (Some p, s1) ->
  let s2 := scribe.unregisterSubscriber s1 id p in
  scribe.subscribers s2 = scribe.subscribers s /\
  scribe.hub_wf s2 /\
  scribe.conns s2 !! p = Some (scribe.mkWsConn id (scribe.mkChan 256 [])) /\
  forall json_Marshal run job,
    scribe.conns (scribe.processJob json_Marshal run s2 job).2 !! p
    = scribe.conns s2 !! p.
Proof.
  intros Hwf Hne H s2.
  unfold scribe.handleWebSocket in H.
  destruct (scribe.uuid_Parse env id); [|discriminate].
  destruct (scribe.Upgrade_ok env); [|discriminate].
  cbn [negb] in H. inversion H; subst p s1; clear H.
  assert (Hfresh : forall id' ps, scribe.subscribers s !! id' = Some ps ->
                                  length (scribe.conns s) ∉ ps).
  { intros id' ps Hl Hin. pose proof (hub_wf_bound s id' ps _ Hwf Hl Hin). lia. }
  assert (Hsub : scribe.subscribers s2 = scribe.subscribers s).
  { unfold s2, scribe.unregisterSubscriber, scribe.registerSubscriber.
    cbn [scribe.subscribers]. rewrite lookup_insert_eq.
    rewrite remove_first_snoc.
    2: { destruct (scribe.subscribers s !! id) as [ps|] eqn:E;
           [exact (Hfresh id ps E)|apply not_elem_of_nil]. }
    destruct (scribe.subscribers s !! id) as [ps|] eqn:E; cbn [default].
    - destruct ps as [|q ps]; [congruence|]. cbn.
      rewrite insert_insert_eq. apply insert_id. exact E.
    - cbn. rewrite delete_insert_eq. apply delete_id. exact E. }
  assert (Hconns : scribe.conns s2
                   = scribe.conns s ++ [scribe.mkWsConn id (scribe.mkChan 256 [])]).
  { unfold s2, scribe.unregisterSubscriber, scribe.registerSubscriber.
    cbn [scribe.subscribers]. rewrite lookup_insert_eq. reflexivity. }
  assert (Hwf2 : scribe.hub_wf s2).
  { intros id' ps Hl. rewrite Hsub in Hl. destruct (Hwf id' ps Hl) as [Hnd Hall].
    split; [exact Hnd|]. intros q Hq. destruct (Hall q Hq) as (c & Hc & Hrest).
    exists c. split; [|exact Hrest]. rewrite Hconns.
    rewrite lookup_app_l by (eapply lookup_lt_Some; exact Hc). exact Hc. }
  split; [exact Hsub|]. split; [exact Hwf2|]. split.
  - rewrite Hconns, lookup_app_r by lia. rewrite Nat.sub_diag. reflexivity.
  - intros json_Marshal run job. apply processJob_conns_outside; [exact Hwf2|].
    intros id' ps Hl. rewrite Hsub in Hl. exact (Hfresh id' ps Hl).
Qed.

(** The theorem at work on a new service. *)
Lemma subscribe_then_unsubscribe_witness :
  let env := scribe.example_env "20240123" in
  let id := "550e8400-e29b-41d4-a716-446655440000" in
  let s := scribe.New "recordings" in
  scribe.subscribers
    (scribe.unregisterSubscriber (scribe.handleWebSocket env s id).2 id 0)
  = ∅.
Proof.
  intros env id s.
  exact (proj1 (subscribe_then_unsubscribe env s
                  (scribe.handleWebSocket env s id).2 id 0
                  (hub_wf_New "recordings")
                  ltac:(cbn; rewrite lookup_empty; discriminate)
                  ltac:(vm_compute; reflexivity))).
Defined.

(** ** The extracted text is one clean line *)

Lemma drop_while_In {A} (f : A -> bool) (x : A) (s : list A) :
  In x (strings.drop_while f s) -> In x s.
Proof.
  induction s as [|a s IH]; cbn; [auto|].
  destruct (f a); [right; auto|cbn; auto].
Qed.

Lemma TrimFunc_In {A} (f : A -> bool) (x : A) (s : list A) :
  In x (strings.TrimFunc s f) -> In x s.
Proof.
  unfold strings.TrimFunc, strings.TrimRightFunc, strings.TrimLeftFunc.
  intros H. apply in_rev in H. apply drop_while_In in H.
  apply in_rev in H. apply drop_while_In in H. exact H.
Qed.

Lemma Split_no_sep {A} `{EqDecision A} (s : list A) (sep : A) :
  forall piece, In piece (strings.Split s sep) -> ~ In sep piece.
Proof.
  induction s as [|a s IH]; cbn [strings.Split]; intros piece Hin.
  - destruct Hin as [<-|[]]. auto.
  - destruct (decide (a = sep)) as [->|Hne].
    + destruct Hin as [<-|Hin]; [auto|exact (IH piece Hin)].
    + destruct (strings.Split s sep) as [|p rest].
      * destruct Hin as [<-|[]]. intros [E|[]]. congruence.
      * destruct Hin as [<-|Hin].
        -- intros [E|Hs]; [congruence|]. exact (IH p (or_introl eq_refl) Hs).
        -- exact (IH piece (or_intror Hin)).
Qed.

Lemma fold_extractText_line_In (x : strings.rune)
  (lines : list (list strings.rune)) :
  forall b,
    In x (fold_left scribe.extractText_line lines b) ->
    In x b \/ x = 32 \/ exists l, In l lines /\ In x l.
Proof.
  induction lines as [|l lines IH]; intros b H; [auto|].
  cbn [fold_left] in H. apply IH in H.
  destruct H as [H|[H|(l' & Hl' & Hx)]]; [|auto|right; right; exists l'; cbn; auto].
  unfold scribe.extractText_line in H.
  repeat case_match; auto;
    rewrite ?in_app_iff in H; cbn in H;
    destruct H as [H|H]; auto;
    try (destruct H as [H|H]; auto);
    try (destruct H as [H|[]]; auto);
    try (right; right; exists l; split; [left; reflexivity|];
         exact (TrimFunc_In _ _ _ H)).
Qed.

(** X15.  The text [extractText] returns is one clean line, whatever
the recognizer printed: it holds no line break, and it neither starts
nor ends with white space. *)
Theorem extractText_one_clean_line (output : list strings.rune) :
  ~ In 10 (scribe.extractText output) /\
  strings.starts_clean strings.IsSpace (scribe.extractText output) /\
  strings.ends_clean strings.IsSpace (scribe.extractText output).
Proof.
  split; [|exact (TrimFunc_clean strings.IsSpace _)].
  unfold scribe.extractText. intros H.
  apply TrimFunc_In, fold_extractText_line_In in H.
  destruct H as [[]|[H|(l & Hl & Hx)]]; [discriminate|].
  exact (Split_no_sep output 10 l Hl Hx).
Qed.

(** ** The admission of a connection *)

(** X16.  [handleNewConnection] returns normally for every peer, and
the registry it leaves has no record under the id it drew and every
other record as before.  A peer that does not present the token first
(another byte sequence of that length, or fewer bytes) is refused
before anything happens: no call on the file system, no change of the
registry. *)
Theorem handleNewConnection_admission
  (env : libaserv.Env) (token : list byte) (addr : string)
  (stream : list (Z * byte)) (t0 : Z) (fs0 : os.FS) (day : string)
  (clientList : libaserv.ClientList) :
  exists st,
    (libaserv.handleNewConnection env token addr stream t0 fs0 day clientList).1
    = Some (libaserv.Returned st) /\
    (forall id, id <> libaserv.clientID env ->
       libaserv.Get id
         (libaserv.handleNewConnection env token addr stream t0 fs0 day
            clientList).2
       = libaserv.Get id clientList) /\
    (map snd (take (length token) stream) <> token ->
     libaserv.fs st = fs0 /\
     (libaserv.handleNewConnection env token addr stream t0 fs0 day clientList).2
     = clientList) /\
    (map snd (take (length token) stream) = token ->
     libaserv.Get (libaserv.clientID env)
       (libaserv.handleNewConnection env token addr stream t0 fs0 day
          clientList).2
     = None).
Proof.
  unfold libaserv.handleNewConnection, libaserv.ReadFull. cbn [libaserv.conn].
  destruct (Nat.leb_spec (length token) (length stream)) as [Hle|Hlt].
  - destruct (decide (map snd (take (length token) stream) = token)) as [E|E].
    + rewrite (bool_decide_eq_true_2 _ E). cbn [negb libaserv.conn libaserv.now].
      destruct (handleConnection_returned env (drop (length token) stream)
                  (libaserv.arrival t0 (take (length token) stream)) fs0 day)
        as (st & Hst & _).
      exists st. cbn [fst snd]. split; [exact Hst|]. split; [|split].
      * intros id Hid. unfold libaserv.Get, libaserv.Remove, libaserv.Add.
        cbn [libaserv.ID].
        etrans; [apply lookup_delete_ne|apply lookup_insert_ne]; congruence.
      * intros Hne. contradiction.
      * intros _. unfold libaserv.Get, libaserv.Remove.
        apply lookup_delete_eq.
    + rewrite (bool_decide_eq_false_2 _ E). cbn [negb fst snd].
      eexists. split; [reflexivity|]. cbn [libaserv.fs].
      split; [reflexivity|]. split; [auto|]. intros H. contradiction.
  - eexists. cbn [fst snd]. split; [reflexivity|]. cbn [libaserv.fs].
    split; [reflexivity|]. split; [auto|].
    intros H. apply (f_equal (@length _)) in H.
    rewrite length_map, length_take in H. lia.
Qed.

(** ** The capture endpoint: frames on the wire *)

Lemma length_samples_bytes (chunk : list Z) :
  length (libascli.samples_bytes chunk) = (2 * length chunk)%nat.
Proof.
  induction chunk as [|s chunk IH]; [reflexivity|].
  cbn [libascli.samples_bytes flat_map]. rewrite length_app.
  fold (libascli.samples_bytes chunk). rewrite IH. cbn. lia.
Qed.

Lemma sendAudioChunk_ok (chunk : list Z) (conn : libascli.Conn) :
  libascli.faults conn = [] ->
  libascli.sendAudioChunk false chunk conn
  = (None, libascli.mkConn (libascli.wire conn ++ libascli.frame chunk) []).
Proof.
  intros H. unfold libascli.sendAudioChunk, libascli.Write. rewrite H. cbn.
  unfold libascli.frame. rewrite <- app_assoc. reflexivity.
Qed.

(** X17.  A chunk of samples the capture endpoint sends with
[sendAudioChunk] (at least one sample, fewer than 2^31 - 1) and the
ingest server reads while it records an utterance: the server takes the
frame for one payload frame, and appends to its buffer and to the
artifact exactly the samples, two bytes each, low byte first. *)
Theorem sent_chunk_is_received
  (env : libaserv.Env) (st : libaserv.State) (fd : nat) (stem : string)
  (start t : Z) (samples : list Z) (rest : list (Z * byte)) :
  libaserv.Recording st fd stem start ->
  (0 < length samples)%nat ->
  2 * Z.of_nat (length samples) < 4294967295 ->
  libaserv.conn st
  = libaserv.at_time t
      (libascli.wire
         (libascli.sendAudioChunk false samples (libascli.mkConn [] [])).2)
    ++ rest ->
  exists st',
    libaserv.iteration env st = libaserv.check_ctx env st' /\
    libaserv.conn st' = rest /\
    libaserv.transmissionBuffer st'
    = libaserv.transmissionBuffer st ++ libascli.samples_bytes samples /\
    length (libascli.samples_bytes samples) = (2 * length samples)%nat /\
    libaserv.Recording st' fd stem start /\
    os.log (libaserv.fs st')
    = os.log (libaserv.fs st) ++ [os.CWrite fd (libascli.samples_bytes samples)].
Proof.
  intros Hrec Hpos Hlt Hconn.
  rewrite sendAudioChunk_ok in Hconn by reflexivity.
  cbn [snd libascli.wire app] in Hconn.
  unfold libascli.frame in Hconn. rewrite at_time_app, <- app_assoc in Hconn.
  assert (Hw : wrap32 (Z.of_nat (length samples) * 2)
               = Z.of_nat (length samples) * 2).
  { apply wrap32_small. change (2 ^ 32) with 4294967296. lia. }
  destruct (iteration_payload env st fd stem start
              (libaserv.at_time t (libascli.sizeBuf samples))
              (libaserv.at_time t (libascli.samples_bytes samples)) rest
              (Z.of_nat (length samples) * 2) Hrec Hconn)
    as (st' & Hit & Hc & _ & Hbuf & Hrec' & Hlog).
  - rewrite snd_at_time. unfold libascli.sizeBuf. rewrite Hw. reflexivity.
  - lia.
  - rewrite length_at_time, length_samples_bytes. lia.
  - rewrite snd_at_time in Hbuf, Hlog.
    exists st'. split; [exact Hit|]. split; [exact Hc|]. split; [exact Hbuf|].
    split; [apply length_samples_bytes|]. split; [exact Hrec'|exact Hlog].
Qed.

(** The theorem at work: the samples 1 and -2, sent after a start
marker. *)
Lemma sent_chunk_is_received_witness :
  let env := libaserv.example_env 5000000000 in
  let sent :=
    libascli.wire
      (libascli.sendAudioChunk false [1; -2]
         (libascli.sendStartTransmission (libascli.mkConn [] []))).2 in
  let st0 :=
    libaserv.mkState (libaserv.at_time 0 sent) 0 os.empty "" [] false None None in
  let st1 :=
    match libaserv.iteration env st0 with
    | libaserv.Continue st => st
    | _ => st0
    end in
  exists st',
    libaserv.iteration env st1 = libaserv.Continue st' /\
    libaserv.transmissionBuffer st' = [Byte.x01; Byte.x00; Byte.xfe; Byte.xff].
Proof.
  intros env sent st0 st1.
  set (stem :=
    "recordings/20240123/550e8400-e29b-41d4-a716-446655440000/audio_000000").
  assert (Hrec : libaserv.Recording st1 0 stem 0).
  { split; [reflexivity|]. split; [reflexivity|]. split; [reflexivity|].
    exists 0%nat. split; [vm_compute; reflexivity|].
    split; vm_compute; reflexivity. }
  destruct (sent_chunk_is_received env st1 0 stem 0 0 [1; -2] [] Hrec
              ltac:(cbn; lia) ltac:(cbn; lia) eq_refl)
    as (st' & Hit & _ & Hbuf & _).
  exists st'. split; [exact Hit|exact Hbuf].
Defined.

(** X18.  The prefix of a frame is twice the number of samples, reduced
modulo 2^32.  It is even, so the server never takes it for a start
marker; it is zero, the end marker, exactly when the number of samples
is a multiple of 2^31, and so for the empty chunk, whose frame is the
end marker and nothing else. *)
Theorem frame_prefix_is_no_start_marker (samples : list Z) :
  binary.BigEndian_Uint32 (libascli.frame samples)
  = Some (wrap32 (Z.of_nat (length samples) * 2)) /\
  wrap32 (Z.of_nat (length samples) * 2) <> 4294967295 /\
  (wrap32 (Z.of_nat (length samples) * 2) = 0
   <-> Z.of_nat (length samples) mod 2 ^ 31 = 0) /\
  libascli.frame [] = libaserv.end_marker.
Proof.
  split; [|split; [|split]].
  - exact (BigEndian_roundtrip _ (wrap32_range _)).
  - unfold wrap32. change (2 ^ 32) with 4294967296.
    Z.to_euclidean_division_equations. lia.
  - unfold wrap32. change (2 ^ 32) with 4294967296.
    change (2 ^ 31) with 2147483648.
    Z.to_euclidean_division_equations. lia.
  - reflexivity.
Qed.

(** ** The capture endpoint: utterances on the wire *)

Lemma isTransmitting_updateBackgroundNoise ap a :
  libascli.isTransmitting (libascli.updateBackgroundNoise ap a)
  = libascli.isTransmitting ap.
Proof. reflexivity. Qed.

Lemma sendStartTransmission_ok (conn : libascli.Conn) :
  libascli.faults conn = [] ->
  libascli.sendStartTransmission conn
  = libascli.mkConn
      (libascli.wire conn ++ [Byte.xff; Byte.xff; Byte.xff; Byte.xff]) [].
Proof.
  intros H. unfold libascli.sendStartTransmission, libascli.Write.
  rewrite H. reflexivity.
Qed.

Lemma sendEndTransmission_ok (conn : libascli.Conn) :
  libascli.faults conn = [] ->
  libascli.sendEndTransmission conn
  = libascli.mkConn
      (libascli.wire conn ++ [Byte.x00; Byte.x00; Byte.x00; Byte.x00]) [].
Proof.
  intros H. unfold libascli.sendEndTransmission, libascli.Write.
  rewrite H. reflexivity.
Qed.

(** The framing of the server's loop, on the bytes alone. *)

Lemma ReadFull_inr env n st bs st' :
  libaserv.ReadFull env n st = (inr bs, st') ->
  (n <= length (libaserv.conn st))%nat /\
  bs = map snd (take n (libaserv.conn st)) /\
  libaserv.conn st' = drop n (libaserv.conn st) /\
  libaserv.isReceivingTransmission st' = libaserv.isReceivingTransmission st.
Proof.
  unfold libaserv.ReadFull.
  destruct (Nat.leb_spec n (length (libaserv.conn st))) as [Hle|Hgt];
    [|discriminate].
  intros Heq. inversion Heq. auto.
Qed.

Lemma receiving_startFile env st :
  libaserv.isReceivingTransmission (libaserv.startFile env st).2
  = libaserv.isReceivingTransmission st.
Proof.
  unfold libaserv.startFile, libaserv.createWavFile, libaserv.updateCurrentDay.
  destruct (decide _); simpl_state;
    (destruct (libaserv.MkdirAll_ok env _ _); cbn [negb]; [|reflexivity]);
    (destruct (os.Create _ _ _) as [[fd|] fs1]; simpl_state; [|reflexivity]);
    destruct (audio.WriteWavHeader fd 0 fs1); reflexivity.
Qed.

Lemma receiving_finishCurrentFile env st st' :
  libaserv.finishCurrentFile env st = audio.Done st' ->
  libaserv.isReceivingTransmission st' = libaserv.isReceivingTransmission st.
Proof.
  unfold libaserv.finishCurrentFile.
  destruct (libaserv.file st) as [fd|]; [|intros H; inversion H; reflexivity].
  destruct (audio.UpdateWavHeader _ _ _) as [ok fs1].
  destruct (os.Close _ _) as [ok2 fs2].
  destruct (audio.ResampleForWhisper _ _ _) as [|[ok3 fs3]]; [discriminate|].
  intros H. inversion H. reflexivity.
Qed.

Lemma Uint32_take4 (w : list byte) :
  (4 <= length w)%nat ->
  binary.BigEndian_Uint32 (take 4 w) = binary.BigEndian_Uint32 w.
Proof.
  intros H. do 4 (destruct w as [|? w]; [cbn in H; lia|]). reflexivity.
Qed.

Lemma Uint32_app (w x : list byte) :
  (4 <= length w)%nat ->
  binary.BigEndian_Uint32 (w ++ x) = binary.BigEndian_Uint32 w.
Proof.
  intros H. do 4 (destruct w as [|? w]; [cbn in H; lia|]). reflexivity.
Qed.

(** A turn of the loop of [handleConnection] that continues does to the
bytes to come and to [isReceivingTransmission] what [frame_step] says. *)
Lemma iteration_frame_step env st st' :
  libaserv.iteration env st = libaserv.Continue st' ->
  libaserv.frame_step (libaserv.isReceivingTransmission st)
    (map snd (libaserv.conn st))
  = Some (libaserv.isReceivingTransmission st', map snd (libaserv.conn st')).
Proof.
  unfold libaserv.iteration, libaserv.frame_step.
  destruct (libaserv.ReadFull env 4 st) as [[e|marker] st1] eqn:ER.
  { destruct (libaserv.isReceivingTransmission st1);
      [destruct (libaserv.file st1)|]; discriminate. }
  apply ReadFull_inr in ER as (Hlen & Hm & Hconn & Hrec).
  rewrite length_map.
  destruct (Nat.ltb_spec (length (libaserv.conn st)) 4) as [?|_]; [lia|].
  assert (Em : binary.BigEndian_Uint32 marker
               = binary.BigEndian_Uint32 (map snd (libaserv.conn st))).
  { rewrite Hm, <- firstn_map. apply Uint32_take4. rewrite length_map. exact Hlen. }
  rewrite <- Em, skipn_map, <- Hconn.
  destruct (_ =? 4294967295).
  { pose proof (conn_startFile env
        (libaserv.mkState (libaserv.conn st1) (libaserv.now st1)
           (libaserv.fs st1) (libaserv.currentDay st1) [] true
           (libaserv.file st1) (Some (libaserv.now st1)))) as Hs.
    pose proof (receiving_startFile env
        (libaserv.mkState (libaserv.conn st1) (libaserv.now st1)
           (libaserv.fs st1) (libaserv.currentDay st1) [] true
           (libaserv.file st1) (Some (libaserv.now st1)))) as Hr.
    destruct (libaserv.startFile env _) as [ok st3]. cbn [snd] in Hs, Hr.
    simpl_state. destruct ok; [|discriminate].
    intros H. apply check_ctx_Continue in H. subst st'.
    rewrite Hs, Hr. reflexivity. }
  destruct (_ =? 0).
  { simpl_state. destruct (_ <? time.Second).
    - destruct (libaserv.file st1) as [fd|].
      + destruct (os.Close _ _) as [ok fs1].
        intros H. apply check_ctx_Continue in H. subst st'. reflexivity.
      + intros H. apply check_ctx_Continue in H. subst st'. reflexivity.
    - destruct (libaserv.finishCurrentFile env _) as [|st3] eqn:EF; [discriminate|].
      pose proof (conn_finishCurrentFile _ _ _ EF) as Hc.
      pose proof (receiving_finishCurrentFile _ _ _ EF) as Hr.
      simpl_state.
      intros H. apply check_ctx_Continue in H. subst st'.
      rewrite Hc, Hr. reflexivity. }
  rewrite <- Hrec.
  destruct (libaserv.isReceivingTransmission st1) eqn:E1.
  - destruct (libaserv.ReadFull env _ st1) as [[e|chunk] st2] eqn:ER2;
      [discriminate|].
    apply ReadFull_inr in ER2 as (Hlen2 & _ & Hconn2 & Hrec2).
    rewrite length_map.
    destruct (Nat.leb_spec
                (Z.to_nat (default 0 (binary.BigEndian_Uint32 marker)))
                (length (libaserv.conn st1))) as [_|?]; [|lia].
    rewrite skipn_map, <- Hconn2.
    simpl_state. destruct (libaserv.file st2) as [fd|].
    + destruct (os.Write _ _ _) as [ok fs1].
      intros H. apply check_ctx_Continue in H. subst st'.
      simpl_state. rewrite Hrec2, E1. reflexivity.
    + intros H. apply check_ctx_Continue in H. subst st'.
      simpl_state. rewrite Hrec2, E1. reflexivity.
  - intros H. apply check_ctx_Continue in H. subst st'. rewrite E1. reflexivity.
Qed.

Lemma frame_step_app flag (w x : list byte) flag' rest :
  libaserv.frame_step flag w = Some (flag', rest) ->
  libaserv.frame_step flag (w ++ x) = Some (flag', rest ++ x).
Proof.
  unfold libaserv.frame_step. rewrite length_app.
  destruct (Nat.ltb_spec (length w) 4) as [?|Hw]; [discriminate|].
  destruct (Nat.ltb_spec (length w + length x) 4) as [?|_]; [lia|].
  rewrite Uint32_app by exact Hw. rewrite drop_app_le by exact Hw.
  destruct (_ =? 4294967295); [intros H; inversion H; reflexivity|].
  destruct (_ =? 0); [intros H; inversion H; reflexivity|].
  destruct flag; [|intros H; inversion H; reflexivity].
  rewrite length_app.
  destruct (Nat.leb_spec (Z.to_nat (default 0 (binary.BigEndian_Uint32 w)))
              (length (drop 4 w))) as [Hle|?]; [|discriminate].
  destruct (Nat.leb_spec (Z.to_nat (default 0 (binary.BigEndian_Uint32 w)))
              (length (drop 4 w) + length x)) as [_|?]; [|lia].
  rewrite drop_app_le by exact Hle.
  intros H. inversion H. reflexivity.
Qed.

Lemma frame_step_shorter flag (w : list byte) flag' rest :
  libaserv.frame_step flag w = Some (flag', rest) ->
  (length rest + 4 <= length w)%nat.
Proof.
  unfold libaserv.frame_step.
  destruct (Nat.ltb_spec (length w) 4) as [?|Hw]; [discriminate|].
  assert (Hd : (length (drop 4 w) + 4 <= length w)%nat)
    by (rewrite length_drop; lia).
  destruct (_ =? 4294967295); [intros H; inversion H; subst; exact Hd|].
  destruct (_ =? 0); [intros H; inversion H; subst; exact Hd|].
  destruct flag; [|intros H; inversion H; subst; exact Hd].
  destruct (_ <=? _)%nat; [|discriminate].
  intros H. inversion H; subst. rewrite length_drop. lia.
Qed.

Lemma receiving_mono (f : nat) :
  forall f' flag w b,
    libaserv.receiving f flag w = Some b -> (f <= f')%nat ->
    libaserv.receiving f' flag w = Some b.
Proof.
  induction f as [|f IH]; intros f' flag w b H Hle; [discriminate|].
  destruct f' as [|f']; [lia|]. cbn [libaserv.receiving] in *.
  destruct w as [|a w]; [exact H|].
  destruct (libaserv.frame_step flag (a :: w)) as [[flag' rest]|];
    [|discriminate].
  apply (IH f'); [exact H|lia].
Qed.

Lemma receiving_app (f : nat) :
  forall g flag w x b b',
    libaserv.receiving f flag w = Some b ->
    libaserv.receiving g b x = Some b' ->
    libaserv.receiving (f + g) flag (w ++ x) = Some b'.
Proof.
  induction f as [|f IH]; intros g flag w x b b' H Hx; [discriminate|].
  destruct w as [|a w].
  - cbn in H. inversion H; subst b. cbn [app].
    apply (receiving_mono g); [exact Hx|lia].
  - cbn [libaserv.receiving] in H.
    destruct (libaserv.frame_step flag (a :: w)) as [[flag' rest]|] eqn:E;
      [|discriminate].
    change (S f + g)%nat with (S (f + g)). cbn [libaserv.receiving app].
    change (a :: w ++ x) with ((a :: w) ++ x).
    rewrite (frame_step_app _ _ x _ _ E).
    exact (IH g flag' rest x b b' H Hx).
Qed.

Lemma receiving_enough (n : nat) :
  forall f flag w b,
    (length w < n)%nat ->
    libaserv.receiving f flag w = Some b ->
    libaserv.receiving n flag w = Some b.
Proof.
  induction n as [|n IH]; intros f flag w b Hlt H; [lia|].
  destruct f as [|f]; [discriminate|]. cbn [libaserv.receiving] in *.
  destruct w as [|a w]; [exact H|].
  destruct (libaserv.frame_step flag (a :: w)) as [[flag' rest]|] eqn:E;
    [|discriminate].
  apply frame_step_shorter in E.
  apply (IH f); [lia|exact H].
Qed.

Lemma frame_step_frame (c : list Z) (x : list byte) :
  libascli.valid_chunk c ->
  libaserv.frame_step true (libascli.frame c ++ x) = Some (true, x).
Proof.
  intros [Hpos Hlt].
  assert (Hw : wrap32 (Z.of_nat (length c) * 2) = Z.of_nat (length c) * 2).
  { apply wrap32_small. change (2 ^ 32) with 4294967296. lia. }
  pose proof (BigEndian_roundtrip _ (wrap32_range (Z.of_nat (length c) * 2)))
    as Hr.
  unfold libaserv.frame_step, libascli.frame, libascli.sizeBuf in *.
  rewrite Hw in *. unfold binary.BigEndian_PutUint32 in *.
  cbn [app length Nat.ltb Nat.leb drop skipn].
  change (binary.BigEndian_Uint32 (?a :: ?b :: ?c :: ?d :: _))
    with (binary.BigEndian_Uint32 [a; b; c; d]).
  rewrite Hr. cbn [default id]. rewrite !drop_0.
  destruct (Z.eqb_spec (Z.of_nat (length c) * 2) 4294967295) as [?|_]; [lia|].
  destruct (Z.eqb_spec (Z.of_nat (length c) * 2) 0) as [?|_]; [lia|].
  replace (Z.to_nat (Z.of_nat (length c) * 2))
    with (length (libascli.samples_bytes c))
    by (rewrite length_samples_bytes; lia).
  rewrite length_app.
  destruct (Nat.leb_spec (length (libascli.samples_bytes c))
              (length (libascli.samples_bytes c) + length x)) as [_|?]; [|lia].
  rewrite drop_app_length. reflexivity.
Qed.

Lemma receiving_frame (c : list Z) :
  libascli.valid_chunk c ->
  libaserv.receiving 2 true (libascli.frame c) = Some true.
Proof.
  intros Hc. pose proof (frame_step_frame c [] Hc) as H.
  rewrite app_nil_r in H. cbn [libaserv.receiving]. rewrite H.
  destruct (libascli.frame c) eqn:E; reflexivity.
Qed.

(** The server's framing reads a sequence of utterances to its flag. *)
Lemma utterances_receiving b w :
  libascli.utterances b w ->
  exists f, libaserv.receiving f false w = Some b.
Proof.
  induction 1 as [|w c _ [f IH] Hc|w c _ [f IH] Hc|w _ [f IH]].
  - exists 1%nat. reflexivity.
  - exists (f + 3)%nat. apply (receiving_app f 3 false w _ false true IH).
    change (libaserv.receiving 3 false
              ([Byte.xff; Byte.xff; Byte.xff; Byte.xff] ++ libascli.frame c))
      with (libaserv.receiving 2 true (libascli.frame c)).
    exact (receiving_frame c Hc).
  - exists (f + 2)%nat. apply (receiving_app f 2 false w _ true true IH).
    exact (receiving_frame c Hc).
  - exists (f + 2)%nat. apply (receiving_app f 2 false w _ true false IH).
    reflexivity.
Qed.

Lemma processAudioChunk_utterances call ap conn :
  libascli.faults conn = [] ->
  (libascli.ctx_Done_send call = true -> libascli.ctx_Done call = true) ->
  libascli.valid_chunk (libascli.chunk call) ->
  libascli.utterances (libascli.isTransmitting ap) (libascli.wire conn) ->
  libascli.utterances
    (libascli.isTransmitting (libascli.processAudioChunk call ap conn).1.1)
    (libascli.wire (libascli.processAudioChunk call ap conn).1.2) /\
  libascli.faults (libascli.processAudioChunk call ap conn).1.2 = [].
Proof.
  intros Hf Hctx Hv Hu. unfold libascli.processAudioChunk.
  destruct (libascli.ctx_Done call) eqn:Hd; [cbn; auto|].
  destruct (libascli.ctx_Done_send call); [discriminate (Hctx eq_refl)|].
  set (ap1 := libascli.updateBackgroundNoise ap _).
  assert (Ht : libascli.isTransmitting ap1 = libascli.isTransmitting ap)
    by reflexivity.
  destruct (PrimFloat.ltb _ _).
  - cbn [libascli.isTransmitting]. rewrite Ht.
    destruct (libascli.isTransmitting ap) eqn:Htr; cbn [negb].
    + rewrite sendAudioChunk_ok by exact Hf. cbn.
      split; [|reflexivity]. apply libascli.utterances_frame; assumption.
    + rewrite sendStartTransmission_ok by exact Hf.
      rewrite sendAudioChunk_ok by reflexivity. cbn.
      split; [|reflexivity]. rewrite <- app_assoc.
      apply libascli.utterances_start; assumption.
  - rewrite Ht. destruct (libascli.isTransmitting ap) eqn:Htr.
    + rewrite sendAudioChunk_ok by exact Hf.
      destruct (_ <? _).
      * rewrite sendEndTransmission_ok by reflexivity. cbn.
        split; [|reflexivity].
        apply libascli.utterances_end, libascli.utterances_frame; assumption.
      * cbn. rewrite ?Ht, ?Htr. split; [|reflexivity].
        apply libascli.utterances_frame; assumption.
    + cbn. rewrite ?Ht, ?Htr. auto.
Qed.

Lemma process_all_utterances (calls : list libascli.Call) :
  forall ap conn,
    libascli.faults conn = [] ->
    Forall (fun call =>
              (libascli.ctx_Done_send call = true ->
               libascli.ctx_Done call = true) /\
              libascli.valid_chunk (libascli.chunk call)) calls ->
    libascli.utterances (libascli.isTransmitting ap) (libascli.wire conn) ->
    libascli.utterances
      (libascli.isTransmitting (libascli.process_all calls ap conn).1)
      (libascli.wire (libascli.process_all calls ap conn).2) /\
    libascli.faults (libascli.process_all calls ap conn).2 = [].
Proof.
  induction calls as [|call calls IH]; intros ap conn Hf Hall Hu.
  { cbn. auto. }
  inversion Hall as [|? ? [Hc Hv] Hcs]; subst.
  unfold libascli.process_all. cbn [fold_left fst snd].
  destruct (processAudioChunk_utterances call ap conn Hf Hc Hv Hu) as [Hu1 Hf1].
  destruct (libascli.processAudioChunk call ap conn) as [[ap1 conn1] closed].
  cbn [fst snd] in *.
  exact (IH ap1 conn1 Hf1 Hcs Hu1).
Qed.

(** X19.  As long as every write succeeds, the context is not cancelled
between the entry of [processAudioChunk] and the entry of
[sendAudioChunk], and every buffer of samples is a valid chunk (it has a
sample, and fewer than 2^31 - 1), the bytes the endpoint has written
are a sequence of utterances, each a start marker, the frames of one
chunk or more and an end marker, and [isTransmitting] says whether the
last one is still open.  The ingest server reads these bytes the same
way: turn by turn, the framing of its loop takes each marker for a
marker and each frame for one payload frame, and at the end of the
bytes its [isReceivingTransmission] is the endpoint's
[isTransmitting].  (An empty buffer is excluded: its frame is the end
marker and nothing else.) *)
Theorem wire_is_a_sequence_of_utterances
  (calls : list libascli.Call) (ap : libascli.AudioProcessor)
  (conn : libascli.Conn) :
  libascli.faults conn = [] ->
  Forall (fun call =>
            (libascli.ctx_Done_send call = true ->
             libascli.ctx_Done call = true) /\
            libascli.valid_chunk (libascli.chunk call)) calls ->
  libascli.utterances (libascli.isTransmitting ap) (libascli.wire conn) ->
  libascli.utterances
    (libascli.isTransmitting (libascli.process_all calls ap conn).1)
    (libascli.wire (libascli.process_all calls ap conn).2) /\
  libascli.faults (libascli.process_all calls ap conn).2 = [] /\
  libaserv.receiving
    (S (length (libascli.wire (libascli.process_all calls ap conn).2))) false
    (libascli.wire (libascli.process_all calls ap conn).2)
  = Some (libascli.isTransmitting (libascli.process_all calls ap conn).1).
Proof.
  intros Hf Hall Hu.
  destruct (process_all_utterances calls ap conn Hf Hall Hu) as [Hu' Hf'].
  split; [exact Hu'|]. split; [exact Hf'|].
  destruct (utterances_receiving _ _ Hu') as [f Hr].
  apply (receiving_enough _ f); [lia|exact Hr].
Qed.

(** The theorem at work: three quiet buffers, a loud one, and a quiet
one two seconds later.  The loud buffer opens an utterance, which the
last buffer closes. *)
Lemma wire_is_a_sequence_of_utterances_witness :
  let quiet t := libascli.mkCall false false t [1; -1] in
  let loud t := libascli.mkCall false false t [1000; -1000] in
  let run calls :=
    libascli.process_all calls libascli.NewAudioProcessor (libascli.mkConn [] []) in
  libascli.utterances true
    (libascli.wire (run [quiet 0; quiet 0; quiet 0; loud 0]).2) /\
  libaserv.receiving 13 false
    (libascli.wire (run [quiet 0; quiet 0; quiet 0; loud 0]).2) = Some true /\
  libascli.utterances false
    (libascli.wire
       (run [quiet 0; quiet 0; quiet 0; loud 0; quiet 2000000000]).2) /\
  libaserv.receiving 25 false
    (libascli.wire
       (run [quiet 0; quiet 0; quiet 0; loud 0; quiet 2000000000]).2)
  = Some false.
Proof.
  intros quiet loud run.
  assert (Hv : forall c : list Z, length c = 2%nat -> libascli.valid_chunk c).
  { intros c Hc. unfold libascli.valid_chunk. rewrite Hc. split; [lia|]. lia. }
  destruct (wire_is_a_sequence_of_utterances
              [quiet 0; quiet 0; quiet 0; loud 0]
              libascli.NewAudioProcessor (libascli.mkConn [] []) eq_refl
              ltac:(repeat constructor; first [discriminate | apply Hv; reflexivity])
              libascli.utterances_none) as (U1 & _ & R1).
  destruct (wire_is_a_sequence_of_utterances
              [quiet 0; quiet 0; quiet 0; loud 0; quiet 2000000000]
              libascli.NewAudioProcessor (libascli.mkConn [] []) eq_refl
              ltac:(repeat constructor; first [discriminate | apply Hv; reflexivity])
              libascli.utterances_none) as (U2 & _ & R2).
  split; [exact U1|]. split; [exact R1|]. split; [exact U2|exact R2].
Defined.

(** ** The capture endpoint: the noise floor *)

Lemma updateBackgroundNoise_buffer ap a :
  (length (libascli.backgroundBuffer ap) <= 50)%nat ->
  libascli.backgroundBuffer (libascli.updateBackgroundNoise ap a)
  = drop (length (libascli.backgroundBuffer ap ++ [a]) - 50)
         (libascli.backgroundBuffer ap ++ [a]).
Proof.
  intros Hle. unfold libascli.updateBackgroundNoise, libascli.backgroundBufferSize.
  cbn [libascli.backgroundBuffer]. rewrite length_app. cbn [length].
  destruct (Nat.leb_spec 50 (length (libascli.backgroundBuffer ap))) as [H|H].
  - replace (length (libascli.backgroundBuffer ap) + 1 - 50)%nat with 1%nat by lia.
    destruct (libascli.backgroundBuffer ap); [cbn in H; lia|reflexivity].
  - replace (length (libascli.backgroundBuffer ap) + 1 - 50)%nat with 0%nat by lia.
    reflexivity.
Qed.

(** X20.  The noise floor is the mean of a sliding window: after any
sequence of amplitudes, [backgroundBuffer] holds the last 50 of what it
held before followed by those amplitudes (all of them while they are
fewer), never more than 50, and once an amplitude has come
[backgroundNoise] is the sum of the buffer, added up from the oldest,
divided by its length. *)
Theorem noise_floor_is_a_sliding_mean
  (amplitudes : list PrimFloat.float) (ap : libascli.AudioProcessor) :
  (length (libascli.backgroundBuffer ap) <= 50)%nat ->
  let ap' := fold_left libascli.updateBackgroundNoise amplitudes ap in
  let all := libascli.backgroundBuffer ap ++ amplitudes in
  libascli.backgroundBuffer ap' = drop (length all - 50) all /\
  (length (libascli.backgroundBuffer ap') <= 50)%nat /\
  (amplitudes <> [] ->
   libascli.backgroundNoise ap'
   = PrimFloat.div
       (fold_left PrimFloat.add (libascli.backgroundBuffer ap') PrimFloat.zero)
       (libascli.float64 (Z.of_nat (length (libascli.backgroundBuffer ap'))))).
Proof.
  revert ap. induction amplitudes as [|a amplitudes IH] using rev_ind;
    intros ap Hle ap' all.
  - unfold ap', all. cbn [fold_left]. rewrite app_nil_r.
    replace (length (libascli.backgroundBuffer ap) - 50)%nat with 0%nat by lia.
    split; [reflexivity|]. split; [exact Hle|]. congruence.
  - destruct (IH ap Hle) as (Hb & Hl & _).
    unfold ap', all. rewrite fold_left_app. cbn [fold_left].
    set (ap1 := fold_left libascli.updateBackgroundNoise amplitudes ap) in *.
    assert (E : libascli.backgroundBuffer (libascli.updateBackgroundNoise ap1 a)
                = drop (length ((libascli.backgroundBuffer ap ++ amplitudes) ++ [a]) - 50)
                       ((libascli.backgroundBuffer ap ++ amplitudes) ++ [a])).
    { rewrite updateBackgroundNoise_buffer by exact Hl.
      rewrite Hb. set (l := libascli.backgroundBuffer ap ++ amplitudes).
      rewrite !length_app, length_drop. cbn [length].
      destruct (Nat.le_gt_cases (length l) 50) as [H|H].
      - replace (length l - 50)%nat with 0%nat by lia. cbn [drop].
        rewrite Nat.sub_0_r. reflexivity.
      - replace (length l - (length l - 50) + 1 - 50)%nat with 1%nat by lia.
        rewrite <- drop_app_le by lia.
        rewrite drop_drop. f_equal. lia. }
    rewrite app_assoc. split; [exact E|]. split.
    + rewrite E, length_drop. lia.
    + intros _. reflexivity.
Qed.

(** The theorem at work: 51 amplitudes reach a new processor; the first
has left the window. *)
Lemma noise_floor_is_a_sliding_mean_witness :
  let amplitudes :=
    libascli.float64 7 :: repeat (libascli.float64 1) 50 in
  let ap' :=
    fold_left libascli.updateBackgroundNoise amplitudes
      libascli.NewAudioProcessor in
  libascli.backgroundBuffer ap' = repeat (libascli.float64 1) 50 /\
  libascli.backgroundNoise ap' = libascli.float64 1.
Proof.
  intros amplitudes ap'.
  destruct (noise_floor_is_a_sliding_mean amplitudes libascli.NewAudioProcessor
              ltac:(cbn; lia)) as (Hb & _ & Hn).
  split; [exact Hb|].
  unfold ap'. rewrite (Hn ltac:(discriminate)), Hb. reflexivity.
Defined.

(** ** Invariants of the running service *)

Lemma remove_first_In (x q : nat) (l : list nat) :
  q ∈ scribe.remove_first x l -> q ∈ l.
Proof.
  induction l as [|y l IH]; cbn; [auto|].
  destruct (decide (y = x)); intros H.
  - right. exact H.
  - apply elem_of_cons in H as [->|H]; [left|right; auto].
Qed.

Lemma remove_first_NoDup (x : nat) (l : list nat) :
  NoDup l -> NoDup (scribe.remove_first x l).
Proof.
  induction 1 as [|y l Hy Hl IH]; cbn; [constructor|].
  destruct (decide (y = x)); [exact Hl|].
  constructor; [|exact IH]. intros H. apply Hy. eapply remove_first_In, H.
Qed.

Lemma unregisterSubscriber_hub_wf s id p :
  scribe.hub_wf s ->
  (forall id ps, scribe.subscribers s !! id = Some ps -> ps <> []) ->
  scribe.hub_wf (scribe.unregisterSubscriber s id p) /\
  (forall id' ps,
     scribe.subscribers (scribe.unregisterSubscriber s id p) !! id' = Some ps ->
     ps <> []).
Proof.
  intros Hwf Hne. unfold scribe.unregisterSubscriber.
  destruct (scribe.subscribers s !! id) as [connections|] eqn:E; [|auto].
  destruct (Hwf id connections E) as [Hnd Hall].
  destruct (Nat.eqb_spec (length (scribe.remove_first p connections)) 0)
    as [H0|H0].
  - split.
    + intros id' ps Hl. cbn in Hl.
      destruct (decide (id' = id)) as [->|Hid].
      * rewrite lookup_delete_eq in Hl. discriminate.
      * rewrite lookup_delete_ne in Hl by congruence. exact (Hwf id' ps Hl).
    + intros id' ps Hl. cbn in Hl.
      destruct (decide (id' = id)) as [->|Hid].
      * rewrite lookup_delete_eq in Hl. discriminate.
      * rewrite lookup_delete_ne in Hl by congruence. exact (Hne id' ps Hl).
  - split.
    + intros id' ps Hl. cbn in Hl.
      destruct (decide (id' = id)) as [->|Hid].
      * rewrite lookup_insert_eq in Hl. inversion Hl; subst ps.
        split; [apply remove_first_NoDup, Hnd|].
        intros q Hq. apply Hall. eapply remove_first_In, Hq.
      * rewrite lookup_insert_ne in Hl by congruence. exact (Hwf id' ps Hl).
    + intros id' ps Hl. cbn in Hl.
      destruct (decide (id' = id)) as [->|Hid].
      * rewrite lookup_insert_eq in Hl. inversion Hl; subst ps.
        intros Hnil. rewrite Hnil in H0. cbn in H0. congruence.
      * rewrite lookup_insert_ne in Hl by congruence. exact (Hne id' ps Hl).
Qed.

Lemma processJob_keeps json_Marshal run s job :
  scribe.subscribers (scribe.processJob json_Marshal run s job).2
  = scribe.subscribers s /\
  scribe.queue (scribe.processJob json_Marshal run s job).2 = scribe.queue s /\
  scribe.RecordingsDir (scribe.processJob json_Marshal run s job).2
  = scribe.RecordingsDir s.
Proof.
  unfold scribe.processJob. repeat case_match; cbn; auto.
Qed.

Lemma service_inv_step dir s s' :
  scribe.service_inv dir s -> scribe.step s s' -> scribe.service_inv dir s'.
Proof.
  intros (Hwf & Hne & Hcap & Hlen & Hdir) Hstep.
  destruct Hstep as [env ev s|json_Marshal run s s' Hw|env id s|id p s].
  - destruct (watch_events_queue_from [(env, ev)] s ltac:(lia))
      as (Kd & Ks & Kc & Kcap & Klen & _).
    change (scribe.watch_events [(env, ev)] s)
      with (scribe.handleFSEvent env s ev).2 in *.
    split; [|split; [|split; [|split]]].
    + intros id ps Hl. rewrite Ks in Hl. rewrite Kc. exact (Hwf id ps Hl).
    + intros id ps Hl. rewrite Ks in Hl. exact (Hne id ps Hl).
    + congruence.
    + rewrite Hcap in Klen. exact Klen.
    + congruence.
  - unfold scribe.worker_step in Hw.
    destruct (scribe.buf (scribe.queue s)) as [|job rest] eqn:Hbuf;
      [discriminate|].
    inversion Hw; subst s'; clear Hw.
    set (s1 := scribe.mkScribe _ _ _ _ _ _).
    destruct (processJob_keeps json_Marshal (run job) s1 job) as (Ks & Kq & Kd).
    split; [|split; [|split; [|split]]].
    + apply (processJob_hub_wf json_Marshal (run job) s1 job
               (scribe.processJob json_Marshal (run job) s1 job).1);
        [exact Hwf|]. apply surjective_pairing.
    + intros id ps Hl. rewrite Ks in Hl. exact (Hne id ps Hl).
    + rewrite Kq. exact Hcap.
    + rewrite Kq. cbn. cbn in Hlen. lia.
    + rewrite Kd. exact Hdir.
  - destruct (scribe.handleWebSocket env s id) as [[p|] s'] eqn:E.
    + destruct (handleWebSocket_hub_wf env s id p s' Hwf E) as (Hwf' & _).
      unfold scribe.handleWebSocket in E.
      destruct (scribe.uuid_Parse env id); [|discriminate].
      destruct (scribe.Upgrade_ok env); [|discriminate].
      cbn [negb] in E. inversion E; subst; clear E. cbn [snd].
      split; [exact Hwf'|]. split; [|auto].
      intros id' ps Hl. unfold scribe.registerSubscriber in Hl. cbn in Hl.
      destruct (decide (id' = id)) as [->|Hid].
      * rewrite lookup_insert_eq in Hl. inversion Hl.
        intros Hnil. apply app_eq_nil in Hnil as [_ Hnil]. discriminate.
      * rewrite lookup_insert_ne in Hl by congruence. exact (Hne id' ps Hl).
    + unfold scribe.handleWebSocket in E.
      destruct (scribe.uuid_Parse env id); cbn [negb] in E;
        [destruct (scribe.Upgrade_ok env); cbn [negb] in E|];
        inversion E; subst; cbn [snd];
        (split; [exact Hwf|]; split; [exact Hne|]; auto).
  - destruct (unregisterSubscriber_hub_wf s id p Hwf Hne) as [Hwf' Hne'].
    split; [exact Hwf'|]. split; [exact Hne'|].
    unfold scribe.unregisterSubscriber.
    destruct (scribe.subscribers s !! id); cbn; auto.
Qed.

(** X21.  Every state the running service reaches from [New], by
watcher events, worker turns, subscriptions and dropped subscriptions
in any order, keeps the hub well formed (each list of subscribers names
each of its connections once, and each is a connection of that endpoint
with 256 outbound slots), lists no endpoint without a subscriber, and
holds at most 100 jobs in a queue of 100 slots. *)
Theorem running_service_invariant (dir : string) (s : scribe.Scribe) :
  rtc scribe.step (scribe.New dir) s -> scribe.service_inv dir s.
Proof.
  revert s. apply rtc_ind_r.
  - split; [apply hub_wf_New|]. split.
    + intros id ps Hl. cbn in Hl. rewrite lookup_empty in Hl. discriminate.
    + cbn. repeat split; lia.
  - intros s s' _ Hstep Hinv. exact (service_inv_step dir s s' Hinv Hstep).
Qed.

(** The theorem at work: a subscription, the create event of an
artifact and a worker turn. *)
Lemma running_service_invariant_witness :
  let env := scribe.example_env "20240123" in
  let id := "550e8400-e29b-41d4-a716-446655440000" in
  let name := "recordings/20240123/550e8400-e29b-41d4-a716-446655440000/audio_120000_whisper.wav" in
  let s1 := (scribe.handleWebSocket env (scribe.New "recordings") id).2 in
  let s2 := (scribe.handleFSEvent env s1 (scribe.mkEvent name scribe.Create)).2 in
  let s3 :=
    default s2
      (scribe.worker_step (fun _ => Some [Byte.x01])
         (fun _ => scribe.Output (strings.runes "hello")) s2) in
  scribe.service_inv "recordings" s3 /\
  scribe.buf (scribe.queue s3) = [].
Proof.
  intros env id name s1 s2 s3.
  split; [|vm_compute; reflexivity].
  apply running_service_invariant.
  eapply rtc_l; [apply (scribe.step_subscribe env id)|].
  eapply rtc_l; [apply (scribe.step_event env (scribe.mkEvent name scribe.Create))|].
  eapply rtc_l; [|apply rtc_refl].
  apply (scribe.step_worker (fun _ => Some [Byte.x01])
           (fun _ => scribe.Output (strings.runes "hello"))).
  vm_compute. reflexivity.
Defined.

(** ** From the ingest server to the watcher

The name under which the ingest server leaves a resampled artifact is
one the watcher turns into a job. *)

Lemma bytes_append (a b : string) :
  strings.bytes (a +:+ b) = strings.bytes a ++ strings.bytes b.
Proof.
  induction a as [|x a IH]; [reflexivity|].
  change (x :: strings.bytes (a +:+ b) = x :: (strings.bytes a ++ strings.bytes b)).
  f_equal. exact IH.
Qed.

Lemma is_prefix_app {A} `{EqDecision A} (p s : list A) :
  strings.is_prefix p (p ++ s) = true.
Proof.
  induction p as [|a p IH]; [reflexivity|].
  cbn. rewrite bool_decide_eq_true_2 by reflexivity. exact IH.
Qed.

Lemma Contains_app {A} `{EqDecision A} (a sub b : list A) :
  strings.Contains (a ++ sub ++ b) sub = true.
Proof.
  induction a as [|x a IH].
  - cbn [app]. destruct (sub ++ b) eqn:E; cbn [strings.Contains];
      rewrite <- E, is_prefix_app; reflexivity.
  - cbn [app strings.Contains]. rewrite IH. apply orb_true_r.
Qed.

Lemma HasSuffix_app {A} `{EqDecision A} (s suffix : list A) :
  strings.HasSuffix (s ++ suffix) suffix = true.
Proof.
  unfold strings.HasSuffix. rewrite length_app.
  replace (length s + length suffix - length suffix)%nat with (length s) by lia.
  rewrite drop_app_length, bool_decide_eq_true_2 by reflexivity.
  apply andb_true_iff. split; [apply Nat.leb_le; lia|reflexivity].
Qed.

Lemma HasSuffix_other {A} `{EqDecision A} (s suffix other : list A) :
  length other = length suffix -> other <> suffix ->
  strings.HasSuffix (s ++ suffix) other = false.
Proof.
  intros Hl Hne. unfold strings.HasSuffix. rewrite length_app, Hl.
  replace (length s + length suffix - length suffix)%nat with (length s) by lia.
  rewrite drop_app_length, bool_decide_eq_false_2 by congruence.
  apply andb_false_r.
Qed.

Lemma Split_one {A} `{EqDecision A} (s : list A) (sep : A) :
  ~ In sep s -> strings.Split s sep = [s].
Proof.
  induction s as [|a s IH]; intros Hn; [reflexivity|].
  cbn [strings.Split]. destruct (decide (a = sep)) as [->|_].
  - exfalso. apply Hn. left. reflexivity.
  - rewrite IH; [reflexivity|]. intros H. apply Hn. right. exact H.
Qed.

Lemma Split_app_sep {A} `{EqDecision A} (s rest : list A) (sep : A) :
  ~ In sep s ->
  strings.Split (s ++ sep :: rest) sep = s :: strings.Split rest sep.
Proof.
  induction s as [|a s IH]; intros Hn.
  - cbn. destruct (decide (sep = sep)); [reflexivity|congruence].
  - cbn [app strings.Split]. destruct (decide (a = sep)) as [->|_].
    + exfalso. apply Hn. left. reflexivity.
    + rewrite IH; [reflexivity|]. intros H. apply Hn. right. exact H.
Qed.

Lemma string_of_bytes (s : string) :
  string_of_list_ascii (strings.bytes s) = s.
Proof. apply string_of_list_ascii_of_string. Qed.

Lemma bytes_of_string_of (l : list ascii) :
  strings.bytes (string_of_list_ascii l) = l.
Proof. apply list_ascii_of_string_of_list_ascii. Qed.

(** X22.  The ingest server and the watcher fit together.  The name the
ingest server leaves a resampled artifact under, for an utterance that
started at the instant [t], is a job path for a watcher on the
recordings root on that day: its create event is not ignored, and with
room in the queue it enqueues a job for the endpoint's id.  It is
enough that the watcher parses the id and that neither the day, nor
the id, nor the time of day contains a separator. *)
Theorem resampled_artifact_is_a_job_path
  (env : libaserv.Env) (t : Z) (senv : scribe.Env) (s : scribe.Scribe) :
  scribe.RecordingsDir s = "recordings" ->
  scribe.filepath_Rel senv = scribe.Rel_below ->
  scribe.getCurrentDateDir senv = libaserv.format_20060102 env t ->
  scribe.uuid_Parse senv (libaserv.clientID env) = true ->
  ~ In "/"%char (strings.bytes (libaserv.format_20060102 env t)) ->
  ~ In "/"%char (strings.bytes (libaserv.clientID env)) ->
  ~ In "/"%char (strings.bytes (libaserv.format_150405 env t)) ->
  let name := libaserv.wavStem env t +:+ "_whisper.wav" in
  audio.outputPath (libaserv.wavPath env t) = Some name /\
  scribe.job_path senv s (scribe.mkEvent name scribe.Create)
    (libaserv.clientID env) /\
  ((length (scribe.buf (scribe.queue s)) < scribe.cap (scribe.queue s))%nat ->
   scribe.buf (scribe.queue
                 (scribe.handleFSEvent senv s
                    (scribe.mkEvent name scribe.Create)).2)
   = scribe.buf (scribe.queue s)
     ++ [scribe.mkJob name (libaserv.clientID env) (scribe.time_Now senv)]).
Proof.
  intros Hdir Hrel Hday Hid Nday Nid Nhms name.
  set (day := libaserv.format_20060102 env t) in *.
  set (id := libaserv.clientID env) in *.
  set (hms := libaserv.format_150405 env t) in *.
  set (leaf := "audio_" +:+ hms +:+ "_whisper.wav").
  assert (Hname : name = "recordings/" +:+ day +:+ "/" +:+ id +:+ "/" +:+ leaf).
  { unfold name, leaf, libaserv.wavStem, libaserv.filepath_Join.
    fold day id hms. rewrite !append_assoc. reflexivity. }
  assert (Hleaf : strings.bytes leaf
                  = (strings.bytes "audio_" ++ strings.bytes hms)
                    ++ strings.bytes "_whisper" ++ strings.bytes ".wav").
  { unfold leaf. rewrite !bytes_append, <- app_assoc. reflexivity. }
  assert (Hj : scribe.job_path senv s (scribe.mkEvent name scribe.Create) id).
  { split; [reflexivity|]. cbn [scribe.Name]. split.
    - unfold strings.HasSuffix_s.
      replace (strings.bytes name)
        with (strings.bytes ("recordings/" +:+ day +:+ "/" +:+ id +:+ "/"
                             +:+ "audio_" +:+ hms +:+ "_whisper")
              ++ strings.bytes ".wav").
      + apply HasSuffix_other; [reflexivity|discriminate].
      + rewrite Hname. unfold leaf. rewrite <- bytes_append.
        rewrite !append_assoc. reflexivity.
    - exists (day +:+ "/" +:+ id +:+ "/" +:+ leaf), leaf.
      split; [|split; [|split; [|split]]].
      + rewrite Hrel, Hdir, Hname. unfold scribe.Rel_below.
        change (strings.bytes "recordings" ++ ["/"%char])
          with (strings.bytes "recordings/").
        rewrite bytes_append, is_prefix_app, drop_app_length.
        rewrite string_of_bytes. reflexivity.
      + unfold strings.Split_s. rewrite !bytes_append.
        change (strings.bytes "/") with ["/"%char]. cbn [app].
        rewrite Split_app_sep by exact Nday.
        rewrite Split_app_sep by exact Nid.
        rewrite Split_one.
        * cbn [map]. rewrite !string_of_bytes, Hday. reflexivity.
        * rewrite Hleaf, !in_app_iff. cbn. intros [[H|H]|[H|H]];
            [| exact (Nhms H) | |]; repeat (destruct H as [H|H]; [discriminate|]);
            destruct H.
      + exact Hid.
      + unfold strings.HasSuffix_s. rewrite Hleaf, !app_assoc.
        apply HasSuffix_app.
      + unfold strings.Contains_s. rewrite Hleaf. apply Contains_app. }
  split; [|split; [exact Hj|]].
  - rewrite wavPath_stem. apply outputPath_wav.
  - intros Hroom.
    destruct (handleFSEvent_queue senv s (scribe.mkEvent name scribe.Create))
      as [(id' & Hj' & Hq)|[Hn _]]; [|destruct (Hn id Hj)].
    assert (id' = id) as ->.
    { destruct Hj as (_ & _ & r & l & Hr & Hs & _).
      destruct Hj' as (_ & _ & r' & l' & Hr' & Hs' & _).
      rewrite Hr in Hr'. inversion Hr'; subst r'.
      rewrite Hs in Hs'. inversion Hs'. reflexivity. }
    rewrite Hq. cbn [scribe.Name].
    destruct (try_send_cases (scribe.queue s)
                (scribe.mkJob name id (scribe.time_Now senv)))
      as [[_ ->]|[Hfull _]]; [reflexivity|lia].
Qed.

(** The theorem at work: the example environments of the two
packages. *)
Lemma resampled_artifact_is_a_job_path_witness :
  let env := libaserv.example_env 0 in
  let senv := scribe.example_env "20240123" in
  let name := "recordings/20240123/550e8400-e29b-41d4-a716-446655440000/audio_000000_whisper.wav" in
  scribe.buf (scribe.queue
                (scribe.handleFSEvent senv (scribe.New "recordings")
                   (scribe.mkEvent name scribe.Create)).2)
  = [scribe.mkJob name "550e8400-e29b-41d4-a716-446655440000" 0].
Proof.
  intros env senv name.
  destruct (resampled_artifact_is_a_job_path env 0 senv (scribe.New "recordings")
              eq_refl eq_refl eq_refl ltac:(vm_compute; reflexivity)
              ltac:(intros H; vm_compute in H; intuition discriminate)
              ltac:(intros H; vm_compute in H; intuition discriminate)
              ltac:(intros H; vm_compute in H; intuition discriminate))
    as (_ & _ & H).
  exact (H ltac:(cbn; lia)).
Defined.

(** ** What a worker turn can change *)

(** X23.  Whatever the recognizer gives, [processJob] changes neither
the subscriber map, nor the job queue, nor the watch list, nor the
history of another endpoint; the history of the job's endpoint stays
as it is or gets one message appended, never shortened or reordered.
When the recognizer fails, or its output has no text, the service is
left exactly as it was: nothing is stored and nothing is handed to a
subscriber. *)
Theorem processJob_only_appends
  (json_Marshal : scribe.WebSocketMessage -> option (list byte))
  (run : scribe.cmd_result) (s : scribe.Scribe)
  (job : scribe.TranscriptionJob) :
  scribe.subscribers (scribe.processJob json_Marshal run s job).2
  = scribe.subscribers s /\
  scribe.queue (scribe.processJob json_Marshal run s job).2 = scribe.queue s /\
  scribe.watched (scribe.processJob json_Marshal run s job).2 = scribe.watched s /\
  (forall id, id <> scribe.ClientID job ->
     scribe.clients (scribe.processJob json_Marshal run s job).2 !! id
     = scribe.clients s !! id) /\
  (scribe.clients (scribe.processJob json_Marshal run s job).2
   !! scribe.ClientID job
   = scribe.clients s !! scribe.ClientID job
   \/ exists msg,
       scribe.clients (scribe.processJob json_Marshal run s job).2
       !! scribe.ClientID job
       = Some (default [] (scribe.clients s !! scribe.ClientID job) ++ [msg])) /\
  (match run with
   | scribe.Output out => scribe.extractText out = []
   | _ => True
   end -> (scribe.processJob json_Marshal run s job).2 = s).
Proof.
  destruct (processJob_keeps json_Marshal run s job) as (Ks & Kq & _).
  split; [exact Ks|]. split; [exact Kq|].
  destruct run as [out|stderr|].
  2: { unfold scribe.processJob. destruct (strings.Contains_s _ _); cbn; auto. }
  2: { cbn. auto. }
  destruct (decide (scribe.extractText out = [])) as [E|E].
  - unfold scribe.processJob. rewrite (bool_decide_eq_true_2 _ E). cbn. auto.
  - split.
    { unfold scribe.processJob. rewrite (bool_decide_eq_false_2 _ E).
      repeat case_match; reflexivity. }
    rewrite processJob_clients by exact E.
    split; [|split].
    + intros id Hid. apply lookup_insert_ne. congruence.
    + right. eexists. apply lookup_insert_eq.
    + intros H. contradiction.
Qed.

(** ** From the capture endpoint to the stored artifact *)

Lemma frame_payload_frame (samples : list Z) :
  2 * Z.of_nat (length samples) < 4294967295 ->
  libascli.frame samples = libaserv.payload_frame (libascli.samples_bytes samples).
Proof.
  intros H. unfold libascli.frame, libaserv.payload_frame, libascli.sizeBuf.
  rewrite length_samples_bytes, wrap32_small
    by (change (2 ^ 32) with 4294967296; lia).
  do 2 f_equal. lia.
Qed.

Lemma wire_of_chunks (chunks : list (Z * list Z)) :
  Forall (fun c => (0 < length c.2)%nat /\
                   2 * Z.of_nat (length c.2) < 4294967295) chunks ->
  concat (map (fun c =>
                 libaserv.at_time c.1
                   (libascli.wire
                      (libascli.sendAudioChunk false c.2 (libascli.mkConn [] [])).2))
              chunks)
  = libaserv.frames_on_wire
      (map (fun c => (c.1, libascli.samples_bytes c.2)) chunks).
Proof.
  unfold libaserv.frames_on_wire.
  induction 1 as [|c chunks [_ Hc] _ IH]; [reflexivity|].
  cbn [map concat]. rewrite IH. f_equal.
  rewrite sendAudioChunk_ok by reflexivity. cbn [snd libascli.wire app fst].
  rewrite frame_payload_frame by exact Hc. reflexivity.
Qed.

(** X24.  A whole utterance, from the capture endpoint's senders to the
ingest server's artifact.  The endpoint sends a start marker, chunks of
samples (each with at least one sample and fewer than 2^31 - 1) and an
end marker that arrives a second or more after the start marker.  The
server then leaves the handler idle for the next utterance, and what it
hands to the transcoder is the container whose payload is the samples
of all chunks in order, two bytes each, low byte first, and whose
data-size field is the number of payload bytes reduced modulo 2^32 (that
number itself for an utterance below 4 GiB); the transcoder's output is
stored as [stem_whisper.wav] and [stem.wav] is removed, or, if the
transcoder fails, [stem.wav] keeps that container. *)
Theorem sent_utterance_is_stored
  (env : libaserv.Env) (st : libaserv.State) (t0 t1 : Z)
  (chunks : list (Z * list Z)) (rest : list (Z * byte)) :
  (forall t, libaserv.ctx_Done env t = false) ->
  os.wf (libaserv.fs st) ->
  Forall (fun c => (0 < length c.2)%nat /\
                   2 * Z.of_nat (length c.2) < 4294967295) chunks ->
  libaserv.conn st
  = libaserv.at_time t0
      (libascli.wire (libascli.sendStartTransmission (libascli.mkConn [] [])))
    ++ concat (map (fun c =>
                      libaserv.at_time c.1
                        (libascli.wire
                           (libascli.sendAudioChunk false c.2
                              (libascli.mkConn [] [])).2))
                   chunks)
    ++ libaserv.at_time t1
         (libascli.wire (libascli.sendEndTransmission (libascli.mkConn [] [])))
    ++ rest ->
  let ts := Z.max (libaserv.now st) t0 in
  libaserv.MkdirAll_ok env
    (libaserv.filepath_Join
       (libaserv.filepath_Join "recordings" (libaserv.format_20060102 env ts))
       (libaserv.clientID env)) ts = true ->
  libaserv.Create_ok env (libaserv.wavPath env ts) ts = true ->
  time.Second
  <= Z.max (libaserv.frames_arrival ts
              (map (fun c => (c.1, libascli.samples_bytes c.2)) chunks)) t1
     - ts ->
  let stem := libaserv.wavStem env ts in
  let payload := concat (map (fun c => libascli.samples_bytes c.2) chunks) in
  let total := Z.of_nat (length payload) in
  let patched :=
    audio.container (wrap32 (wrap32 total + 36)) (wrap32 total) payload in
  exists st',
    libaserv.iterate env (S (length chunks + 1)) st = libaserv.Continue st' /\
    libaserv.conn st' = rest /\
    match libaserv.ffmpeg env patched with
    | Some out =>
        os.content (stem +:+ ".wav") (libaserv.fs st') = None /\
        os.content (stem +:+ "_whisper.wav") (libaserv.fs st') = Some out
    | None => os.content (stem +:+ ".wav") (libaserv.fs st') = Some patched
    end /\
    binary.LittleEndian_Uint32 (drop 40 patched) = Some (total mod 2 ^ 32) /\
    (total < 2 ^ 32 ->
     binary.LittleEndian_Uint32 (drop 40 patched) = Some total) /\
    drop 44 patched = payload.
Proof.
  intros Hnever Hwf Hall Hconn ts Hmk Hcr Hdur stem payload total patched.
  rewrite (wire_of_chunks chunks Hall) in Hconn.
  set (frames := map (fun c => (c.1, libascli.samples_bytes c.2)) chunks) in *.
  assert (Hframes : Forall (fun f => 0 < Z.of_nat (length f.2) < 4294967295)
                      frames).
  { unfold frames. apply List.Forall_forall. intros f Hf.
    apply in_map_iff in Hf as (c & <- & Hc).
    rewrite List.Forall_forall in Hall. destruct (Hall c Hc) as [H1 H2].
    cbn [snd]. rewrite length_samples_bytes. lia. }
  assert (Hpay : concat (map snd frames) = payload).
  { unfold frames, payload. rewrite map_map. reflexivity. }
  destruct (utterance_finalized env st t0 t1 frames rest Hnever Hwf Hconn
              Hframes Hmk Hcr Hdur)
    as (st' & Hit & Hc & _ & Hfiles & Hmod & Hsmall & Hdrop).
  rewrite Hpay in Hfiles, Hmod, Hsmall, Hdrop.
  exists st'. unfold frames in Hit. rewrite length_map in Hit.
  split; [exact Hit|]. split; [exact Hc|]. split; [exact Hfiles|].
  split; [exact Hmod|]. split; [exact Hsmall|exact Hdrop].
Qed.

(** The theorem at work: two chunks, and an end marker 1.2 s after the
start marker. *)
Lemma sent_utterance_is_stored_witness :
  let env := libaserv.example_env 5000000000 in
  let wire :=
    libaserv.at_time 0 [Byte.xff; Byte.xff; Byte.xff; Byte.xff]
    ++ libaserv.at_time 0 (libascli.frame [1; -2])
    ++ libaserv.at_time 500000000 (libascli.frame [3])
    ++ libaserv.at_time 1200000000 [Byte.x00; Byte.x00; Byte.x00; Byte.x00] in
  let st0 := libaserv.mkState wire 0 os.empty "" [] false None None in
  exists st',
    libaserv.iterate env 4 st0 = libaserv.Continue st' /\
    os.content (libaserv.wavStem env 0 +:+ "_whisper.wav") (libaserv.fs st')
    = Some (audio.container 42 6
              [Byte.x01; Byte.x00; Byte.xfe; Byte.xff; Byte.x03; Byte.x00]).
Proof.
  intros env wire st0.
  destruct (sent_utterance_is_stored env st0 0 1200000000
              [(0, [1; -2]); (500000000, [3])] []
              (fun _ => eq_refl) wf_empty
              ltac:(repeat constructor; cbn; lia) eq_refl eq_refl eq_refl
              ltac:(vm_compute; discriminate))
    as (st' & Hit & _ & Hfiles & _).
  exists st'. split; [exact Hit|]. apply Hfiles.
Defined.
